(** * WeatherAnalysis: the analytical core of [utils/data_processing.py]

    A shallow embedding of the loader ([load_and_validate_data]), the
    seasonal analyser ([analyze_city_data]) and the normality classifier
    ([check_temperature_normality]), with the properties of the
    specification proved about them.  Around this core it embeds the season
    of the day ([get_current_season]), the weather client
    ([get_current_temperature] of [utils/weather_api.py]), the chart of the
    time series ([create_timeseries] of [utils/visualizations.py]) and the
    selections and counters of the pages of [app.py], with further
    properties of the code.

    Temperatures are IEEE-754 binary64 numbers, as in the program: they are
    modelled by Rocq's primitive floats, whose comparisons are false on NaN.
    A missing temperature is NaN, as pandas stores it. *)

From Stdlib Require Import Bool ZArith List String Ascii Lia.
From Stdlib Require Import Permutation Sorted.
From Stdlib Require Import Floats Uint63.
From Stdlib Require Import DecimalString DecimalNat.
Import ListNotations.
Local Open Scope string_scope.
Local Open Scope list_scope.

(** ** Exceptions

    A Python computation either returns a value or raises; [Raise] carries
    [str(e)]. *)

Inductive exn (A : Type) : Type :=
| Ok (a : A)
| Raise (msg : string).
Arguments Ok {A} a.
Arguments Raise {A} msg.

Definition bind {A B : Type} (c : exn A) (k : A -> exn B) : exn B :=
  match c with
  | Ok a => k a
  | Raise msg => Raise msg
  end.

Notation "x <- c ;; k" := (bind c (fun x => k))
  (at level 61, c at next level, right associativity).

(** ** Numeric reductions of pandas

    The reductions skip missing values, as pandas does by default.

    [Series.mean()] and [Series.std()] sum with numpy, or with bottleneck
    where it is installed, and pandas does not promise either: the value
    they give on a series with enough present values is a parameter here,
    the [kernel].  What pandas itself decides is kept: no present value
    gives a NaN mean, fewer than two a NaN deviation (one degree of freedom
    is removed).

    The reductions of [groupby] and of [rolling] are pandas' own loops
    ([_libs/groupby.pyx], [_libs/window/aggregations.pyx]) and are written
    out. *)

Module Series.

Definition isna (x : float) : bool := PrimFloat.is_nan x.

Definition dropna (l : list float) : list float :=
  filter (fun x => negb (isna x)) l.

Definition of_count (n : nat) : float :=
  PrimFloat.of_uint63 (Uint63.of_Z (Z.of_nat n)).

Definition count (l : list float) : nat := List.length (dropna l).

(** [Series.mean()] *)
Definition mean (kernel : list float -> float) (l : list float) : float :=
  if Nat.eqb (count l) 0 then nan else kernel l.

(** [Series.std()] *)
Definition std (kernel : list float -> float) (l : list float) : float :=
  if Nat.leb (count l) 1 then nan else kernel l.

Definition min (l : list float) : float :=
  match dropna l with
  | [] => nan
  | x :: v => fold_left (fun acc y => if (y <? acc)%float then y else acc) v x
  end.

Definition max (l : list float) : float :=
  match dropna l with
  | [] => nan
  | x :: v => fold_left (fun acc y => if (acc <? y)%float then y else acc) v x
  end.

(** [Series.unique]: the distinct values in order of first appearance. *)
Fixpoint unique (l : list string) : list string :=
  match l with
  | [] => []
  | x :: l' => x :: filter (fun y => negb (String.eqb y x)) (unique l')
  end.

(** *** The reductions of [groupby]

    [group_mean] adds the present values of a group in the order of the
    rows with a compensated sum: [compensation] holds the rounding error of
    the last addition and is taken off the next value; a compensation that
    is NaN is put back to zero. *)
Definition kahan_add (acc : float * float) (val : float) : float * float :=
  let '(sumx, compensation) := acc in
  let y := (val - compensation)%float in
  let t := (sumx + y)%float in
  let c := (t - sumx - y)%float in
  (t, if PrimFloat.is_nan c then 0%float else c).

Definition group_mean (l : list float) : float :=
  match dropna l with
  | [] => nan
  | v => (fst (fold_left kahan_add v (0%float, 0%float)) / of_count (List.length v))%float
  end.

(** [group_var] keeps the number of values seen, their mean and the sum of
    the squared distances to it, and brings the three up to date with every
    present value; [std] is the root of that sum over the number of values
    less one. *)
Definition welford_add (acc : nat * float * float) (val : float)
  : nat * float * float :=
  let '(nobs, mean, out) := acc in
  let oldmean := mean in
  let mean := (oldmean + (val - oldmean) / of_count (S nobs))%float in
  (S nobs, mean, (out + (val - mean) * (val - oldmean))%float).

Definition group_std (l : list float) : float :=
  let v := dropna l in
  if Nat.leb (List.length v) 1 then nan
  else
    let '(nobs, _, out) := fold_left welford_add v (0, 0%float, 0%float) in
    PrimFloat.sqrt (out / of_count (nobs - 1))%float.

(** *** The rolling mean

    The trailing window of at most [w] values ending at position [i]. *)
Definition window (w i : nat) (l : list float) : list float :=
  skipn (S i - w) (firstn (S i) l).

(** [rolling] first turns the infinite values into missing ones. *)
Definition prep_values (l : list float) : list float :=
  map (fun x => if PrimFloat.is_infinity x then nan else x) l.

(** The variables of [roll_mean]. *)
Record MeanState : Type := {
  nobs : Z;
  sum_x : float;
  neg_ct : Z;
  compensation_add : float;
  compensation_remove : float;
  num_consecutive_same_value : Z;
  prev_value : float
}.

Definition of_int (n : Z) : float := PrimFloat.of_uint63 (Uint63.of_Z n).

Definition add_mean (val : float) (st : MeanState) : MeanState :=
  if (val =? val)%float then
    let y := (val - compensation_add st)%float in
    let t := (sum_x st + y)%float in
    {| nobs := nobs st + 1;
       sum_x := t;
       neg_ct := if PrimFloat.get_sign val then neg_ct st + 1 else neg_ct st;
       compensation_add := (t - sum_x st - y)%float;
       compensation_remove := compensation_remove st;
       num_consecutive_same_value :=
         if (val =? prev_value st)%float then num_consecutive_same_value st + 1
         else 1;
       prev_value := val |}
  else st.

Definition remove_mean (val : float) (st : MeanState) : MeanState :=
  if (val =? val)%float then
    let y := (- val - compensation_remove st)%float in
    let t := (sum_x st + y)%float in
    {| nobs := nobs st - 1;
       sum_x := t;
       neg_ct := if PrimFloat.get_sign val then neg_ct st - 1 else neg_ct st;
       compensation_add := compensation_add st;
       compensation_remove := (t - sum_x st - y)%float;
       num_consecutive_same_value := num_consecutive_same_value st;
       prev_value := prev_value st |}
  else st.

Definition calc_mean (minp : Z) (st : MeanState) : float :=
  if (minp <=? nobs st)%Z && (0 <? nobs st)%Z then
    let result := (sum_x st / of_int (nobs st))%float in
    if (nobs st <=? num_consecutive_same_value st)%Z then prev_value st
    else if (neg_ct st =? 0)%Z && (result <? 0)%float then 0%float
    else if (neg_ct st =? nobs st)%Z && (0 <? result)%float then 0%float
    else result
  else nan.

(** The state at the start of a window that is summed afresh. *)
Definition setup (first : float) : MeanState :=
  {| nobs := 0; sum_x := 0; neg_ct := 0;
     compensation_add := 0; compensation_remove := 0;
     num_consecutive_same_value := 0; prev_value := first |}.

(** One turn of the loop of [roll_mean], for the window that ends at [i]:
    its bounds are [start = max 0 (i + 1 - w)] and [end = i + 1].  The first
    window, and a window that starts where the last one ended, is summed
    afresh; for any other the values that left are taken off the running
    sum and the values that came in are added. *)
Definition roll_window (values : list float) (w : nat) (st : MeanState) (i : nat)
  : MeanState :=
  let s := S i - w in
  let e := S i in
  if Nat.eqb i 0 || Nat.leb i s then
    fold_left (fun st j => add_mean (nth j values nan) st) (seq s (e - s))
              (setup (nth s values nan))
  else
    let st :=
      fold_left (fun st j => remove_mean (nth j values nan) st)
                (seq (i - w) (s - (i - w))) st in
    fold_left (fun st j => add_mean (nth j values nan) st) (seq i (e - i)) st.

Fixpoint roll_loop (values : list float) (w : nat) (minp : Z) (indices : list nat)
  (st : MeanState) : list float :=
  match indices with
  | [] => []
  | i :: indices' =>
      let st := roll_window values w st i in
      calc_mean minp st :: roll_loop values w minp indices' st
  end.

Definition roll_mean (values : list float) (w : nat) (minp : Z) : list float :=
  roll_loop values w minp (seq 0 (List.length values)) (setup nan).

(** [Series.rolling(window=w, min_periods=1).mean()].  pandas refuses a
    window smaller than [min_periods]. *)
Definition rolling_mean (w : nat) (l : list float) : exn (list float) :=
  if Nat.ltb w 1 then
    Raise "min_periods 1 must be <= window 0"
  else
    Ok (roll_mean (prep_values l) w 1).

End Series.

(** ** Sorting

    An insertion sort under a given comparison: an element is put in front
    of the first element it may precede.  Under an order it is stable, as
    [sort_values] is on several keys; on a single key the comparison is the
    one of [position_before] below. *)

Section StableSort.
Context {A : Type}.
Variable le : A -> A -> bool.

Fixpoint insert (x : A) (l : list A) : list A :=
  match l with
  | [] => [x]
  | y :: l' => if le x y then x :: l else y :: insert x l'
  end.

Fixpoint sort (l : list A) : list A :=
  match l with
  | [] => []
  | x :: l' => insert x (sort l')
  end.
End StableSort.

(** Order of a datetime column: ascending, missing values (NaT) last. *)
Definition time_le (a b : option Z) : bool :=
  match a, b with
  | Some x, Some y => Z.leb x y
  | _, None => true
  | None, Some _ => false
  end.

(** ** Data model *)

Record Observation : Type := {
  city : string;
  timestamp : option Z;        (* days or nanoseconds since the epoch; [None] is NaT *)
  temperature : float;
  season : string;
  season_ru : string
}.

(** A row of the series returned by the analyser: the observation and its
    [rolling_mean_<window>] column. *)
Record EnrichedObservation : Type := {
  obs : Observation;
  rolling_mean : float
}.

(** A row of [groupby('season')['temperature'].agg(...).reset_index()]. *)
Record GroupStats : Type := {
  g_season : string;
  g_mean : float;
  g_std : float;
  g_min : float;
  g_max : float;
  g_count : nat
}.

(** The same row once the [season_ru] column is set. *)
Record SeasonStats : Type := {
  ss_season : string;
  ss_mean : float;
  ss_std : float;
  ss_min : float;
  ss_max : float;
  ss_count : nat;
  ss_season_ru : string
}.

Record Anomaly : Type := {
  a_row : EnrichedObservation;
  lower_bound : float;
  upper_bound : float;
  deviation : float
}.

Record NormalityResult : Type := {
  is_normal : option bool;
  mean_temp : option float;
  std_temp : option float;
  nr_lower_bound : option float;
  nr_upper_bound : option float;
  nr_deviation : option float;
  deviation_in_std : option float;
  no_data : bool
}.

Definition temp (r : EnrichedObservation) : float := temperature (obs r).
Definition season_of (r : EnrichedObservation) : string := season (obs r).

(** ** The store of DataFrame objects

    A DataFrame is a mutable object: a variable holds a reference to it, and
    an assignment to one of its columns changes the object for every holder
    of the reference.  The store maps references to the frames they denote;
    a new object takes the next free reference. *)

Inductive Frame : Type :=
| FObservations (l : list Observation)
| FEnriched (l : list EnrichedObservation)
| FGroups (l : list GroupStats)
| FStats (l : list SeasonStats)
| FAnomalies (l : list Anomaly).

Definition ref : Type := nat.
Definition store : Type := list Frame.

(** Computations on the store that return or raise. *)
Definition ST (A : Type) : Type := store -> exn (A * store).

Definition st_ret {A : Type} (a : A) : ST A := fun h => Ok (a, h).

Definition st_bind {A B : Type} (c : ST A) (k : A -> ST B) : ST B :=
  fun h =>
    match c h with
    | Ok (a, h') => k a h'
    | Raise msg => Raise msg
    end.

Definition st_raise {A : Type} (msg : string) : ST A := fun _ => Raise msg.

Definition st_lift {A : Type} (c : exn A) : ST A :=
  fun h =>
    match c with
    | Ok a => Ok (a, h)
    | Raise msg => Raise msg
    end.

Declare Scope st_scope.
Delimit Scope st_scope with st.
Notation "x <- c ;; k" := (st_bind c (fun x => k))
  (at level 61, c at next level, right associativity) : st_scope.
Notation "c ;; k" := (st_bind c (fun _ => k))
  (at level 61, right associativity) : st_scope.

Definition new_frame (f : Frame) : ST ref :=
  fun h => Ok (List.length h, h ++ [f]).

Definition deref (r : ref) : ST Frame :=
  fun h =>
    match nth_error h r with
    | Some f => Ok (f, h)
    | None => Raise "no such object"
    end.

Fixpoint update (h : store) (r : ref) (f : Frame) : store :=
  match h, r with
  | [], _ => []
  | _ :: h', O => f :: h'
  | g :: h', S r' => g :: update h' r' f
  end.

Definition assign (r : ref) (f : Frame) : ST unit :=
  fun h => Ok (tt, update h r f).

(** ** What pandas and numpy leave open

    The analyser relies on three computations whose result depends on the
    build of numpy and on the presence of bottleneck.  [sort_values] on the
    single key [timestamp] sorts the positions of the present keys with
    numpy's quicksort, which does not keep equal keys in their order:
    [sort_tie keys i j] tells whether, on the key column [keys], it leaves
    position [i] before position [j] when the two hold equal keys.
    [nanmean] and [nanstd] are the values of [Series.mean()] and
    [Series.std()] on a series with enough present values. *)

Class Pandas : Type := {
  sort_tie : list (option Z) -> nat -> nat -> bool;
  nanmean : list float -> float;
  nanstd : list float -> float
}.

(** The place of two positions in the sorted order of a datetime column:
    the smaller key first, equal keys as the sorting algorithm leaves them,
    and the missing keys last in the order they have ([nargsort] puts them
    behind the sorted positions of the others). *)
Definition position_before {pandas : Pandas} (keys : list (option Z)) (i j : nat)
  : bool :=
  match nth i keys None, nth j keys None with
  | Some x, Some y =>
      if Z.ltb x y then true
      else if Z.ltb y x then false
      else sort_tie keys i j
  | Some _, None => true
  | None, Some _ => false
  | None, None => true
  end.

(** [nargsort(keys, kind='quicksort', ascending=True, na_position='last')] *)
Definition argsort {pandas : Pandas} (keys : list (option Z)) : list nat :=
  sort (position_before keys) (seq 0 (List.length keys)).

(** [df.take(indexer)]: the rows at the positions of the indexer. *)
Definition take_rows {A : Type} (df : list A) (indexer : list nat) : list A :=
  flat_map (fun i => match nth_error df i with Some x => [x] | None => [] end)
           indexer.

(** ** The analyser and the classifier

    The three constants of [config/settings.py] are parameters, and so is
    Python's [str.lower]. *)

Section Analysis.
Context {pandas : Pandas}.
Variable SEASON_MAPPING : list (string * string).
Variable ANOMALY_THRESHOLD : float.
Variable ROLLING_WINDOW : nat.
Variable str_lower : string -> string.

(** [dict.get] *)
Fixpoint dict_get (k : string) (d : list (string * string)) : option string :=
  match d with
  | [] => None
  | (k', v) :: d' => if String.eqb k' k then Some v else dict_get k d'
  end.

Definition translate_season (s : string) : string :=
  match dict_get (str_lower s) SEASON_MAPPING with
  | Some v => v
  | None => s
  end.

(** [city_df[city_df['season'] == season]] *)
Definition season_data (city_df : list EnrichedObservation) (s : string)
  : list EnrichedObservation :=
  filter (fun r => String.eqb (season_of r) s) city_df.

(** The bounds of a season: the mean of its temperatures minus and plus the
    threshold times their sample standard deviation. *)
Definition season_lower_bound (city_df : list EnrichedObservation) (s : string) : float :=
  let temps := map temp (season_data city_df s) in
  (Series.mean nanmean temps - ANOMALY_THRESHOLD * Series.std nanstd temps)%float.

Definition season_upper_bound (city_df : list EnrichedObservation) (s : string) : float :=
  let temps := map temp (season_data city_df s) in
  (Series.mean nanmean temps + ANOMALY_THRESHOLD * Series.std nanstd temps)%float.

(** The rows of one season outside the bounds. *)
Definition outside (lower upper : float) (sd : list EnrichedObservation)
  : list EnrichedObservation :=
  filter (fun r => (temp r <? lower)%float || (upper <? temp r)%float) sd.

(** The three columns set on the flagged rows. *)
Definition anomaly_columns (lower upper mean_temp : float)
  (anomalies : list EnrichedObservation) : list Anomaly :=
  map (fun r => {| a_row := r;
                   lower_bound := lower;
                   upper_bound := upper;
                   deviation := (temp r - mean_temp)%float |}) anomalies.

(** The body of the loop over the seasons: the flagged rows of one season
    with their three new columns. *)
Definition season_anomalies (city_df : list EnrichedObservation) (s : string)
  : list Anomaly :=
  let sd := season_data city_df s in
  let mean_temp := Series.mean nanmean (map temp sd) in
  let std_temp := Series.std nanstd (map temp sd) in
  let lower := (mean_temp - ANOMALY_THRESHOLD * std_temp)%float in
  let upper := (mean_temp + ANOMALY_THRESHOLD * std_temp)%float in
  anomaly_columns lower upper mean_temp (outside lower upper sd).

(** [groupby('season')['temperature'].agg(...)]: one row per group, the
    groups in ascending order of their key. *)
Definition group_row (city_df : list EnrichedObservation) (s : string)
  : GroupStats :=
  let temps := map temp (season_data city_df s) in
  {| g_season := s;
     g_mean := Series.group_mean temps;
     g_std := Series.group_std temps;
     g_min := Series.min temps;
     g_max := Series.max temps;
     g_count := Series.count temps |}.

Definition groupby_season_agg (city_df : list EnrichedObservation) : list GroupStats :=
  map (group_row city_df)
      (sort String.leb (Series.unique (map season_of city_df))).

(** [season_stats['season_ru'] = season_stats['season'].apply(translate_season)] *)
Definition with_season_ru (g : GroupStats) : SeasonStats :=
  {| ss_season := g_season g;
     ss_mean := g_mean g;
     ss_std := g_std g;
     ss_min := g_min g;
     ss_max := g_max g;
     ss_count := g_count g;
     ss_season_ru := translate_season (g_season g) |}.

(** [city_df.sort_values('timestamp')] *)
Definition sort_by_timestamp (city_df : list Observation) : list Observation :=
  take_rows city_df (argsort (map timestamp city_df)).

(** [city_df['rolling_mean_<window>'] = rolling] *)
Definition with_rolling_mean (city_df : list Observation) (rolling : list float)
  : list EnrichedObservation :=
  map (fun p => {| obs := fst p; rolling_mean := snd p |}) (combine city_df rolling).

Definition anomalies_loop (city_df : list EnrichedObservation) : list (list Anomaly) :=
  fold_left
    (fun anomalies_list s =>
       let anomalies := season_anomalies city_df s in
       if Nat.ltb 0 (List.length anomalies) then anomalies_list ++ [anomalies]
       else anomalies_list)
    (Series.unique (map season_of city_df)) [].

Definition analyze_city_data (city_df : list Observation)
  : exn (list EnrichedObservation * list SeasonStats * list Anomaly) :=
  let sorted := sort_by_timestamp city_df in
  rolling <- Series.rolling_mean ROLLING_WINDOW (map temperature sorted) ;;
  let city_df :=
    with_rolling_mean sorted rolling in
  let season_stats := map with_season_ru (groupby_season_agg city_df) in
  let anomalies_list := anomalies_loop city_df in
  let city_anomalies :=
    match anomalies_list with
    | [] => []                      (* pd.DataFrame() *)
    | _ => List.concat anomalies_list   (* pd.concat(anomalies_list) *)
    end in
  Ok (city_df, season_stats, city_anomalies).

Definition check_temperature_normality
  (current_temp : float) (season : string) (season_stats : list SeasonStats)
  : NormalityResult :=
  match filter (fun r => String.eqb (ss_season r) season) season_stats with
  | [] =>
      {| is_normal := None; mean_temp := None; std_temp := None;
         nr_lower_bound := None; nr_upper_bound := None;
         nr_deviation := None; deviation_in_std := None;
         no_data := true |}
  | row :: _ =>
      let mean_temp := ss_mean row in
      let std_temp := ss_std row in
      let lower_bound := (mean_temp - ANOMALY_THRESHOLD * std_temp)%float in
      let upper_bound := (mean_temp + ANOMALY_THRESHOLD * std_temp)%float in
      let is_normal :=
        (lower_bound <=? current_temp)%float && (current_temp <=? upper_bound)%float in
      let deviation := (current_temp - mean_temp)%float in
      let deviation_in_std :=
        if (0 <? std_temp)%float then (deviation / std_temp)%float else 0%float in
      {| is_normal := Some is_normal; mean_temp := Some mean_temp;
         std_temp := Some std_temp;
         nr_lower_bound := Some lower_bound; nr_upper_bound := Some upper_bound;
         nr_deviation := Some deviation;
         deviation_in_std := Some deviation_in_std;
         no_data := false |}
  end.

(** *** The analyser on the store

    The same function with its objects: every pandas call that returns a
    DataFrame makes a new object, and the column assignments change the
    object they are applied to. *)

Local Open Scope st_scope.

(** [df.sort_values('timestamp')] returns a new frame. *)
Definition df_sort_by_timestamp (df : ref) : ST ref :=
  f <- deref df ;;
  match f with
  | FObservations l => new_frame (FObservations (sort_by_timestamp l))
  | _ => st_raise "'timestamp'"
  end.

(** [df.copy()] *)
Definition df_copy (df : ref) : ST ref :=
  f <- deref df ;; new_frame f.

(** [df['temperature']], read only. *)
Definition df_temperature (df : ref) : ST (list float) :=
  f <- deref df ;;
  match f with
  | FObservations l => st_ret (map temperature l)
  | FEnriched l => st_ret (map temp l)
  | _ => st_raise "'temperature'"
  end.

(** [df['rolling_mean_<window>'] = rolling], in place. *)
Definition df_set_rolling_mean (df : ref) (rolling : list float) : ST unit :=
  f <- deref df ;;
  match f with
  | FObservations l => assign df (FEnriched (with_rolling_mean l rolling))
  | _ => st_raise "'temperature'"
  end.

Definition df_enriched (df : ref) : ST (list EnrichedObservation) :=
  f <- deref df ;;
  match f with
  | FEnriched l => st_ret l
  | _ => st_raise "'season'"
  end.

(** [df.groupby('season')['temperature'].agg(...).reset_index()] *)
Definition df_groupby_season_agg (df : ref) : ST ref :=
  l <- df_enriched df ;; new_frame (FGroups (groupby_season_agg l)).

(** [df['season_ru'] = df['season'].apply(translate_season)], in place. *)
Definition df_set_season_ru (df : ref) : ST unit :=
  f <- deref df ;;
  match f with
  | FGroups l => assign df (FStats (map with_season_ru l))
  | _ => st_raise "'season'"
  end.

(** [df['season'].unique()] *)
Definition df_unique_seasons (df : ref) : ST (list string) :=
  l <- df_enriched df ;; st_ret (Series.unique (map season_of l)).

(** [df[df['season'] == season]]: indexing by a mask returns a new frame. *)
Definition df_season_data (df : ref) (s : string) : ST ref :=
  l <- df_enriched df ;; new_frame (FEnriched (season_data l s)).

(** [df[(df['temperature'] < lower) | (df['temperature'] > upper)]] *)
Definition df_outside (df : ref) (lower upper : float) : ST ref :=
  l <- df_enriched df ;; new_frame (FEnriched (outside lower upper l)).

Definition df_len (df : ref) : ST nat :=
  l <- df_enriched df ;; st_ret (List.length l).

(** The assignments of [lower_bound], [upper_bound] and [deviation], in
    place. *)
Definition df_set_anomaly_columns (df : ref) (lower upper mean_temp : float)
  : ST unit :=
  f <- deref df ;;
  match f with
  | FEnriched l => assign df (FAnomalies (anomaly_columns lower upper mean_temp l))
  | _ => st_raise "'temperature'"
  end.

Definition df_anomalies (df : ref) : ST (list Anomaly) :=
  f <- deref df ;;
  match f with
  | FAnomalies l => st_ret l
  | _ => st_raise "cannot concatenate"
  end.

Fixpoint st_map {A B : Type} (f : A -> ST B) (l : list A) : ST (list B) :=
  match l with
  | [] => st_ret []
  | x :: l' => y <- f x ;; ys <- st_map f l' ;; st_ret (y :: ys)
  end.

(** [pd.concat(frames, ignore_index=True)] returns a new frame. *)
Definition pd_concat (frames : list ref) : ST ref :=
  ls <- st_map df_anomalies frames ;; new_frame (FAnomalies (List.concat ls)).

(** One turn of the loop over the seasons. *)
Definition df_season_step (city_df : ref) (anomalies_list : list ref) (s : string)
  : ST (list ref) :=
  sd <- df_season_data city_df s ;;
  temps <- df_temperature sd ;;
  let mean_temp := Series.mean nanmean temps in
  let std_temp := Series.std nanstd temps in
  let lower := (mean_temp - ANOMALY_THRESHOLD * std_temp)%float in
  let upper := (mean_temp + ANOMALY_THRESHOLD * std_temp)%float in
  masked <- df_outside sd lower upper ;;
  anomalies <- df_copy masked ;;
  n <- df_len anomalies ;;
  if Nat.ltb 0 n then
    df_set_anomaly_columns anomalies lower upper mean_temp ;;
    st_ret (anomalies_list ++ [anomalies])
  else st_ret anomalies_list.

Fixpoint df_season_loop (city_df : ref) (seasons : list string)
  (anomalies_list : list ref) : ST (list ref) :=
  match seasons with
  | [] => st_ret anomalies_list
  | s :: seasons' =>
      anomalies_list' <- df_season_step city_df anomalies_list s ;;
      df_season_loop city_df seasons' anomalies_list'
  end.

Definition analyze_city_data_st (city_df : ref) : ST (ref * ref * ref) :=
  sorted <- df_sort_by_timestamp city_df ;;
  city_df <- df_copy sorted ;;
  temps <- df_temperature city_df ;;
  rolling <- st_lift (Series.rolling_mean ROLLING_WINDOW temps) ;;
  df_set_rolling_mean city_df rolling ;;
  season_stats <- df_groupby_season_agg city_df ;;
  df_set_season_ru season_stats ;;
  seasons <- df_unique_seasons city_df ;;
  anomalies_list <- df_season_loop city_df seasons [] ;;
  city_anomalies <-
    match anomalies_list with
    | [] => new_frame (FAnomalies [])
    | _ => pd_concat anomalies_list
    end ;;
  st_ret (city_df, season_stats, city_anomalies).

Local Close Scope st_scope.

End Analysis.

(** ** Raw tables and the loader

    What [pd.read_csv] returns: named columns, each of one type.  A column of
    text holds [None] where the file has no value; a numeric column holds
    NaN there. *)

Inductive Column : Type :=
| StrCol (l : list (option string))
| NumCol (l : list float)
| TimeCol (l : list (option Z)).

Definition DataFrame : Type := list (string * Column).

Inductive cell : Type :=
| CStr (s : option string)
| CNum (x : float)
| CTime (t : option Z).

Definition col_length (c : Column) : nat :=
  match c with
  | StrCol l => List.length l
  | NumCol l => List.length l
  | TimeCol l => List.length l
  end.

Definition cell_at (c : Column) (i : nat) : cell :=
  match c with
  | StrCol l => CStr (nth i l None)
  | NumCol l => CNum (nth i l nan)
  | TimeCol l => CTime (nth i l None)
  end.

(** [Series.take(indexer)] *)
Definition take (indexer : list nat) (c : Column) : Column :=
  match c with
  | StrCol l => StrCol (map (fun i => nth i l None) indexer)
  | NumCol l => NumCol (map (fun i => nth i l nan) indexer)
  | TimeCol l => TimeCol (map (fun i => nth i l None) indexer)
  end.

Definition columns (df : DataFrame) : list string := map fst df.

Definition nrows (df : DataFrame) : nat :=
  match df with
  | [] => 0
  | (_, c) :: _ => col_length c
  end.

Definition row (df : DataFrame) (i : nat) : list cell :=
  map (fun nc => cell_at (snd nc) i) df.

Definition rows (df : DataFrame) : list (list cell) :=
  map (row df) (seq 0 (nrows df)).

Fixpoint lookup (name : string) (df : DataFrame) : option Column :=
  match df with
  | [] => None
  | (n, c) :: df' => if String.eqb n name then Some c else lookup name df'
  end.

(** [df[name]]: a missing column is a [KeyError], whose text is the quoted
    name. *)
Definition getitem (df : DataFrame) (name : string) : exn Column :=
  match lookup name df with
  | Some c => Ok c
  | None => Raise ("'" ++ name ++ "'")%string
  end.

(** [df[name] = c]: an existing column is replaced where it stands, a new
    one is added last. *)
Fixpoint setitem (df : DataFrame) (name : string) (c : Column) : DataFrame :=
  match df with
  | [] => [(name, c)]
  | (n, c') :: df' =>
      if String.eqb n name then (n, c) :: df' else (n, c') :: setitem df' name c
  end.

(** Ascending order inside a column, missing values last. *)
Definition cell_le (a b : cell) : bool :=
  match a, b with
  | CStr (Some x), CStr (Some y) => String.leb x y
  | CStr _, CStr None => true
  | CStr None, CStr (Some _) => false
  | CNum x, CNum y =>
      if Series.isna y then true
      else if Series.isna x then false
      else (x <=? y)%float
  | CTime x, CTime y => time_le x y
  | _, _ => true
  end.

(** Order of the rows under several sort keys: the first key decides, the
    next ones break its ties. *)
Fixpoint key_le (k1 k2 : list cell) : bool :=
  match k1, k2 with
  | a :: k1', b :: k2' =>
      if negb (cell_le b a) then true
      else if negb (cell_le a b) then false
      else key_le k1' k2'
  | _, _ => true
  end.

Fixpoint getitems (df : DataFrame) (names : list string) : exn (list Column) :=
  match names with
  | [] => Ok []
  | n :: names' =>
      c <- getitem df n ;;
      cs <- getitems df names' ;;
      Ok (c :: cs)
  end.

Definition sort_key (by_cols : list Column) (i : nat) : list cell :=
  map (fun c => cell_at c i) by_cols.

(** [df.sort_values(by).reset_index(drop=True)]: the rows are taken in the
    order of a stable sort of their positions. *)
Definition sort_values (by_names : list string) (df : DataFrame) : exn DataFrame :=
  by_cols <- getitems df by_names ;;
  let indexer :=
    sort (fun i j => key_le (sort_key by_cols i) (sort_key by_cols j))
         (seq 0 (nrows df)) in
  Ok (map (fun nc => (fst nc, take indexer (snd nc))) df).

(** The [.str] accessor maps over text and leaves missing values; it is
    refused on a column that is not text. *)
Definition str_accessor (f : string -> string) (c : Column) : exn Column :=
  match c with
  | StrCol l => Ok (StrCol (map (option_map f) l))
  | _ => Raise "Can only use .str accessor with string values!"
  end.

(** [Series.apply(f)] for an [f] that calls a [str] method on its argument:
    a missing value is a float and has no such method. *)
Fixpoint apply_str (f : string -> string) (l : list (option string))
  : exn (list (option string)) :=
  match l with
  | [] => Ok []
  | Some s :: l' => r <- apply_str f l' ;; Ok (Some (f s) :: r)
  | None :: _ => Raise "'float' object has no attribute 'lower'"
  end.

Definition series_apply (f : string -> string) (c : Column) : exn Column :=
  match c with
  | StrCol l => r <- apply_str f l ;; Ok (StrCol r)
  | _ => Raise "'float' object has no attribute 'lower'"
  end.

Definition load_error : string := "Ошибка при загрузке файла: ".
Definition missing_error : string := "Отсутствуют необходимые колонки: ".

Section Loader.
Variable File : Type.
(** [pd.read_csv] and [pd.to_datetime] are pandas' parsers; each returns
    or raises. *)
Variable read_csv : File -> exn DataFrame.
Variable to_datetime : Column -> exn (list (option Z)).
Variable SEASON_MAPPING : list (string * string).
Variables str_lower str_strip : string -> string.

Definition required_columns : list string :=
  ["city"; "timestamp"; "temperature"; "season"]%string.

Definition missing_columns (df : DataFrame) : list string :=
  filter (fun col => negb (existsb (String.eqb col) (columns df))) required_columns.

(** The body of the [try] block. *)
Definition load_body (uploaded_file : File)
  : exn (option DataFrame * option string) :=
  df <- read_csv uploaded_file ;;
  raw_timestamp <- getitem df "timestamp" ;;
  parsed <- to_datetime raw_timestamp ;;
  let df := setitem df "timestamp" (TimeCol parsed) in
  match missing_columns df with
  | _ :: _ =>
      Ok (None,
          Some (missing_error ++ String.concat ", " (missing_columns df))%string)
  | [] =>
      c <- getitem df "season" ;;
      lowered <- str_accessor str_lower c ;;
      stripped <- str_accessor str_strip lowered ;;
      let df := setitem df "season" stripped in
      c <- getitem df "season" ;;
      ru <- series_apply (translate_season SEASON_MAPPING str_lower) c ;;
      let df := setitem df "season_ru" ru in
      df <- sort_values ["city"; "timestamp"]%string df ;;
      Ok (Some df, None)
  end.

Definition load_and_validate_data (uploaded_file : File)
  : option DataFrame * option string :=
  match load_body uploaded_file with
  | Ok r => r
  | Raise msg => (None, Some (load_error ++ msg)%string)
  end.

(** The two keys of the loader's sort: a city and a parsed timestamp. *)
Definition loader_key (cities : list (option string)) (times : list (option Z))
(i : nat) : list cell :=
sort_key [StrCol cities; TimeCol times] i.

(** The frame the loader sorts: the table read, with its timestamps parsed,
  its seasons normalised and the translated seasons added. *)
Definition prepared (raw : DataFrame) (ts : list (option Z))
(seasons : list (option string)) : DataFrame :=
let normal := map (option_map str_strip) (map (option_map str_lower) seasons) in
let ru := map (option_map (translate_season SEASON_MAPPING str_lower)) normal in
setitem (setitem (setitem raw "timestamp" (TimeCol ts)) "season" (StrCol normal))
        "season_ru" (StrCol ru).

(** The positions of the rows of the table in the order of the output. *)
Definition loader_indexer (n : nat) (cities : list (option string))
(ts : list (option Z)) : list nat :=
sort (fun i j => key_le (loader_key cities ts i) (loader_key cities ts j)) (seq 0 n).

End Loader.

(** ** The season of the day and the display name

    [get_current_season] reads the clock; the month it reads is its
    argument here. *)

Definition get_current_season (month : Z) : string :=
  if existsb (Z.eqb month) [12; 1; 2]%Z then "winter"
  else if existsb (Z.eqb month) [3; 4; 5]%Z then "spring"
  else if existsb (Z.eqb month) [6; 7; 8]%Z then "summer"
  else "autumn".

Definition get_season_name_ru (SEASON_MAPPING : list (string * string))
  (str_lower : string -> string) (season_eng : string) : string :=
  translate_season SEASON_MAPPING str_lower season_eng.

(** ** The pages of the application

    [app.py], on the typed dataset: the rows of the selected city, the
    labels they keep, and the two counters of the anomaly page. *)

(** [df[df['city'] == selected_city].copy()] *)
Definition select_city (df : list Observation) (selected_city : string)
  : list Observation :=
  filter (fun o => String.eqb (city o) selected_city) df.

(** [len(city_anomalies[city_anomalies['temperature'] > city_anomalies['upper_bound']])] *)
Definition high_anomalies (city_anomalies : list Anomaly) : nat :=
  List.length
    (filter (fun x => (upper_bound x <? temp (a_row x))%float) city_anomalies).

(** [len(city_anomalies[city_anomalies['temperature'] < city_anomalies['lower_bound']])] *)
Definition low_anomalies (city_anomalies : list Anomaly) : nat :=
  List.length
    (filter (fun x => (temp (a_row x) <? lower_bound x)%float) city_anomalies).

(** *** The index of the frames

    The dataset of the loader is numbered from zero by [reset_index]; a
    selection and a sort keep the label of every row. *)

Definition range_index {A : Type} (l : list A) : list (nat * A) :=
  combine (seq 0 (List.length l)) l.

(** [df[df['city'] == selected_city].copy()], every row with its label. *)
Definition select_city_rows (df : list Observation) (selected_city : string)
  : list (nat * Observation) :=
  filter (fun p => String.eqb (city (snd p)) selected_city) (range_index df).

(** [city_df.sort_values('timestamp')], every row with its label. *)
Definition sort_rows_by_timestamp {pandas : Pandas}
  (city_df : list (nat * Observation)) : list (nat * Observation) :=
  take_rows city_df (argsort (map (fun p => timestamp (snd p)) city_df)).

(** The series the analyser returns for [city_df], with the index it has:
    the labels of the sorted rows. *)
Definition with_index {pandas : Pandas} (city_df : list (nat * Observation))
  (city_data : list EnrichedObservation) : list (nat * EnrichedObservation) :=
  combine (map fst (sort_rows_by_timestamp city_df)) city_data.

(** [str(n)] for a natural number. *)
Definition str (n : nat) : string := NilEmpty.string_of_uint (Nat.to_uint n).

(** The name of the column the analyser adds:
    ['rolling_mean_' + str(ROLLING_WINDOW)]. *)
Definition rolling_column (ROLLING_WINDOW : nat) : string :=
  "rolling_mean_" ++ str ROLLING_WINDOW.

(** *** The chart of the time series

    [create_timeseries] of [utils/visualizations.py]: the traces of the
    figure, each with its name and its two axes; the layout is left out.
    The dataset has the columns of the loader, so the only column whose
    name starts with [rolling_mean_] is the one the analyser adds. *)

Record Scatter : Type := {
  trace_name : string;
  trace_x : list (option Z);
  trace_y : list float
}.

(** [city_data[~city_data.index.isin(city_anomalies.index)]]: the index of
    the anomalies is the one [pd.concat(..., ignore_index=True)] gives,
    the numbers from zero, and the empty one of [pd.DataFrame()]. *)
Definition normal_data (city_data : list (nat * EnrichedObservation))
  (city_anomalies : list Anomaly) : list (nat * EnrichedObservation) :=
  filter (fun p => negb (existsb (Nat.eqb (fst p))
                                 (seq 0 (List.length city_anomalies))))
         city_data.

Definition create_timeseries (ROLLING_WINDOW : nat)
  (city_data : list (nat * EnrichedObservation)) (city_anomalies : list Anomaly)
  : exn (list Scatter) :=
  let normal := normal_data city_data city_anomalies in
  let temperature_trace :=
    {| trace_name := "Температура";
       trace_x := map (fun p => timestamp (obs (snd p))) normal;
       trace_y := map (fun p => temp (snd p)) normal |} in
  rolling <- (if String.eqb (rolling_column ROLLING_WINDOW) "rolling_mean_30"
              then Ok (map (fun p => rolling_mean (snd p)) city_data)
              else Raise "'rolling_mean_30'") ;;
  let rolling_trace :=
    {| trace_name := "Скользящее среднее (30 дней)";
       trace_x := map (fun p => timestamp (obs (snd p))) city_data;
       trace_y := rolling |} in
  let anomaly_trace :=
    {| trace_name := "Аномалии";
       trace_x := map (fun a => timestamp (obs (a_row a))) city_anomalies;
       trace_y := map (fun a => temp (a_row a)) city_anomalies |} in
  Ok ([temperature_trace; rolling_trace]
      ++ (if Nat.ltb 0 (List.length city_anomalies) then [anomaly_trace] else [])).

(** *** The dates of the extremes

    [city_data[city_data['temperature'] == city_data['temperature'].max()]
    ['timestamp'].dt.strftime('%Y-%m-%d').values[0]] and the same with
    [min]: the timestamp of the first row that has the extreme temperature,
    before it is formatted. *)

Definition max_date (city_data : list EnrichedObservation) : exn (option Z) :=
  match filter (fun r => (temp r =? Series.max (map temp city_data))%float)
               city_data with
  | [] => Raise "index 0 is out of bounds for axis 0 with size 0"
  | r :: _ => Ok (timestamp (obs r))
  end.

Definition min_date (city_data : list EnrichedObservation) : exn (option Z) :=
  match filter (fun r => (temp r =? Series.min (map temp city_data))%float)
               city_data with
  | [] => Raise "index 0 is out of bounds for axis 0 with size 0"
  | r :: _ => Ok (timestamp (obs r))
  end.

(** *** The order of the dataset

    The keys of two observations in the order of the loader's sort:
    the city, then the timestamp. *)
Definition dataset_key (o : Observation) : list cell :=
  [CStr (Some (city o)); CTime (timestamp o)].

Definition dataset_key_le (o1 o2 : Observation) : bool :=
  key_le (dataset_key o1) (dataset_key o2).

(** ** The weather client

    [utils/weather_api.py].  A Python call returns a value or raises.  The
    handler of [get_current_temperature] catches the exceptions of the
    [requests] library, [RequestException] and its subclasses, and lets
    every other exception pass; of the latter only the class is kept. *)

Module WeatherApi.

Inductive outcome (A : Type) : Type :=
| Returns (a : A)
| RaisesRequestException (msg : string)
| RaisesOther (exception : string).

Arguments Returns {A} a.
Arguments RaisesRequestException {A} msg.
Arguments RaisesOther {A} exception.

Definition and_then {A B : Type} (c : outcome A) (k : A -> outcome B) : outcome B :=
  match c with
  | Returns a => k a
  | RaisesRequestException msg => RaisesRequestException msg
  | RaisesOther exception => RaisesOther exception
  end.

Declare Scope py_scope.
Delimit Scope py_scope with py.
Notation "x <- c ;; k" := (and_then c (fun x => k))
  (at level 61, c at next level, right associativity) : py_scope.

(** What [json.loads] builds.  An object is a dict, given by its entries;
    the first entry of a key is the entry of the dict. *)
#[warnings="-register-all"]
Inductive json : Type :=
| JNull
| JBool (b : bool)
| JInt (n : Z)
| JFloat (x : float)
| JString (s : string)
| JArray (items : list json)
| JObject (members : list (string * json)).

Fixpoint member (key : string) (members : list (string * json)) : option json :=
  match members with
  | [] => None
  | (k, v) :: members' => if String.eqb k key then Some v else member key members'
  end.

(** [value[key]] for a text key. *)
Definition subscript (value : json) (key : string) : outcome json :=
  match value with
  | JObject members =>
      match member key members with
      | Some v => Returns v
      | None => RaisesOther "KeyError"
      end
  | _ => RaisesOther "TypeError"
  end.

(** The first character of a text in UTF-8: its first byte and the
    continuation bytes that follow it. *)
Definition is_continuation (c : ascii) : bool :=
  Nat.leb 128 (nat_of_ascii c) && Nat.ltb (nat_of_ascii c) 192.

Fixpoint continuation (s : string) : string :=
  match s with
  | EmptyString => EmptyString
  | String c s' => if is_continuation c then String c (continuation s') else EmptyString
  end.

(** [value[0]] *)
Definition first_item (value : json) : outcome json :=
  match value with
  | JArray (x :: _) => Returns x
  | JArray [] => RaisesOther "IndexError"
  | JString EmptyString => RaisesOther "IndexError"
  | JString (String c s) => Returns (JString (String c (continuation s)))
  | JObject _ => RaisesOther "KeyError"
  | _ => RaisesOther "TypeError"
  end.

(** [value.get(key, default)] *)
Definition get (value : json) (key : string) (default : json) : outcome json :=
  match value with
  | JObject members =>
      Returns (match member key members with
               | Some v => v
               | None => default
               end)
  | _ => RaisesOther "AttributeError"
  end.

(** A response of [requests]: its status, what [response.json()] does, and
    the text of the [HTTPError] that [raise_for_status] raises for it. *)
Record Response : Type := {
  status_code : Z;
  json_body : outcome json;
  http_error_msg : string
}.

(** [response.raise_for_status()]: an [HTTPError], which is a
    [RequestException], for the statuses 400 to 599. *)
Definition raise_for_status (response : Response) : outcome unit :=
  if (400 <=? status_code response)%Z && (status_code response <? 600)%Z
  then RaisesRequestException (http_error_msg response)
  else Returns tt.

Section Client.
Variables Timeout datetime : Type.
Variable OPENWEATHER_BASE_URL : string.
Variable API_TIMEOUT : Timeout.
(** [requests.get(url, params=params, timeout=timeout)] *)
Variable requests_get : string -> list (string * string) -> Timeout -> outcome Response.
(** [datetime.fromtimestamp] *)
Variable fromtimestamp : json -> outcome datetime.

(** The dict of a success, without its [success] entry. *)
Record Weather : Type := {
  temperature : json;
  feels_like : json;
  temp_min : json;
  temp_max : json;
  pressure : json;
  humidity : json;
  description : json;
  wind_speed : json;
  timestamp : datetime
}.

(** The dict returned: [success] is [True] with the weather, or [False]
    with [error] and [message]. *)
Inductive Result : Type :=
| Success (weather : Weather)
| Failure (error : string) (message : json).

Definition params (city_name api_key : string) : list (string * string) :=
  [("q", city_name); ("appid", api_key); ("units", "metric"); ("lang", "ru")]%string.

(** The body of the [try] block. *)
Definition try_body (city_name api_key : string) : outcome Result :=
  (response <- requests_get OPENWEATHER_BASE_URL (params city_name api_key) API_TIMEOUT ;;
   if (status_code response =? 401)%Z then
     body <- json_body response ;;
     message <- get body "message" (JString "Invalid API key") ;;
     Returns (Failure "invalid_key" message)
   else
     _ <- raise_for_status response ;;
     data <- json_body response ;;
     main <- subscript data "main" ;;
     temp <- subscript main "temp" ;;
     main <- subscript data "main" ;;
     feels <- subscript main "feels_like" ;;
     main <- subscript data "main" ;;
     tmin <- subscript main "temp_min" ;;
     main <- subscript data "main" ;;
     tmax <- subscript main "temp_max" ;;
     main <- subscript data "main" ;;
     press <- subscript main "pressure" ;;
     main <- subscript data "main" ;;
     humid <- subscript main "humidity" ;;
     weather <- subscript data "weather" ;;
     first <- first_item weather ;;
     descr <- subscript first "description" ;;
     wind <- subscript data "wind" ;;
     speed <- subscript wind "speed" ;;
     dt <- subscript data "dt" ;;
     time <- fromtimestamp dt ;;
     Returns (Success {| temperature := temp;
                         feels_like := feels;
                         temp_min := tmin;
                         temp_max := tmax;
                         pressure := press;
                         humidity := humid;
                         description := descr;
                         wind_speed := speed;
                         timestamp := time |}))%py.

Definition get_current_temperature (city_name api_key : string) : outcome Result :=
  match try_body city_name api_key with
  | RaisesRequestException msg => Returns (Failure "request_error" (JString msg))
  | other => other
  end.

End Client.

End WeatherApi.

(** ** A sample configuration and sample data

    The values of the three constants and the implementations of the string
    methods used when a property is exercised on concrete data. *)

Definition ascii_lower (c : ascii) : ascii :=
  let n := nat_of_ascii c in
  if Nat.leb 65 n && Nat.leb n 90 then ascii_of_nat (n + 32) else c.

Fixpoint ascii_str_lower (s : string) : string :=
  match s with
  | EmptyString => EmptyString
  | String c s' => String (ascii_lower c) (ascii_str_lower s')
  end.

Definition is_space (c : ascii) : bool :=
  let n := nat_of_ascii c in
  Nat.eqb n 32 || (Nat.leb 9 n && Nat.leb n 13).

Fixpoint lstrip (s : string) : string :=
  match s with
  | EmptyString => EmptyString
  | String c s' => if is_space c then lstrip s' else s
  end.

Fixpoint rstrip (s : string) : string :=
  match s with
  | EmptyString => EmptyString
  | String c s' =>
      match rstrip s' with
      | EmptyString => if is_space c then EmptyString else String c EmptyString
      | r => String c r
      end
  end.

Definition ascii_str_strip (s : string) : string := rstrip (lstrip s).

Definition sample_mapping : list (string * string) :=
  [("winter", "зима"); ("spring", "весна"); ("summer", "лето"); ("autumn", "осень")]%string.

Definition sample_threshold : float := 2%float.
Definition sample_window : nat := 30.

Definition sample_obs (day : Z) (t : float) (s : string) : Observation :=
  {| city := "Moscow"; timestamp := Some day; temperature := t;
     season := s; season_ru := translate_season sample_mapping ascii_str_lower s |}.

(** One city: six winter days, one of them far from the others, and one
    summer day. *)
Definition sample_city : list Observation :=
  [ sample_obs 3 (-5)%float "winter";
    sample_obs 1 (-5)%float "winter";
    sample_obs 2 (-5)%float "winter";
    sample_obs 200 21.5%float "summer";
    sample_obs 4 40%float "winter";
    sample_obs 5 (-5)%float "winter";
    sample_obs 6 (-5)%float "winter" ].

(** Three winter days. *)
Definition sample_winter : list Observation :=
  [ sample_obs 1 (-5)%float "winter";
    sample_obs 2 (-7)%float "winter";
    sample_obs 3 (-6)%float "winter" ].

(** A sample of what the libraries leave open: a sort that keeps rows of
    equal timestamp in their order, and the mean and the deviation summed
    from left to right over the present values. *)
Definition sample_sum (l : list float) : float := fold_left PrimFloat.add l 0%float.

Definition sample_nanmean (l : list float) : float :=
  let v := Series.dropna l in
  (sample_sum v / Series.of_count (List.length v))%float.

Definition sample_nanstd (l : list float) : float :=
  let v := Series.dropna l in
  let avg := (sample_sum v / Series.of_count (List.length v))%float in
  let sqr := map (fun x => ((avg - x) * (avg - x))%float) v in
  PrimFloat.sqrt (sample_sum sqr / Series.of_count (List.length v - 1))%float.

Definition sample_pandas : Pandas :=
  {| sort_tie := fun _ i j => Nat.leb i j;
     nanmean := sample_nanmean;
     nanstd := sample_nanstd |}.

Definition sample_analyze :=
  analyze_city_data (pandas := sample_pandas)
    sample_mapping sample_threshold sample_window ascii_str_lower.

(** *** A sample parser and sample tables

    A file is represented by what [read_csv] makes of it.  The sample date
    parser reads [YYYY-MM-DD] into the number of days since 1970-01-01 and
    refuses any other text. *)

Definition sample_read_csv (file : exn DataFrame) : exn DataFrame := file.

Definition digit_of (c : ascii) : option Z :=
  let n := nat_of_ascii c in
  if Nat.leb 48 n && Nat.leb n 57 then Some (Z.of_nat (n - 48)) else None.

Fixpoint number_of (acc : Z) (l : list ascii) : option Z :=
  match l with
  | [] => Some acc
  | c :: l' =>
      match digit_of c with
      | Some d => number_of (10 * acc + d) l'
      | None => None
      end
  end.

Definition days_from_civil (y m d : Z) : Z :=
  let y := if (m <=? 2)%Z then (y - 1)%Z else y in
  let era := (y / 400)%Z in
  let yoe := (y - era * 400)%Z in
  let doy := ((153 * (if (2 <? m)%Z then m - 3 else m + 9) + 2) / 5 + d - 1)%Z in
  let doe := (yoe * 365 + yoe / 4 - yoe / 100 + doy)%Z in
  (era * 146097 + doe - 719468)%Z.

Definition parse_iso_date (s : string) : option Z :=
  match list_ascii_of_string s with
  | [y1; y2; y3; y4; "-"%char; m1; m2; "-"%char; d1; d2] =>
      match number_of 0 [y1; y2; y3; y4], number_of 0 [m1; m2], number_of 0 [d1; d2] with
      | Some y, Some m, Some d => Some (days_from_civil y m d)
      | _, _, _ => None
      end
  | _ => None
  end.

Fixpoint parse_dates (l : list (option string)) : exn (list (option Z)) :=
  match l with
  | [] => Ok []
  | None :: l' => r <- parse_dates l' ;; Ok (None :: r)
  | Some s :: l' =>
      match parse_iso_date s with
      | Some t => r <- parse_dates l' ;; Ok (Some t :: r)
      | None => Raise ("Unknown datetime string format, unable to parse: " ++ s)%string
      end
  end.

Definition sample_to_datetime (c : Column) : exn (list (option Z)) :=
  match c with
  | StrCol l => parse_dates l
  | NumCol _ => Raise "unsupported timestamp column"
  | TimeCol l => Ok l
  end.

Definition sample_load :=
  load_and_validate_data (exn DataFrame) sample_read_csv sample_to_datetime
    sample_mapping ascii_str_lower ascii_str_strip.

(** A table of two cities with one day given twice. *)
Definition sample_table : DataFrame :=
  [ ("city", StrCol [Some "Moscow"; Some "Berlin"; Some "Moscow"; Some "Berlin"]);
    ("timestamp", StrCol [Some "2020-01-02"; Some "2020-01-01";
                          Some "2020-01-01"; Some "2020-01-01"]);
    ("temperature", NumCol [-7; 1; -5; 2]%float);
    ("season", StrCol [Some " Winter"; Some "winter"; Some "WINTER "; Some "winter"]) ]%string.

(** The same table with text where a temperature should be. *)
Definition sample_table_text_temperature : DataFrame :=
  [ ("city", StrCol [Some "Moscow"]);
    ("timestamp", StrCol [Some "2020-01-02"]);
    ("temperature", StrCol [Some "cold"]);
    ("season", StrCol [Some "winter"]) ]%string.

(** Tables without a column. *)
Definition sample_table_no_temperature : DataFrame :=
  [ ("city", StrCol [Some "Moscow"]);
    ("timestamp", StrCol [Some "2020-01-02"]);
    ("season", StrCol [Some "winter"]) ]%string.

Definition sample_table_no_timestamp : DataFrame :=
  [ ("city", StrCol [Some "Moscow"]);
    ("temperature", NumCol [-7]%float);
    ("season", StrCol [Some "winter"]) ]%string.

Definition sample_table_bad_date : DataFrame :=
  [ ("city", StrCol [Some "Moscow"]);
    ("timestamp", StrCol [Some "yesterday"]);
    ("temperature", NumCol [-7]%float);
    ("season", StrCol [Some "winter"]) ]%string.

(** A table with a season left empty. *)
Definition sample_table_no_season_value : DataFrame :=
  [("city", StrCol [Some "Moscow"; Some "Moscow"]);
   ("timestamp", StrCol [Some "2020-01-01"; Some "2020-01-02"]);
   ("temperature", NumCol [-5; -7]%float);
   ("season", StrCol [Some "winter"; None])]%string.

(** A table already in the order of its keys. *)
Definition sample_table_sorted : DataFrame :=
  [ ("city", StrCol [Some "Berlin"; Some "Berlin"; Some "Moscow"]);
    ("timestamp", StrCol [Some "2020-01-01"; Some "2020-01-01"; Some "2020-01-02"]);
    ("temperature", NumCol [1; 2; -7]%float);
    ("season", StrCol [Some "winter"; Some " Winter"; Some "SPRING"]) ]%string.

(** *** A sample weather service

    The service answers by the key: a report for ["good"], a report without
    its [main] entry for ["partial"], a refusal for ["bad"], no answer for
    ["offline"], and an unknown city for any other key. *)

Definition sample_report : WeatherApi.json :=
  WeatherApi.JObject
    [("weather", WeatherApi.JArray
                   [WeatherApi.JObject [("description", WeatherApi.JString "snow")]]);
     ("main", WeatherApi.JObject
                [("temp", WeatherApi.JFloat (-4.5)%float);
                 ("feels_like", WeatherApi.JInt (-9));
                 ("temp_min", WeatherApi.JInt (-6));
                 ("temp_max", WeatherApi.JInt (-3));
                 ("pressure", WeatherApi.JInt 1021);
                 ("humidity", WeatherApi.JInt 80)]);
     ("wind", WeatherApi.JObject [("speed", WeatherApi.JInt 3)]);
     ("dt", WeatherApi.JInt 1577869200)]%string.

Definition sample_requests_get (url : string) (params : list (string * string))
  (timeout : Z) : WeatherApi.outcome WeatherApi.Response :=
  match dict_get "appid" params with
  | Some "good"%string =>
      WeatherApi.Returns
        {| WeatherApi.status_code := 200;
           WeatherApi.json_body := WeatherApi.Returns sample_report;
           WeatherApi.http_error_msg := "" |}
  | Some "partial"%string =>
      WeatherApi.Returns
        {| WeatherApi.status_code := 200;
           WeatherApi.json_body :=
             WeatherApi.Returns (WeatherApi.JObject [("cod"%string, WeatherApi.JInt 200)]);
           WeatherApi.http_error_msg := "" |}
  | Some "bad"%string =>
      WeatherApi.Returns
        {| WeatherApi.status_code := 401;
           WeatherApi.json_body :=
             WeatherApi.Returns
               (WeatherApi.JObject
                  [("cod", WeatherApi.JInt 401);
                   ("message", WeatherApi.JString "Invalid API key.")]%string);
           WeatherApi.http_error_msg := "401 Client Error: Unauthorized" |}
  | Some "offline"%string => WeatherApi.RaisesRequestException "Read timed out."
  | _ =>
      WeatherApi.Returns
        {| WeatherApi.status_code := 404;
           WeatherApi.json_body :=
             WeatherApi.Returns
               (WeatherApi.JObject
                  [("cod", WeatherApi.JString "404");
                   ("message", WeatherApi.JString "city not found")]%string);
           WeatherApi.http_error_msg := "404 Client Error: Not Found" |}
  end.

Definition sample_fromtimestamp (value : WeatherApi.json) : WeatherApi.outcome Z :=
  match value with
  | WeatherApi.JInt n => WeatherApi.Returns n
  | _ => WeatherApi.RaisesOther "TypeError"
  end.

Definition sample_weather (city_name api_key : string) :=
  WeatherApi.get_current_temperature Z Z "https://api.openweathermap.org/data/2.5/weather"
    10%Z sample_requests_get sample_fromtimestamp city_name api_key.

(** ** Notions used to state the properties *)

(** The number one of binary64: mantissa [2^52], exponent [-52]. *)
Definition SF_one : spec_float := S754_finite false 4503599627370496 (-52).

(** Two temperatures are the same value: equal as numbers, or both missing. *)
Definition same_value (x y : float) : Prop :=
  (x =? y)%float = true \/ (x = nan /\ y = nan).

(** A row lies outside the bounds of its own season. *)
Definition is_anomalous {pandas : Pandas} (ANOMALY_THRESHOLD : float)
  (city_df : list EnrichedObservation) (r : EnrichedObservation) : bool :=
  (temp r <? season_lower_bound ANOMALY_THRESHOLD city_df (season_of r))%float
  || (season_upper_bound ANOMALY_THRESHOLD city_df (season_of r) <? temp r)%float.

(** The rows of the statistics table for a season, as the classifier selects
    them. *)
Definition matching_rows (season : string) (season_stats : list SeasonStats)
  : list SeasonStats :=
  filter (fun r => String.eqb (ss_season r) season) season_stats.

(** The statistics table of the sample city. *)
Definition sample_stats : list SeasonStats :=
  match sample_analyze sample_city with
  | Ok (_, season_stats, _) => season_stats
  | Raise _ => []
  end.

(** The order of a text column. *)
Definition text_le (a b : option string) : bool := cell_le (CStr a) (CStr b).

(** The references [refs] denote, in the store [h], anomaly frames with the
    rows [frames]. *)
Definition denote (h : store) (refs : list ref) (frames : list (list Anomaly)) : Prop :=
  Forall2 (fun r l => nth_error h r = Some (FAnomalies l)) refs frames.

(** Every column of a frame has [n] values. *)
Definition aligned (n : nat) (df : DataFrame) : Prop :=
  Forall (fun nc => col_length (snd nc) = n) df.

(** The number of present values among the [n] values from position [a]. *)
Definition present_between (values : list float) (a n : nat) : nat :=
  List.length
    (filter (fun j => (nth j values nan =? nth j values nan)%float) (seq a n)).

(** The variables of [roll_mean] after the turn of the window that ends at
    position [i]. *)
Definition roll_state (values : list float) (w i : nat) : Series.MeanState :=
  fold_left (Series.roll_window values w) (seq 0 (S i)) (Series.setup nan).

(** The present values among the [n] values from position [a] are all
    equal to [v]. *)
Definition all_equal (values : list float) (v : float) (a n : nat) : Prop :=
  forall j, a <= j < a + n ->
    (nth j values nan =? nth j values nan)%float = true ->
    (nth j values nan =? v)%float = true.

(** What [num_consecutive_same_value] and [prev_value] tell about the values
    from a position in [lo, hi] up to position [hi]. *)
Definition counts_runs (values : list float) (st : Series.MeanState) (lo hi : nat)
  : Prop :=
  (0 <= Series.num_consecutive_same_value st)%Z
  /\ forall a v, lo <= a <= hi ->
       all_equal values v a (hi - a) ->
       1 <= present_between values a (hi - a) ->
       (Series.prev_value st =? v)%float = true
       /\ (Z.of_nat (present_between values a (hi - a))
           <= Series.num_consecutive_same_value st)%Z.

(** Position [i] comes before position [j] in a stable ascending order: its
    key is not larger, and with equal keys it is the smaller position. *)
Definition before (le : nat -> nat -> bool) (i j : nat) : Prop :=
  le i j = true /\ (le j i = true -> i < j).

(** The place of a binary64 number on the line: the class of its sign, then
    its exponent, then its mantissa; NaN has no place. *)
Definition rank (X : spec_float) : option (Z * Z * Z) :=
  match X with
  | S754_nan => None
  | S754_infinity true => Some (-2, 0, 0)%Z
  | S754_infinity false => Some (2, 0, 0)%Z
  | S754_zero _ => Some (0, 0, 0)%Z
  | S754_finite true m e => Some (-1, - e, - Z.pos m)%Z
  | S754_finite false m e => Some (1, e, Z.pos m)%Z
  end.

Definition rank_le (a b : Z * Z * Z) : Prop :=
  let '(a1, a2, a3) := a in
  let '(b1, b2, b3) := b in
  (a1 < b1 \/ (a1 = b1 /\ (a2 < b2 \/ (a2 = b2 /\ a3 <= b3))))%Z.

Definition rank_lt (a b : Z * Z * Z) : Prop :=
  let '(a1, a2, a3) := a in
  let '(b1, b2, b3) := b in
  (a1 < b1 \/ (a1 = b1 /\ (a2 < b2 \/ (a2 = b2 /\ a3 < b3))))%Z.

(** The temperatures of the observations of one season, missing ones
    included. *)
Definition season_temperatures (city_df : list Observation) (k : string) : list float :=
  map temperature (filter (fun o => String.eqb (season o) k) city_df).

(** * Properties *)

(** ** Facts on binary64 numbers

    Derived from the specification of the primitive operations. *)

Module FloatFacts.

Lemma Prim2SF_nan_iff (x : float) : Prim2SF x = S754_nan <-> x = nan.
Proof.
  split; intros H.
  - apply Prim2SF_inj. rewrite H. reflexivity.
  - subst x. reflexivity.
Qed.

Lemma SFcompare_refl (X : spec_float) :
  X <> S754_nan -> SFcompare X X = Some Eq.
Proof.
  destruct X as [s | s | | s m e]; simpl; intros H.
  - reflexivity.
  - destruct s; reflexivity.
  - congruence.
  - rewrite Z.compare_refl, Pos.compare_cont_refl. destruct s; reflexivity.
Qed.

Lemma is_nan_iff (x : float) : is_nan x = true <-> x = nan.
Proof.
  rewrite <- Prim2SF_nan_iff. unfold is_nan. rewrite FloatAxioms.eqb_spec. unfold SFeqb.
  split; intros H.
  - destruct (Prim2SF x) eqn:E; try reflexivity;
      rewrite SFcompare_refl in H by congruence; discriminate.
  - rewrite H. reflexivity.
Qed.

Lemma is_nan_false (x : float) : is_nan x = false <-> Prim2SF x <> S754_nan.
Proof.
  rewrite Prim2SF_nan_iff, <- is_nan_iff. destruct (is_nan x); split; congruence.
Qed.

(** NaN absorbs the operations and fails the comparisons: rewrite with the
    specification of the operation and go through the cases of the other
    operand. *)
Ltac nan_case spec x :=
  rewrite spec; change (Prim2SF nan) with S754_nan;
  destruct (Prim2SF x); reflexivity.

Lemma mul_nan_r (x : float) : (x * nan)%float = nan.
Proof. apply Prim2SF_inj. nan_case FloatAxioms.mul_spec x. Qed.

Lemma sub_nan_r (x : float) : (x - nan)%float = nan.
Proof. apply Prim2SF_inj. nan_case FloatAxioms.sub_spec x. Qed.

Lemma add_nan_r (x : float) : (x + nan)%float = nan.
Proof. apply Prim2SF_inj. nan_case FloatAxioms.add_spec x. Qed.

Lemma ltb_nan_r (x : float) : (x <? nan)%float = false.
Proof. nan_case FloatAxioms.ltb_spec x. Qed.

Lemma ltb_nan_l (x : float) : (nan <? x)%float = false.
Proof. nan_case FloatAxioms.ltb_spec x. Qed.

Lemma leb_nan_l (x : float) : (nan <=? x)%float = false.
Proof. nan_case FloatAxioms.leb_spec x. Qed.

Lemma leb_nan_r (x : float) : (x <=? nan)%float = false.
Proof. nan_case FloatAxioms.leb_spec x. Qed.

(** A float equal to zero is one of the two zeros. *)
Lemma eqb_zero (x : float) :
  (x =? 0)%float = true -> exists s, Prim2SF x = S754_zero s.
Proof.
  rewrite FloatAxioms.eqb_spec. change (Prim2SF 0) with (S754_zero false).
  unfold SFeqb. destruct (Prim2SF x) as [s | s | | s m e]; simpl.
  - intros _. now exists s.
  - destruct s; discriminate.
  - discriminate.
  - destruct s; discriminate.
Qed.

Lemma ltb_zero_of_eqb (x : float) : (x =? 0)%float = true -> (0 <? x)%float = false.
Proof.
  intros H. destruct (eqb_zero x H) as [s Hs].
  rewrite FloatAxioms.ltb_spec, Hs. reflexivity.
Qed.

Lemma shr_fexp_canonical (m : positive) (e : Z) :
  fexp prec emax (Z.pos (digits2_pos m) + e) = e ->
  shr_fexp prec emax (Z.pos m) e loc_Exact
  = ({| shr_m := Z.pos m; shr_r := false; shr_s := false |}, e).
Proof.
  intros Hc. unfold shr_fexp.
  change (Zdigits2 (Z.pos m)) with (Z.pos (digits2_pos m)).
  rewrite Hc, Z.sub_diag. reflexivity.
Qed.

Lemma round_canonical (s : bool) (m : positive) (e : Z) :
  fexp prec emax (Z.pos (digits2_pos m) + e) = e ->
  (e <= emax - prec)%Z ->
  binary_round_aux prec emax s (Z.pos m) e loc_Exact = S754_finite s m e.
Proof.
  intros Hc He. unfold binary_round_aux.
  rewrite (shr_fexp_canonical m e Hc).
  cbn [shr_m loc_of_shr_record round_nearest_even].
  rewrite (shr_fexp_canonical m e Hc).
  cbn [shr_m].
  apply Z.leb_le in He. rewrite He. reflexivity.
Qed.

Lemma round_canonical_double (s : bool) (m : positive) (e : Z) :
  fexp prec emax (Z.pos (digits2_pos m) + e) = e ->
  (e <= emax - prec)%Z ->
  binary_round_aux prec emax s (Z.pos m~0) (e - 1) loc_Exact = S754_finite s m e.
Proof.
  intros Hc He. unfold binary_round_aux.
  assert (H1 : shr_fexp prec emax (Z.pos m~0) (e - 1) loc_Exact
               = ({| shr_m := Z.pos m; shr_r := false; shr_s := false |}, e)).
  { unfold shr_fexp.
    change (Zdigits2 (Z.pos m~0)) with (Z.pos (Pos.succ (digits2_pos m))).
    replace (Z.pos (Pos.succ (digits2_pos m)) + (e - 1))%Z
      with (Z.pos (digits2_pos m) + e)%Z by lia.
    rewrite Hc.
    replace (e - (e - 1))%Z with 1%Z by lia.
    unfold shr, shr_record_of_loc. cbn [iter_pos shr_1 orb].
    f_equal. lia. }
  rewrite H1.
  cbn [shr_m loc_of_shr_record round_nearest_even].
  rewrite (shr_fexp_canonical m e Hc).
  cbn [shr_m].
  apply Z.leb_le in He. rewrite He. reflexivity.
Qed.

Lemma div_eucl_exact (a b : Z) :
  (0 < b)%Z -> Z.div_eucl (a * b) b = (a, 0%Z).
Proof.
  intros Hb.
  pose proof (Z.div_mul a b) as Hq. pose proof (Z.mod_mul a b) as Hr.
  unfold Z.div, Z.modulo in Hq, Hr.
  destruct (Z.div_eucl (a * b) b) as [q r]. simpl in *.
  rewrite Hq, Hr by lia. reflexivity.
Qed.

Lemma SFdiv_one (X : spec_float) :
  valid_binary X = true -> SF64div X SF_one = X.
Proof.
  destruct X as [s | s | | s m e]; simpl; intros V.
  - now rewrite xorb_false_r.
  - now rewrite xorb_false_r.
  - reflexivity.
  - unfold bounded, canonical_mantissa in V.
    apply andb_prop in V. destruct V as [Hc He].
    apply Z.eqb_eq in Hc. apply Z.leb_le in He.
    unfold SF64div, SFdiv, SF_one, SFdiv_core_binary.
    change (Zdigits2 (Z.pos 4503599627370496)) with 53%Z.
    change (Zdigits2 (Z.pos m)) with (Z.pos (digits2_pos m)).
    rewrite xorb_false_r.
    assert (Hd : (0 < Z.pos (digits2_pos m))%Z) by lia.
    assert (Hcase :
              (e = -1074 /\ Z.pos (digits2_pos m) <= 53)%Z
              \/ (Z.pos (digits2_pos m) = 53 /\ -1074 < e)%Z).
    { revert Hc. unfold fexp, SpecFloat.emin.
      change prec with 53%Z. change emax with 1024%Z. lia. }
    destruct Hcase as [[E Hd53] | [E Hlt]].
    + replace (Z.min (fexp prec emax (Z.pos (digits2_pos m) + e - (53 + -52))) (e - -52))
        with e
        by (unfold fexp, SpecFloat.emin; change prec with 53%Z;
            change emax with 1024%Z; lia).
      replace (e - -52 - e)%Z with 52%Z by lia.
      rewrite Z.shiftl_mul_pow2 by lia.
      change (2 ^ 52)%Z with 4503599627370496%Z.
      rewrite div_eucl_exact by lia.
      change (new_location 4503599627370496 0) with loc_Exact.
      now apply round_canonical.
    + replace (Z.min (fexp prec emax (Z.pos (digits2_pos m) + e - (53 + -52))) (e - -52))
        with (e - 1)%Z
        by (unfold fexp, SpecFloat.emin; change prec with 53%Z;
            change emax with 1024%Z; lia).
      replace (e - -52 - (e - 1))%Z with 53%Z by lia.
      rewrite Z.shiftl_mul_pow2 by lia.
      replace (Z.pos m * 2 ^ 53)%Z with (Z.pos m~0 * 4503599627370496)%Z by lia.
      rewrite div_eucl_exact by lia.
      change (new_location 4503599627370496 0) with loc_Exact.
      now apply round_canonical_double.
Qed.

Lemma div_one (x : float) : (x / 1)%float = x.
Proof.
  apply Prim2SF_inj. rewrite FloatAxioms.div_spec.
  change (Prim2SF 1) with SF_one.
  apply SFdiv_one, Prim2SF_valid.
Qed.

(** Taking zero off a number leaves it as it is. *)
Lemma sub_zero_r (x : float) : (x - 0)%float = x.
Proof.
  apply Prim2SF_inj. rewrite FloatAxioms.sub_spec.
  change (Prim2SF 0) with (S754_zero false).
  destruct (Prim2SF x) as [s | s | | s m e]; try reflexivity.
  now destruct s.
Qed.

(** Adding a number to zero gives a number equal to it (the sign of a
    zero may change). *)
Lemma add_zero_l (x : float) :
  is_nan x = false -> (0 + x =? x)%float = true.
Proof.
  intros H. apply is_nan_false in H.
  rewrite FloatAxioms.eqb_spec, FloatAxioms.add_spec.
  change (Prim2SF 0) with (S754_zero false).
  unfold SFeqb.
  destruct (Prim2SF x) as [s | s | | s m e] eqn:E.
  - destruct s; reflexivity.
  - simpl. destruct s; reflexivity.
  - congruence.
  - unfold SF64add, SFadd. rewrite SFcompare_refl by congruence. reflexivity.
Qed.

Lemma SFeqb_cases (X Y : spec_float) :
  SFeqb X Y = true ->
  (exists s1 s2, X = S754_zero s1 /\ Y = S754_zero s2)
  \/ (X = Y /\ X <> S754_nan).
Proof.
  unfold SFeqb.
  destruct X as [s1 | s1 | | s1 m1 e1], Y as [s2 | s2 | | s2 m2 e2]; simpl;
    try discriminate;
    try (destruct s1; discriminate); try (destruct s2; discriminate).
  - intros _. left. eauto.
  - destruct s1, s2; try discriminate; intros _; right; split; congruence.
  - destruct s1, s2; try discriminate;
      destruct (Z.compare_spec e1 e2) as [-> | |]; try discriminate;
      destruct (Pos.compare_cont Eq m1 m2) eqn:E; try discriminate;
      apply Pos.compare_eq in E; subst; intros _; right; split; congruence.
Qed.

(** A finite float is a zero or has a mantissa and an exponent. *)
(** Equality of binary64 numbers is symmetric and transitive. *)
Lemma eqb_sym (x y : float) : (x =? y)%float = (y =? x)%float.
Proof.
  rewrite !FloatAxioms.eqb_spec. unfold SFeqb.
  destruct (Prim2SF x) as [s1 | s1 | | s1 m1 e1], (Prim2SF y) as [s2 | s2 | | s2 m2 e2];
    simpl; try reflexivity; try (destruct s1, s2; reflexivity).
  destruct s1, s2; try reflexivity.
  - rewrite (Z.compare_antisym e1 e2).
    destruct (Z.compare e1 e2); simpl; try reflexivity.
    change (Pos.compare_cont Eq m1 m2) with (Pos.compare m1 m2).
    change (Pos.compare_cont Eq m2 m1) with (Pos.compare m2 m1).
    rewrite (Pos.compare_antisym m1 m2). now destruct (Pos.compare m1 m2).
  - rewrite (Z.compare_antisym e1 e2).
    destruct (Z.compare e1 e2); simpl; try reflexivity.
    change (Pos.compare_cont Eq m1 m2) with (Pos.compare m1 m2).
    change (Pos.compare_cont Eq m2 m1) with (Pos.compare m2 m1).
    rewrite (Pos.compare_antisym m1 m2). now destruct (Pos.compare m1 m2).
Qed.

Lemma eqb_trans (x y z : float) :
  (x =? y)%float = true -> (y =? z)%float = true -> (x =? z)%float = true.
Proof.
  rewrite !FloatAxioms.eqb_spec. intros H1 H2.
  apply SFeqb_cases in H1, H2.
  destruct H1 as [(s1 & s2 & Hx & Hy) | [Hxy Hx]];
    destruct H2 as [(s3 & s4 & Hy' & Hz) | [Hyz Hy']].
  - rewrite Hx, Hz. reflexivity.
  - rewrite Hx, <- Hyz, Hy. reflexivity.
  - rewrite Hxy, Hy', Hz. reflexivity.
  - rewrite <- Hyz, <- Hxy.
    destruct (Prim2SF x) as [s | s | | s m e]; try congruence; simpl.
    + reflexivity.
    + now destruct s.
    + unfold SFeqb. rewrite SFcompare_refl by congruence. reflexivity.
Qed.
Lemma is_finite_cases (k : float) :
  is_finite k = true ->
  (exists s, Prim2SF k = S754_zero s)
  \/ (exists s m e, Prim2SF k = S754_finite s m e).
Proof.
  unfold is_finite. rewrite negb_true_iff, orb_false_iff. intros [Hn Hi].
  unfold Prim2SF. rewrite Hn.
  destruct (PrimFloat.is_zero k); [left; eauto |].
  rewrite Hi.
  destruct (Z.frexp k) as [r ex].
  destruct (shr_fexp prec emax (to_Z (normfr_mantissa r)) (ex - prec) loc_Exact)
    as [sh e'].
  destruct (shr_m sh); [left | right | left]; eauto.
Qed.

(** With a finite threshold and a zero deviation the two bounds are the
    mean, and a temperature equal to the mean lies between them. *)
Lemma between_collapsed_bounds (k mean std cur : float) :
  is_finite k = true ->
  (std =? 0)%float = true ->
  (cur =? mean)%float = true ->
  ((mean - k * std <=? cur) && (cur <=? mean + k * std))%float = true.
Proof.
  intros Hk Hstd Hcur.
  apply eqb_zero in Hstd. destruct Hstd as [s Hs].
  assert (Hz : exists s', Prim2SF (k * std) = S754_zero s').
  { rewrite FloatAxioms.mul_spec, Hs.
    destruct (is_finite_cases k Hk) as [[sk ->] | (sk & m & e & ->)];
      simpl; eauto. }
  destruct Hz as [s' Hz].
  rewrite !FloatAxioms.leb_spec, FloatAxioms.sub_spec, FloatAxioms.add_spec, Hz.
  rewrite FloatAxioms.eqb_spec in Hcur.
  apply SFeqb_cases in Hcur.
  destruct Hcur as [(s1 & s2 & -> & ->) | [-> Hn]].
  - destruct s2, s'; reflexivity.
  - unfold SFleb.
    destruct (Prim2SF mean) as [sm | sm | | sm m e] eqn:E; try congruence.
    + destruct sm, s'; reflexivity.
    + destruct sm; reflexivity.
    + unfold SF64sub, SF64add, SFsub, SFadd.
      rewrite SFcompare_refl by congruence. reflexivity.
Qed.
End FloatFacts.

(** ** Facts on the stable sort *)

Section SortFacts.
Context {A : Type}.
Variable le : A -> A -> bool.

Lemma insert_perm (x : A) (l : list A) : Permutation (insert le x l) (x :: l).
Proof.
  induction l as [| y l IH]; simpl.
  - reflexivity.
  - destruct (le x y).
    + reflexivity.
    + rewrite IH. apply perm_swap.
Qed.

Lemma sort_perm (l : list A) : Permutation (sort le l) l.
Proof.
  induction l as [| x l IH]; simpl.
  - reflexivity.
  - rewrite insert_perm. now constructor.
Qed.

Lemma sort_length (l : list A) : List.length (sort le l) = List.length l.
Proof. apply Permutation_length, sort_perm. Qed.

Lemma sort_map {B : Type} (f : B -> A) (l : list B) :
  map f (sort (fun x y => le (f x) (f y)) l) = sort le (map f l).
Proof.
  induction l as [| x l IH]; simpl; [reflexivity |].
  rewrite <- IH. generalize (sort (fun x y => le (f x) (f y)) l) as r.
  induction r as [| y r IHr]; simpl; [reflexivity |].
  destruct (le (f x) (f y)); simpl; [reflexivity | now rewrite IHr].
Qed.

Hypothesis le_total : forall x y, le x y = true \/ le y x = true.
Hypothesis le_trans : forall x y z, le x y = true -> le y z = true -> le x z = true.

Lemma insert_sorted (x : A) (l : list A) :
  StronglySorted (fun a b => le a b = true) l ->
  StronglySorted (fun a b => le a b = true) (insert le x l).
Proof.
  induction 1 as [| y l Hs IH Hy]; simpl.
  - repeat constructor.
  - destruct (le x y) eqn:E.
    + constructor; [now constructor |].
      constructor; [assumption |].
      rewrite Forall_forall in *. intros z Hz. eauto.
    + constructor; [assumption |].
      rewrite Forall_forall in *. intros z Hz.
      apply (Permutation_in _ (insert_perm x l)) in Hz.
      destruct Hz as [<- | Hz]; [| auto].
      destruct (le_total x y); congruence.
Qed.

Lemma sort_sorted (l : list A) :
  StronglySorted (fun a b => le a b = true) (sort le l).
Proof.
  induction l as [| x l IH]; simpl; [constructor | now apply insert_sorted].
Qed.

(** Stability: the elements equivalent to a given one keep their order. *)
Lemma insert_stable (k x : A) (l : list A) :
  filter (fun y => le y k && le k y) (insert le x l)
  = filter (fun y => le y k && le k y) (x :: l).
Proof.
  induction l as [| y l IH]; [reflexivity |].
  cbn [insert]. destruct (le x y) eqn:E; [reflexivity |].
  cbn [filter] in *. rewrite IH.
  destruct (le x k && le k x) eqn:Ex; [| reflexivity].
  destruct (le y k && le k y) eqn:Ey; [| reflexivity].
  apply andb_prop in Ex, Ey. destruct Ex as [Hxk _], Ey as [_ Hky].
  rewrite (le_trans _ _ _ Hxk Hky) in E. discriminate.
Qed.

Lemma sort_stable (k : A) (l : list A) :
  filter (fun y => le y k && le k y) (sort le l)
  = filter (fun y => le y k && le k y) l.
Proof.
  induction l as [| x l IH]; [reflexivity |].
  cbn [sort]. rewrite insert_stable. cbn [filter]. now rewrite IH.
Qed.
End SortFacts.

Lemma StronglySorted_map {A B : Type} (f : A -> B) (R : B -> B -> Prop) (l : list A) :
  StronglySorted R (map f l) <-> StronglySorted (fun x y => R (f x) (f y)) l.
Proof.
  induction l as [| x l IH]; simpl.
  - split; constructor.
  - split; intros H; inversion H as [| ? ? Hs Hx]; subst; constructor;
      try (apply IH; assumption); rewrite Forall_forall in *.
    + intros y Hy. apply Hx, in_map, Hy.
    + intros y Hy. apply in_map_iff in Hy. destruct Hy as (z & <- & Hz). auto.
Qed.

(** A sort leaves a sorted list as it is. *)
Lemma sort_sorted_id {A : Type} (le : A -> A -> bool) (l : list A) :
  StronglySorted (fun a b => le a b = true) l -> sort le l = l.
Proof.
  induction 1 as [| x l Hs IH Hx]; simpl; [reflexivity |].
  rewrite IH. destruct l as [| y l]; [reflexivity |]. simpl.
  inversion Hx as [| ? ? Hxy _]; subst. now rewrite Hxy.
Qed.

(** A sort under a comparison that need not be an order: the result is
    sorted for every transitive relation the comparison decides. *)
Section SortUnderComparison.
Context {A : Type}.
Variable before : A -> A -> bool.
Variable R : A -> A -> Prop.
Hypothesis before_R : forall x y, before x y = true -> R x y.
Hypothesis not_before_R : forall x y, before x y = false -> R y x.
Hypothesis R_trans : forall x y z, R x y -> R y z -> R x z.

Lemma insert_sorted_by (x : A) (l : list A) :
  StronglySorted R l -> StronglySorted R (insert before x l).
Proof.
  induction 1 as [| y l Hs IH Hy]; simpl.
  - repeat constructor.
  - destruct (before x y) eqn:E.
    + constructor; [now constructor |].
      constructor; [now apply before_R |].
      rewrite Forall_forall in *. intros z Hz. eauto.
    + constructor; [assumption |].
      rewrite Forall_forall in *. intros z Hz.
      apply (Permutation_in _ (insert_perm before x l)) in Hz.
      destruct Hz as [<- | Hz]; [now apply not_before_R | auto].
Qed.

Lemma sort_sorted_by (l : list A) : StronglySorted R (sort before l).
Proof.
  induction l as [| x l IH]; simpl; [constructor | now apply insert_sorted_by].
Qed.
End SortUnderComparison.

(** ** Facts on the sort of a single key *)

Lemma time_le_total (a b : option Z) : time_le a b = true \/ time_le b a = true.
Proof.
  destruct a as [x |], b as [y |]; simpl; auto.
  destruct (Z.leb_spec x y), (Z.leb_spec y x); auto; lia.
Qed.

Lemma time_le_trans (a b c : option Z) :
  time_le a b = true -> time_le b c = true -> time_le a c = true.
Proof.
  destruct a as [x |], b as [y |], c as [z |]; simpl; try congruence.
  rewrite !Z.leb_le. lia.
Qed.

Lemma take_rows_map {A B : Type} (f : A -> B) (l : list A) (indexer : list nat) :
  map f (take_rows l indexer) = take_rows (map f l) indexer.
Proof.
  unfold take_rows. induction indexer as [| i indexer IH]; [reflexivity |].
  cbn [flat_map]. rewrite map_app, IH, nth_error_map.
  now destruct (nth_error l i).
Qed.

Lemma take_rows_seq {A : Type} (pre l : list A) :
  take_rows (pre ++ l) (seq (List.length pre) (List.length l)) = l.
Proof.
  revert pre. induction l as [| x l IH]; intros pre; [reflexivity |].
  cbn [List.length seq]. unfold take_rows. cbn [flat_map].
  rewrite nth_error_app2, Nat.sub_diag by lia. cbn [nth_error app]. f_equal.
  specialize (IH (pre ++ [x])). rewrite <- app_assoc, length_app in IH.
  cbn [List.length app] in IH. rewrite Nat.add_1_r in IH. exact IH.
Qed.

Lemma take_rows_all {A : Type} (l : list A) :
  take_rows l (seq 0 (List.length l)) = l.
Proof. exact (take_rows_seq [] l). Qed.

Lemma take_rows_perm {A : Type} (l : list A) (indexer : list nat) :
  Permutation indexer (seq 0 (List.length l)) -> Permutation (take_rows l indexer) l.
Proof.
  intros H. rewrite <- (take_rows_all l) at 2.
  unfold take_rows. now apply Permutation_flat_map.
Qed.

Lemma take_rows_nth {A : Type} (d : A) (l : list A) (indexer : list nat) :
  Forall (fun i => i < List.length l) indexer ->
  take_rows l indexer = map (fun i => nth i l d) indexer.
Proof.
  unfold take_rows. induction 1 as [| i indexer Hi _ IH]; [reflexivity |].
  cbn [flat_map map]. rewrite IH.
  apply nth_error_Some in Hi.
  destruct (nth_error l i) as [x |] eqn:E; [| congruence].
  now rewrite (nth_error_nth _ _ d E).
Qed.

Lemma StronglySorted_nth {A : Type} (R : A -> A -> Prop) (l : list A) (d : A) (a b : nat) :
  StronglySorted R l -> a < b < List.length l -> R (nth a l d) (nth b l d).
Proof.
  intros Hs. revert a b. induction Hs as [| x l Hs IH Hx]; intros a b Hab; simpl in *.
  - lia.
  - destruct b as [| b]; [lia |]. destruct a as [| a].
    + rewrite Forall_forall in Hx. apply Hx, nth_In. lia.
    + apply IH. lia.
Qed.

Lemma StronglySorted_seq (P : nat -> nat -> Prop) (a n : nat) :
  (forall i j, a <= i -> i < j -> j < a + n -> P i j) ->
  StronglySorted P (seq a n).
Proof.
  revert a. induction n as [| n IH]; intros a H; [constructor |].
  cbn [seq]. constructor.
  - apply IH. intros i j Hi Hij Hj. apply H; lia.
  - apply Forall_forall. intros j Hj. apply in_seq in Hj. apply H; lia.
Qed.

Section SingleKey.
Context {pandas : Pandas}.

Lemma argsort_perm (keys : list (option Z)) :
  Permutation (argsort keys) (seq 0 (List.length keys)).
Proof. apply sort_perm. Qed.

Lemma argsort_range (keys : list (option Z)) :
  Forall (fun i => i < List.length keys) (argsort keys).
Proof.
  apply Forall_forall. intros i Hi.
  apply (Permutation_in _ (argsort_perm keys)), in_seq in Hi. lia.
Qed.

Lemma position_before_le (keys : list (option Z)) (i j : nat) :
  position_before keys i j = true ->
  time_le (nth i keys None) (nth j keys None) = true.
Proof.
  unfold position_before, time_le.
  destruct (nth i keys None) as [x |], (nth j keys None) as [y |]; try easy.
  destruct (Z.ltb_spec x y); [intros _; apply Z.leb_le; lia |].
  destruct (Z.ltb_spec y x); [discriminate |]. intros _. apply Z.leb_le. lia.
Qed.

Lemma position_before_ge (keys : list (option Z)) (i j : nat) :
  position_before keys i j = false ->
  time_le (nth j keys None) (nth i keys None) = true.
Proof.
  unfold position_before, time_le.
  destruct (nth i keys None) as [x |], (nth j keys None) as [y |]; try easy.
  destruct (Z.ltb_spec x y); [discriminate |]. intros _. apply Z.leb_le. lia.
Qed.

Lemma position_before_lt (keys : list (option Z)) (i j : nat) :
  time_le (nth i keys None) (nth j keys None) = true ->
  time_le (nth j keys None) (nth i keys None) = false ->
  position_before keys i j = true.
Proof.
  unfold position_before, time_le.
  destruct (nth i keys None) as [x |], (nth j keys None) as [y |]; try easy.
  intros H1 H2. apply Z.leb_le in H1. apply Z.leb_gt in H2.
  destruct (Z.ltb_spec x y); [reflexivity | lia].
Qed.

(** The sorted positions hold keys in ascending order, missing keys last. *)
Lemma argsort_sorted (keys : list (option Z)) :
  StronglySorted
    (fun i j => time_le (nth i keys None) (nth j keys None) = true)
    (argsort keys).
Proof.
  apply (sort_sorted_by (position_before keys)).
  - apply position_before_le.
  - apply position_before_ge.
  - intros x y z. apply time_le_trans.
Qed.

(** The sort leaves a column of strictly ascending keys as it is. *)
Lemma argsort_id (keys : list (option Z)) :
  StronglySorted (fun a b => time_le a b = true /\ time_le b a = false) keys ->
  argsort keys = seq 0 (List.length keys).
Proof.
  intros Hs. apply sort_sorted_id, StronglySorted_seq.
  intros i j _ Hij Hj.
  destruct (StronglySorted_nth _ keys None i j Hs (conj Hij Hj)) as [H1 H2].
  now apply position_before_lt.
Qed.

Lemma sort_by_timestamp_perm (city_df : list Observation) :
  Permutation (sort_by_timestamp city_df) city_df.
Proof.
  apply take_rows_perm. rewrite <- (length_map timestamp). apply argsort_perm.
Qed.

Lemma sort_by_timestamp_sorted (city_df : list Observation) :
  StronglySorted (fun a b => time_le (timestamp a) (timestamp b) = true)
                 (sort_by_timestamp city_df).
Proof.
  apply (StronglySorted_map timestamp (fun a b => time_le a b = true)).
  unfold sort_by_timestamp. rewrite take_rows_map.
  rewrite (take_rows_nth None) by apply argsort_range.
  apply (StronglySorted_map (fun i => nth i (map timestamp city_df) None)
           (fun a b => time_le a b = true)).
  apply argsort_sorted.
Qed.

Lemma sort_by_timestamp_id (city_df : list Observation) :
  StronglySorted
    (fun o1 o2 => time_le (timestamp o1) (timestamp o2) = true
                  /\ time_le (timestamp o2) (timestamp o1) = false) city_df ->
  sort_by_timestamp city_df = city_df.
Proof.
  intros Hs. unfold sort_by_timestamp. rewrite argsort_id.
  - rewrite length_map. apply take_rows_all.
  - now apply (StronglySorted_map timestamp
                 (fun a b => time_le a b = true /\ time_le b a = false)).
Qed.

Lemma sort_rows_perm (city_df : list (nat * Observation)) :
  Permutation (sort_rows_by_timestamp city_df) city_df.
Proof.
  apply take_rows_perm.
  rewrite <- (length_map (fun p => timestamp (snd p))). apply argsort_perm.
Qed.

(** The rows of a sorted frame are those of the sort of the rows without
    their labels. *)
Lemma sort_rows_snd (city_df : list (nat * Observation)) :
  map snd (sort_rows_by_timestamp city_df) = sort_by_timestamp (map snd city_df).
Proof.
  unfold sort_rows_by_timestamp, sort_by_timestamp.
  now rewrite take_rows_map, map_map.
Qed.

End SingleKey.

(** ** Facts on lists: distinct values and groups *)

Lemma unique_In (l : list string) (x : string) : In x (Series.unique l) <-> In x l.
Proof.
  induction l as [| a l IH]; simpl; [tauto |].
  rewrite filter_In, IH, negb_true_iff, String.eqb_neq.
  destruct (String.eqb_spec x a) as [-> | Hne]; intuition congruence.
Qed.

Lemma unique_NoDup (l : list string) : NoDup (Series.unique l).
Proof.
  induction l as [| a l IH]; simpl; constructor.
  - rewrite filter_In, String.eqb_refl. intros [_ H]. discriminate.
  - now apply NoDup_filter.
Qed.

Lemma flat_map_nil {A B : Type} (l : list A) : flat_map (fun _ : A => @nil B) l = [].
Proof. induction l; simpl; auto. Qed.

Lemma flat_map_app_perm {A B : Type} (g h : A -> list B) (l : list A) :
  Permutation (flat_map (fun x => g x ++ h x) l) (flat_map g l ++ flat_map h l).
Proof.
  induction l as [| a l IH]; simpl; [reflexivity |].
  rewrite IH, <- !app_assoc. apply Permutation_app_head.
  rewrite !app_assoc. apply Permutation_app_tail, Permutation_app_comm.
Qed.

Lemma flat_map_single {B : Type} (k : string) (x : B) (ks : list string) :
  NoDup ks -> In k ks ->
  flat_map (fun s => if String.eqb k s then [x] else []) ks = [x].
Proof.
  induction 1 as [| a ks Ha Hnd IH]; simpl; [tauto |].
  intros [-> | Hin].
  - rewrite String.eqb_refl. simpl. f_equal.
    clear IH Hnd. induction ks as [| b ks IH]; simpl; [reflexivity |].
    destruct (String.eqb_spec k b) as [-> | _].
    + exfalso. apply Ha. now left.
    + apply IH. intros H. apply Ha. now right.
  - destruct (String.eqb_spec k a) as [-> | _]; [contradiction |].
    simpl. now apply IH.
Qed.

(** Grouping by a key loses and repeats nothing. *)
Lemma groups_perm {A : Type} (key : A -> string) (ks : list string) (l : list A) :
  NoDup ks -> (forall x, In x l -> In (key x) ks) ->
  Permutation (flat_map (fun s => filter (fun r => String.eqb (key r) s) l) ks) l.
Proof.
  intros Hnd. induction l as [| x l IH]; intros Hin.
  - simpl. now rewrite flat_map_nil.
  - transitivity
      (flat_map (fun s => (if String.eqb (key x) s then [x] else [])
                          ++ filter (fun r => String.eqb (key r) s) l) ks).
    + apply Permutation_refl'. apply flat_map_ext. intros s. simpl.
      now destruct (String.eqb (key x) s).
    + rewrite flat_map_app_perm, flat_map_single by (auto; apply Hin; now left).
      simpl. constructor. apply IH. intros y Hy. apply Hin. now right.
Qed.

Lemma filter_none {A : Type} (p : A -> bool) (l : list A) :
  (forall x, In x l -> p x = false) -> filter p l = [].
Proof.
  induction l as [| x l IH]; simpl; intros H; [reflexivity |].
  rewrite (H x) by now left. apply IH. intros y Hy. apply H. now right.
Qed.

Lemma filter_filter_comm {A : Type} (p q : A -> bool) (l : list A) :
  filter p (filter q l) = filter q (filter p l).
Proof.
  induction l as [| x l IH]; simpl; [reflexivity |].
  destruct (p x) eqn:P, (q x) eqn:Q; simpl; rewrite ?P, ?Q, IH; reflexivity.
Qed.

Lemma filter_perm_length {A : Type} (p : A -> bool) (l l' : list A) :
  Permutation l l' -> List.length (filter p l) = List.length (filter p l').
Proof.
  induction 1; simpl; repeat destruct (p _); simpl; congruence.
Qed.

(** ** The loop of the rolling mean *)

Lemma roll_loop_length (values : list float) (w : nat) (minp : Z)
  (indices : list nat) (st : Series.MeanState) :
  List.length (Series.roll_loop values w minp indices st) = List.length indices.
Proof.
  revert st. induction indices as [| i indices IH]; intros st; simpl;
    [reflexivity | now rewrite IH].
Qed.

Lemma roll_mean_length (values : list float) (w : nat) (minp : Z) :
  List.length (Series.roll_mean values w minp) = List.length values.
Proof. unfold Series.roll_mean. now rewrite roll_loop_length, length_seq. Qed.

Lemma prep_values_length (l : list float) :
  List.length (Series.prep_values l) = List.length l.
Proof. apply length_map. Qed.

(** ** The analyser *)

Section AnalysisFacts.
Context {pandas : Pandas}.
Variable SEASON_MAPPING : list (string * string).
Variable ANOMALY_THRESHOLD : float.
Variable ROLLING_WINDOW : nat.
Variable str_lower : string -> string.

Local Abbreviation analyze :=
    (analyze_city_data SEASON_MAPPING ANOMALY_THRESHOLD ROLLING_WINDOW str_lower).
Local Abbreviation K := ANOMALY_THRESHOLD.

Lemma with_rolling_mean_obs (l : list Observation) (r : list float) :
    List.length r = List.length l -> map obs (with_rolling_mean l r) = l.
  Proof.
    unfold with_rolling_mean. revert r.
    induction l as [| x l IH]; intros [| y r] H; simpl in *; try discriminate; auto.
    f_equal. apply IH. lia.
  Qed.

Lemma with_rolling_mean_col (l : list Observation) (r : list float) :
    List.length r = List.length l -> map rolling_mean (with_rolling_mean l r) = r.
  Proof.
    unfold with_rolling_mean. revert r.
    induction l as [| x l IH]; intros [| y r] H; simpl in *; try discriminate; auto.
    f_equal. apply IH. lia.
  Qed.

Lemma anomalies_loop_concat (city_df : list EnrichedObservation) :
    match anomalies_loop K city_df with
    | [] => []
    | _ :: _ => List.concat (anomalies_loop K city_df)
    end
    = flat_map (season_anomalies K city_df) (Series.unique (map season_of city_df)).
  Proof.
    transitivity (List.concat (anomalies_loop K city_df)).
    { now destruct (anomalies_loop K city_df). }
    unfold anomalies_loop.
    generalize (Series.unique (map season_of city_df)) as ks.
    assert (G : forall (ks : list string) (acc : list (list Anomaly)),
               List.concat
                 (fold_left
                    (fun anomalies_list s =>
                       if Nat.ltb 0 (List.length (season_anomalies K city_df s))
                       then anomalies_list ++ [season_anomalies K city_df s]
                       else anomalies_list) ks acc)
               = List.concat acc ++ flat_map (season_anomalies K city_df) ks).
    { induction ks as [| k ks IH]; intros acc; simpl.
      - now rewrite app_nil_r.
      - rewrite IH. destruct (season_anomalies K city_df k) as [| a r] eqn:E; simpl.
        + reflexivity.
        + rewrite concat_app. simpl. now rewrite app_nil_r, <- app_assoc. }
    intros ks. now rewrite G.
  Qed.

  (** What a successful call returns, as functions of the sorted series. *)
Lemma analyze_inv (city_df : list Observation) e s a :
    analyze city_df = Ok (e, s, a) ->
    let sorted := sort_by_timestamp city_df in
    let temps := map temperature sorted in
    1 <= ROLLING_WINDOW
    /\ e = with_rolling_mean sorted
             (Series.roll_mean (Series.prep_values temps) ROLLING_WINDOW 1)
    /\ s = map (with_season_ru SEASON_MAPPING str_lower) (groupby_season_agg e)
    /\ a = flat_map (season_anomalies K e) (Series.unique (map season_of e)).
  Proof.
    unfold analyze_city_data, Series.rolling_mean.
    destruct (Nat.ltb_spec ROLLING_WINDOW 1) as [Hw | Hw]; simpl; [discriminate |].
    rewrite anomalies_loop_concat. intros H. injection H as <- <- <-.
    repeat split; auto.
  Qed.

Lemma analyze_ok (city_df : list Observation) :
    1 <= ROLLING_WINDOW -> exists e s a, analyze city_df = Ok (e, s, a).
  Proof.
    intros Hw. unfold analyze_city_data, Series.rolling_mean.
    destruct (Nat.ltb_spec ROLLING_WINDOW 1) as [Hw' | _]; [lia |].
    simpl. eauto.
  Qed.

Lemma analyze_obs (city_df : list Observation) e s a :
    analyze city_df = Ok (e, s, a) -> map obs e = sort_by_timestamp city_df.
  Proof.
    intros H. apply analyze_inv in H. destruct H as (_ & -> & _).
    apply with_rolling_mean_obs.
    now rewrite roll_mean_length, prep_values_length, length_map.
  Qed.

Lemma analyze_perm (city_df : list Observation) e s a :
    analyze city_df = Ok (e, s, a) -> Permutation (map obs e) city_df.
  Proof.
    intros H. rewrite (analyze_obs _ _ _ _ H). apply sort_by_timestamp_perm.
  Qed.

End AnalysisFacts.

Section AnomalyFacts.
Context {pandas : Pandas}.
Variable SEASON_MAPPING : list (string * string).
Variable ANOMALY_THRESHOLD : float.
Variable ROLLING_WINDOW : nat.
Variable str_lower : string -> string.

Local Abbreviation analyze :=
  (analyze_city_data SEASON_MAPPING ANOMALY_THRESHOLD ROLLING_WINDOW str_lower).
Local Abbreviation K := ANOMALY_THRESHOLD.

Lemma map_flat_map {A B C : Type} (f : B -> C) (g : A -> list B) (l : list A) :
  map f (flat_map g l) = flat_map (fun x => map f (g x)) l.
Proof.
  induction l as [| x l IH]; simpl; [reflexivity |].
  now rewrite map_app, IH.
Qed.

Lemma season_data_In (e : list EnrichedObservation) (s : string) r :
  In r (season_data e s) <-> In r e /\ season_of r = s.
Proof. unfold season_data. now rewrite filter_In, String.eqb_eq. Qed.

(** The flagged rows of one season are the rows of the season that lie
    outside the bounds of their own season. *)
Lemma season_anomalies_rows (e : list EnrichedObservation) (s : string) :
  map a_row (season_anomalies K e s)
  = filter (fun r => String.eqb (season_of r) s) (filter (is_anomalous K e) e).
Proof.
  unfold season_anomalies, anomaly_columns, outside.
  rewrite map_map, map_id. cbn [a_row].
  rewrite filter_filter_comm. unfold season_data at 1.
  apply filter_ext_in. intros r Hr. apply filter_In in Hr. destruct Hr as [_ Hr].
  apply String.eqb_eq in Hr. unfold is_anomalous, season_lower_bound, season_upper_bound.
  now rewrite Hr.
Qed.

Lemma anomalies_perm (e : list EnrichedObservation) :
  Permutation
    (map a_row (flat_map (season_anomalies K e) (Series.unique (map season_of e))))
    (filter (is_anomalous K e) e).
Proof.
  rewrite map_flat_map.
  rewrite (flat_map_ext _ _ (season_anomalies_rows e)).
  apply (groups_perm season_of).
  - apply unique_NoDup.
  - intros r Hr. apply unique_In, in_map. apply filter_In in Hr. tauto.
Qed.

Lemma season_anomalies_fields (e : list EnrichedObservation) (s : string) x :
  In x (season_anomalies K e s) ->
  In (a_row x) e
  /\ season_of (a_row x) = s
  /\ is_anomalous K e (a_row x) = true
  /\ lower_bound x = season_lower_bound K e s
  /\ upper_bound x = season_upper_bound K e s
  /\ deviation x = (temp (a_row x) - Series.mean nanmean (map temp (season_data e s)))%float.
Proof.
  unfold season_anomalies, anomaly_columns, outside. rewrite in_map_iff.
  intros (r & <- & Hr). cbn [a_row lower_bound upper_bound deviation].
  apply filter_In in Hr. destruct Hr as [Hr Hout].
  apply season_data_In in Hr. destruct Hr as [Hr Hs].
  unfold is_anomalous, season_lower_bound, season_upper_bound. rewrite Hs.
  repeat split; auto.
Qed.

(** Fewer than two present values have no deviation. *)
Lemma std_few (kernel : list float -> float) (l : list float) :
  Series.count l <= 1 -> Series.std kernel l = nan.
Proof.
  unfold Series.std. intros H.
  destruct (Nat.leb_spec (Series.count l) 1); [reflexivity | lia].
Qed.

(** With an undefined deviation no comparison with the bounds holds. *)
Lemma undefined_std_not_anomalous (e : list EnrichedObservation) r :
  Series.std nanstd (map temp (season_data e (season_of r))) = nan ->
  is_anomalous K e r = false.
Proof.
  intros Hstd. unfold is_anomalous, season_lower_bound, season_upper_bound.
  rewrite Hstd, FloatFacts.mul_nan_r, FloatFacts.sub_nan_r, FloatFacts.add_nan_r.
  now rewrite FloatFacts.ltb_nan_r, FloatFacts.ltb_nan_l.
Qed.

(** What the anomalies of a result are. *)
Lemma anomalies_of_a_result
  (city_df : list Observation) e s a :
  analyze city_df = Ok (e, s, a) ->
  Permutation (map obs e) city_df
  /\ Permutation (map a_row a) (filter (is_anomalous K e) e)
  /\ (forall x, In x a ->
        lower_bound x = season_lower_bound K e (season_of (a_row x))
        /\ upper_bound x = season_upper_bound K e (season_of (a_row x))
        /\ deviation x
           = (temp (a_row x)
              - Series.mean nanmean (map temp (season_data e (season_of (a_row x)))))%float)
  /\ (forall x, In x a -> In (obs (a_row x)) city_df)
  /\ List.length a <= List.length city_df.
Proof.
  intros H. pose proof (analyze_perm _ _ _ _ _ _ _ _ H) as Hperm.
  apply analyze_inv in H. destruct H as (_ & _ & _ & Ha).
  pose proof (anomalies_perm e) as Hrows. rewrite <- Ha in Hrows.
  assert (Hin : forall x, In x a -> In (a_row x) e).
  { intros x Hx. apply (in_map a_row) in Hx.
    apply (Permutation_in _ Hrows), filter_In in Hx. tauto. }
  repeat split.
  - assumption.
  - assumption.
  - rewrite Ha in H. apply in_flat_map in H. destruct H as (k & _ & Hx).
    apply season_anomalies_fields in Hx. destruct Hx as (_ & <- & _ & -> & _). reflexivity.
  - rewrite Ha in H. apply in_flat_map in H. destruct H as (k & _ & Hx).
    apply season_anomalies_fields in Hx.
    destruct Hx as (_ & <- & _ & _ & -> & _). reflexivity.
  - rewrite Ha in H. apply in_flat_map in H. destruct H as (k & _ & Hx).
    apply season_anomalies_fields in Hx.
    destruct Hx as (_ & <- & _ & _ & _ & ->). reflexivity.
  - intros x Hx. apply (Permutation_in _ Hperm), in_map, Hin, Hx.
  - rewrite <- (length_map a_row a), (Permutation_length Hrows).
    rewrite <- (Permutation_length Hperm), length_map. apply filter_length_le.
Qed.

(** C1. For a window of at least one observation the analyser returns, and
    the anomaly set holds exactly the observations whose temperature is
    strictly below [mean - k*std] or strictly above [mean + k*std] of their
    own season, the mean and the sample deviation being the values pandas
    gives for the temperatures of the season in the series; a season with
    fewer than two temperatures has no deviation and none of its rows is
    flagged; every flagged row carries the season's two bounds, lies
    strictly outside them and has [deviation = temperature - mean]; the
    set is drawn from the input and is no larger than it. *)
Theorem anomalies_are_the_rows_outside_their_season_bounds
  (city_df : list Observation) :
  1 <= ROLLING_WINDOW ->
  exists e s a,
    analyze city_df = Ok (e, s, a)
    /\ Permutation (map obs e) city_df
    /\ Permutation (map a_row a) (filter (is_anomalous K e) e)
    /\ (forall r, In r e ->
          let temps := map temp (season_data e (season_of r)) in
          let mean := Series.mean nanmean temps in
          let std := Series.std nanstd temps in
          (In r (map a_row a)
           <-> (temp r <? mean - K * std)%float = true
               \/ (mean + K * std <? temp r)%float = true)
          /\ (Series.count temps <= 1 -> ~ In r (map a_row a)))
    /\ (forall x, In x a ->
          let temps := map temp (season_data e (season_of (a_row x))) in
          let mean := Series.mean nanmean temps in
          let std := Series.std nanstd temps in
          lower_bound x = (mean - K * std)%float
          /\ upper_bound x = (mean + K * std)%float
          /\ deviation x = (temp (a_row x) - mean)%float
          /\ ((temp (a_row x) <? lower_bound x)%float = true
              \/ (upper_bound x <? temp (a_row x))%float = true))
    /\ (forall x, In x a -> In (obs (a_row x)) city_df)
    /\ List.length a <= List.length city_df.
Proof.
  intros Hw.
  destruct (analyze_ok SEASON_MAPPING K ROLLING_WINDOW str_lower city_df Hw)
    as (e & s & a & H).
  exists e, s, a. split; [exact H |].
  destruct (anomalies_of_a_result city_df e s a H)
    as (Hperm & Hrows & Hfields & Hin & Hlen).
  assert (Hflag : forall r, In r (map a_row a) <-> In r e /\ is_anomalous K e r = true).
  { intros r. rewrite <- filter_In.
    split; apply Permutation_in; [| apply Permutation_sym]; exact Hrows. }
  split; [exact Hperm |]. split; [exact Hrows |].
  split; [| split; [| split; [exact Hin | exact Hlen]]].
  - intros r Hr temps mean std. split.
    + rewrite Hflag. unfold is_anomalous, season_lower_bound, season_upper_bound.
      rewrite orb_true_iff. tauto.
    + intros Hfew Hflagged. apply Hflag in Hflagged. destruct Hflagged as [_ Hout].
      rewrite undefined_std_not_anomalous in Hout; [discriminate |].
      now apply std_few.
  - intros x Hx temps mean std.
    destruct (Hfields x Hx) as (Hl & Hu & Hd).
    assert (Hout : is_anomalous K e (a_row x) = true).
    { apply (Hflag (a_row x)), in_map, Hx. }
    unfold is_anomalous in Hout. rewrite <- Hl, <- Hu in Hout.
    apply orb_true_iff in Hout.
    repeat split; assumption.
Qed.

End AnomalyFacts.

Lemma anomalies_are_the_rows_outside_their_season_bounds_witness :
  1 <= sample_window
  /\ exists e s a,
       sample_analyze sample_city = Ok (e, s, a)
       /\ Permutation (map a_row a)
            (filter (is_anomalous (pandas := sample_pandas) sample_threshold e) e)
       /\ List.length a <= List.length sample_city.
Proof.
  assert (Hw : 1 <= sample_window) by (unfold sample_window; lia).
  split; [exact Hw |].
  destruct (anomalies_are_the_rows_outside_their_season_bounds
              (pandas := sample_pandas)
              sample_mapping sample_threshold sample_window ascii_str_lower
              sample_city Hw) as (e & s & a & H & _ & Hrows & _ & _ & _ & Hlen).
  exists e, s, a. repeat split; assumption.
Defined.

(** ** The rolling mean *)

(** The value at position [k] of the loop is computed from the state after
    the turns up to [k]. *)
Lemma roll_loop_nth (values : list float) (w : nat) (minp : Z) :
  forall (n a : nat) (st : Series.MeanState) (k : nat),
    k < n ->
    nth k (Series.roll_loop values w minp (seq a n) st) nan
    = Series.calc_mean minp (fold_left (Series.roll_window values w) (seq a (S k)) st).
Proof.
  induction n as [| n IH]; intros a st k Hk; [lia |].
  destruct k as [| k]; [reflexivity |].
  cbn [seq Series.roll_loop nth]. rewrite IH by lia. reflexivity.
Qed.

Lemma roll_mean_nth (values : list float) (w : nat) (minp : Z) (i : nat) :
  i < List.length values ->
  nth i (Series.roll_mean values w minp) nan
  = Series.calc_mean minp (roll_state values w i).
Proof. intros Hi. unfold Series.roll_mean, roll_state. now apply roll_loop_nth. Qed.

Lemma present_between_split (values : list float) (a n m : nat) :
  present_between values a (n + m)
  = present_between values a n + present_between values (a + n) m.
Proof.
  unfold present_between. now rewrite seq_app, filter_app, length_app.
Qed.

Lemma add_fold_nobs (values : list float) (l : list nat) (st : Series.MeanState) :
  Series.nobs (fold_left (fun st j => Series.add_mean (nth j values nan) st) l st)
  = (Series.nobs st
     + Z.of_nat (List.length
                   (filter (fun j => (nth j values nan =? nth j values nan)%float) l)))%Z.
Proof.
  revert st. induction l as [| j l IH]; intros st; cbn [fold_left filter].
  - simpl. lia.
  - rewrite IH. unfold Series.add_mean.
    destruct (nth j values nan =? nth j values nan)%float; cbn [Series.nobs List.length];
      lia.
Qed.

Lemma remove_fold_nobs (values : list float) (l : list nat) (st : Series.MeanState) :
  Series.nobs (fold_left (fun st j => Series.remove_mean (nth j values nan) st) l st)
  = (Series.nobs st
     - Z.of_nat (List.length
                   (filter (fun j => (nth j values nan =? nth j values nan)%float) l)))%Z.
Proof.
  revert st. induction l as [| j l IH]; intros st; cbn [fold_left filter].
  - simpl. lia.
  - rewrite IH. unfold Series.remove_mean.
    destruct (nth j values nan =? nth j values nan)%float; cbn [Series.nobs List.length];
      lia.
Qed.

(** The loop keeps, in [nobs], the number of present values of the window. *)
Lemma roll_state_nobs (values : list float) (w i : nat) :
  1 <= w ->
  Series.nobs (roll_state values w i)
  = Z.of_nat (present_between values (S i - w) (S i - (S i - w))).
Proof.
  intros Hw. induction i as [| i IH].
  - unfold roll_state. cbn [seq fold_left]. unfold Series.roll_window.
    cbn [Nat.eqb orb]. rewrite add_fold_nobs. reflexivity.
  - unfold roll_state in *. rewrite seq_S, fold_left_app. cbn [fold_left Nat.add].
    set (st := fold_left (Series.roll_window values w) (seq 0 (S i)) (Series.setup nan))
      in *.
    unfold Series.roll_window. cbn [Nat.eqb orb].
    destruct (Nat.leb_spec (S i) (S (S i) - w)) as [Hfresh | Hrun].
    + rewrite add_fold_nobs. reflexivity.
    + rewrite add_fold_nobs, remove_fold_nobs, IH.
      fold (present_between values (S i - w) (S (S i) - w - (S i - w))).
      fold (present_between values (S i) (S (S i) - S i)).
      pose proof (present_between_split values (S i - w)
                    (S (S i) - w - (S i - w)) (S i - (S (S i) - w))) as H1.
      pose proof (present_between_split values (S (S i) - w)
                    (S i - (S (S i) - w)) (S (S i) - S i)) as H2.
      replace (S (S i) - w - (S i - w) + (S i - (S (S i) - w)))
        with (S i - (S i - w)) in H1 by lia.
      replace (S i - w + (S (S i) - w - (S i - w))) with (S (S i) - w) in H1 by lia.
      replace (S i - (S (S i) - w) + (S (S i) - S i))
        with (S (S i) - (S (S i) - w)) in H2 by lia.
      replace (S (S i) - w + (S i - (S (S i) - w))) with (S i) in H2 by lia.
      lia.
Qed.

Lemma present_between_one (values : list float) (i : nat) :
  present_between values i 1
  = if (nth i values nan =? nth i values nan)%float then 1 else 0.
Proof.
  unfold present_between. cbn [seq filter].
  now destruct (nth i values nan =? nth i values nan)%float.
Qed.

Lemma add_mean_counts_runs (values : list float) (st : Series.MeanState) (lo i : nat) :
  lo <= i ->
  counts_runs values st lo i ->
  counts_runs values (Series.add_mean (nth i values nan) st) lo (S i).
Proof.
  intros Hlo [Hnum Hruns]. unfold Series.add_mean.
  destruct (nth i values nan =? nth i values nan)%float eqn:Ex.
  - split.
    + cbn [Series.num_consecutive_same_value].
      destruct (nth i values nan =? Series.prev_value st)%float; lia.
    + intros a v Ha Hall Hone.
      cbn [Series.num_consecutive_same_value Series.prev_value].
      destruct (Nat.eq_dec a (S i)) as [-> | Hne].
      { rewrite Nat.sub_diag in Hone. cbn in Hone. lia. }
      assert (Hxv : (nth i values nan =? v)%float = true).
      { apply Hall; [lia | exact Ex]. }
      split; [exact Hxv |].
      pose proof (present_between_split values a (i - a) 1) as Hsplit.
      replace (i - a + 1) with (S i - a) in Hsplit by lia.
      replace (a + (i - a)) with i in Hsplit by lia.
      rewrite present_between_one, Ex in Hsplit. rewrite Hsplit.
      destruct (Nat.eq_dec (present_between values a (i - a)) 0) as [-> | Hpos].
      * destruct (nth i values nan =? Series.prev_value st)%float; lia.
      * destruct (Hruns a v) as [Hprev Hle]; [lia | | lia |].
        { intros j Hj. apply Hall. lia. }
        rewrite (FloatFacts.eqb_trans _ v _ Hxv); [lia |].
        now rewrite FloatFacts.eqb_sym.
  - split; [exact Hnum |].
    intros a v Ha Hall Hone.
    destruct (Nat.eq_dec a (S i)) as [-> | Hne].
    { rewrite Nat.sub_diag in Hone. cbn in Hone. lia. }
    pose proof (present_between_split values a (i - a) 1) as Hsplit.
    replace (i - a + 1) with (S i - a) in Hsplit by lia.
    replace (a + (i - a)) with i in Hsplit by lia.
    rewrite present_between_one, Ex, Nat.add_0_r in Hsplit.
    rewrite Hsplit in *.
    apply Hruns; [lia | | exact Hone].
    intros j Hj. apply Hall. lia.
Qed.

Lemma remove_fold_runs (values : list float) (l : list nat) (st : Series.MeanState) :
  let st' := fold_left (fun st j => Series.remove_mean (nth j values nan) st) l st in
  Series.num_consecutive_same_value st' = Series.num_consecutive_same_value st
  /\ Series.prev_value st' = Series.prev_value st.
Proof.
  revert st. induction l as [| j l IH]; intros st; cbn [fold_left]; [now split |].
  destruct (IH (Series.remove_mean (nth j values nan) st)) as [-> ->].
  unfold Series.remove_mean.
  now destruct (nth j values nan =? nth j values nan)%float.
Qed.

Lemma counts_runs_ext (values : list float) (st st' : Series.MeanState) (lo lo' hi : nat) :
  Series.num_consecutive_same_value st' = Series.num_consecutive_same_value st ->
  Series.prev_value st' = Series.prev_value st ->
  lo <= lo' ->
  counts_runs values st lo hi -> counts_runs values st' lo' hi.
Proof.
  intros Hn Hp Hlo [Hnum Hruns]. unfold counts_runs. rewrite Hn, Hp.
  split; [exact Hnum |]. intros a v Ha. apply Hruns. lia.
Qed.

Lemma setup_counts_runs (values : list float) (first : float) (i : nat) :
  counts_runs values (Series.setup first) i i.
Proof.
  split; [cbn; lia |]. intros a v Ha _ Hone.
  replace (i - a) with 0 in Hone by lia. cbn in Hone. lia.
Qed.

(** After the turn of the window that ends at [i] the loop knows the runs
    of equal values that end there and start inside the window. *)
Lemma roll_state_counts_runs (values : list float) (w i : nat) :
  1 <= w ->
  counts_runs values (roll_state values w i) (S i - w) (S i).
Proof.
  intros Hw. induction i as [| i IH].
  - unfold roll_state. cbn [seq fold_left]. unfold Series.roll_window.
    cbn [Nat.eqb orb]. replace (1 - w) with 0 by lia.
    cbn [Nat.sub seq fold_left].
    apply add_mean_counts_runs; [lia | apply setup_counts_runs].
  - unfold roll_state in *. rewrite seq_S, fold_left_app. cbn [fold_left Nat.add].
    set (st := fold_left (Series.roll_window values w) (seq 0 (S i)) (Series.setup nan))
      in *.
    unfold Series.roll_window. cbn [Nat.eqb orb].
    destruct (Nat.leb_spec (S i) (S (S i) - w)) as [Hfresh | Hrun].
    + replace (S (S i) - w) with (S i) by lia.
      replace (S (S i) - S i) with 1 by lia. cbn [seq fold_left].
      apply add_mean_counts_runs; [lia | apply setup_counts_runs].
    + replace (S (S i) - S i) with 1 by lia. cbn [seq fold_left].
      apply add_mean_counts_runs; [lia |].
      destruct (remove_fold_runs values (seq (S i - w) (S (S i) - w - (S i - w))) st)
        as [Hn Hp].
      apply (counts_runs_ext values st _ (S i - w)); [exact Hn | exact Hp | lia | exact IH].
Qed.

(** A window whose present values are all equal to [v] has a mean equal to
    [v]. *)
Lemma roll_mean_of_equal_values (values : list float) (w i : nat) (v : float) :
  1 <= w -> i < List.length values ->
  all_equal values v (S i - w) (S i - (S i - w)) ->
  1 <= present_between values (S i - w) (S i - (S i - w)) ->
  (nth i (Series.roll_mean values w 1) nan =? v)%float = true.
Proof.
  intros Hw Hi Hall Hone. rewrite roll_mean_nth by exact Hi.
  pose proof (roll_state_nobs values w i Hw) as Hnobs.
  destruct (roll_state_counts_runs values w i Hw) as [_ Hruns].
  destruct (Hruns (S i - w) v) as [Hprev Hle]; [lia | exact Hall | exact Hone |].
  unfold Series.calc_mean. rewrite Hnobs.
  destruct (Z.leb_spec 1 (Z.of_nat (present_between values (S i - w) (S i - (S i - w)))));
    [| lia].
  destruct (Z.ltb_spec 0 (Z.of_nat (present_between values (S i - w) (S i - (S i - w)))));
    [| lia].
  cbn [andb].
  destruct (Z.leb_spec (Z.of_nat (present_between values (S i - w) (S i - (S i - w))))
              (Series.num_consecutive_same_value (roll_state values w i))); [| lia].
  exact Hprev.
Qed.

Lemma calc_mean_no_value (st : Series.MeanState) :
  Series.nobs st = 0%Z -> Series.calc_mean 1 st = nan.
Proof. unfold Series.calc_mean. now intros ->. Qed.

(** A window summed afresh over one value gives that value, and NaN when
    the value is missing. *)
Lemma calc_mean_fresh (v : float) :
  Series.calc_mean 1 (Series.add_mean v (Series.setup v))
  = if (v =? v)%float then v else nan.
Proof.
  unfold Series.add_mean. destruct (v =? v)%float eqn:E.
  - unfold Series.calc_mean, Series.setup.
    cbn [Series.nobs Series.num_consecutive_same_value Series.prev_value]. rewrite E.
    reflexivity.
  - reflexivity.
Qed.

(** After [prep_values] a value is present exactly when it was finite. *)
Lemma prep_value_present (x : float) :
  let v := if PrimFloat.is_infinity x then nan else x in
  (v =? v)%float = is_finite x.
Proof.
  unfold is_finite, is_nan. destruct (PrimFloat.is_infinity x); cbn zeta.
  - now rewrite orb_true_r.
  - now rewrite orb_false_r, negb_involutive.
Qed.

Lemma prep_value_finite (x : float) :
  is_finite x = true -> (if PrimFloat.is_infinity x then nan else x) = x.
Proof.
  unfold is_finite. destruct (PrimFloat.is_infinity x); [| reflexivity].
  now rewrite orb_true_r.
Qed.

Lemma prep_values_nth (l : list float) (j : nat) :
  nth j (Series.prep_values l) nan
  = if PrimFloat.is_infinity (nth j l nan) then nan else nth j l nan.
Proof.
  unfold Series.prep_values.
  exact (map_nth (fun x => if PrimFloat.is_infinity x then nan else x) l nan j).
Qed.

(** The first value of the rolling mean. *)
Lemma roll_mean_first (x : float) (l : list float) (w : nat) :
  1 <= w ->
  nth 0 (Series.roll_mean (Series.prep_values (x :: l)) w 1) nan
  = if is_finite x then x else nan.
Proof.
  intros Hw. rewrite roll_mean_nth by (simpl; lia).
  unfold roll_state. cbn [seq fold_left]. unfold Series.roll_window.
  cbn [Nat.eqb orb]. replace (1 - w) with 0 by lia.
  cbn [Nat.sub seq fold_left]. rewrite prep_values_nth. cbn [nth].
  rewrite calc_mean_fresh, prep_value_present.
  destruct (is_finite x) eqn:E; [now apply prep_value_finite | reflexivity].
Qed.

(** With a window of one value every window is summed afresh. *)
Lemma roll_mean_window_one (l : list float) (i : nat) :
  i < List.length l ->
  nth i (Series.roll_mean (Series.prep_values l) 1 1) nan
  = if is_finite (nth i l nan) then nth i l nan else nan.
Proof.
  intros Hi. rewrite roll_mean_nth by now rewrite prep_values_length.
  unfold roll_state. rewrite seq_S, fold_left_app. cbn [fold_left Nat.add].
  unfold Series.roll_window at 1.
  replace (S i - 1) with i by lia. rewrite Nat.leb_refl, orb_true_r.
  replace (S i - i) with 1 by lia. cbn [seq fold_left].
  rewrite prep_values_nth, calc_mean_fresh, prep_value_present.
  destruct (is_finite (nth i l nan)) eqn:E; [now apply prep_value_finite | reflexivity].
Qed.

Section RollingFacts.
Context {pandas : Pandas}.
Variable SEASON_MAPPING : list (string * string).
Variable ANOMALY_THRESHOLD : float.
Variable ROLLING_WINDOW : nat.
Variable str_lower : string -> string.

Local Abbreviation analyze :=
  (analyze_city_data SEASON_MAPPING ANOMALY_THRESHOLD ROLLING_WINDOW str_lower).

(** The window ending at [i] holds the [min (i+1) w] values that end at
    position [i]. *)
Lemma window_length (w i : nat) (l : list float) :
  i < List.length l -> List.length (Series.window w i l) = Nat.min (S i) w.
Proof.
  intros Hi. unfold Series.window. rewrite length_skipn, length_firstn. lia.
Qed.

Lemma window_nth (w i j : nat) (l : list float) :
  i < List.length l -> j < Nat.min (S i) w ->
  nth j (Series.window w i l) nan = nth (S i - Nat.min (S i) w + j) l nan.
Proof.
  intros Hi Hj. unfold Series.window. rewrite nth_skipn, nth_firstn.
  replace (S i - Nat.min (S i) w) with (S i - w) by lia.
  destruct (Nat.ltb_spec (S i - w + j) (S i)) as [_ | H]; [reflexivity | lia].
Qed.

(** The rolling-mean column is the result of pandas' loop on the
    temperatures of the series. *)
Lemma rolling_column_is_roll_mean (city_df : list Observation) e s a :
  analyze city_df = Ok (e, s, a) ->
  map rolling_mean e
  = Series.roll_mean (Series.prep_values (map temp e)) ROLLING_WINDOW 1.
Proof.
  intros H. pose proof (analyze_obs _ _ _ _ _ _ _ _ H) as Hobs.
  apply analyze_inv in H. destruct H as (_ & He & _).
  assert (Htemps : map temp e = map temperature (sort_by_timestamp city_df)).
  { unfold temp. rewrite <- map_map, Hobs. reflexivity. }
  rewrite Htemps. rewrite He at 1. apply with_rolling_mean_col.
  now rewrite roll_mean_length, prep_values_length, length_map.
Qed.

Lemma rolling_entry (city_df : list Observation) e s a i r :
  analyze city_df = Ok (e, s, a) ->
  nth_error e i = Some r ->
  rolling_mean r
  = nth i (Series.roll_mean (Series.prep_values (map temp e)) ROLLING_WINDOW 1) nan.
Proof.
  intros H Hi. rewrite <- (rolling_column_is_roll_mean _ _ _ _ H).
  apply (map_nth_error rolling_mean) in Hi.
  symmetry. apply nth_error_nth, Hi.
Qed.

(** A window without a finite temperature gives NaN. *)
Lemma rolling_entry_no_value (l : list float) (i : nat) :
  1 <= ROLLING_WINDOW -> i < List.length l ->
  (forall x, In x (Series.window ROLLING_WINDOW i l) -> is_finite x = false) ->
  nth i (Series.roll_mean (Series.prep_values l) ROLLING_WINDOW 1) nan = nan.
Proof.
  intros Hw Hi Hall. rewrite roll_mean_nth by now rewrite prep_values_length.
  apply calc_mean_no_value. rewrite roll_state_nobs by exact Hw.
  replace (present_between (Series.prep_values l) (S i - ROLLING_WINDOW)
             (S i - (S i - ROLLING_WINDOW))) with 0; [reflexivity |].
  symmetry. unfold present_between.
  rewrite filter_none; [reflexivity |].
  intros j Hj. apply in_seq in Hj.
  rewrite prep_values_nth, prep_value_present. apply Hall.
  pose proof (window_nth ROLLING_WINDOW i (j - (S i - ROLLING_WINDOW)) l Hi) as Hn.
  replace (S i - Nat.min (S i) ROLLING_WINDOW + (j - (S i - ROLLING_WINDOW)))
    with j in Hn by lia.
  rewrite <- Hn by lia. apply nth_In. rewrite window_length by exact Hi. lia.
Qed.

(** A window whose finite temperatures are all equal to [v] gives a value
    equal to [v]. *)
Lemma rolling_entry_equal_values (l : list float) (i : nat) (v : float) :
  1 <= ROLLING_WINDOW -> i < List.length l ->
  (forall x, In x (Series.window ROLLING_WINDOW i l) ->
             is_finite x = true -> (x =? v)%float = true) ->
  (exists x, In x (Series.window ROLLING_WINDOW i l) /\ is_finite x = true) ->
  (nth i (Series.roll_mean (Series.prep_values l) ROLLING_WINDOW 1) nan =? v)%float
  = true.
Proof.
  intros Hw Hi Hall (x & Hx & Hfin).
  assert (Hwin : forall j, S i - ROLLING_WINDOW <= j < S i ->
                           In (nth j l nan) (Series.window ROLLING_WINDOW i l)).
  { intros j Hj.
    pose proof (window_nth ROLLING_WINDOW i (j - (S i - ROLLING_WINDOW)) l Hi) as Hn.
    replace (S i - Nat.min (S i) ROLLING_WINDOW + (j - (S i - ROLLING_WINDOW)))
      with j in Hn by lia.
    rewrite <- Hn by lia. apply nth_In. rewrite window_length by exact Hi. lia. }
  apply roll_mean_of_equal_values;
    [exact Hw | now rewrite prep_values_length | |].
  - intros j Hj. rewrite !prep_values_nth, prep_value_present. intros Hpres.
    rewrite (prep_value_finite _ Hpres). apply Hall; [apply Hwin; lia | exact Hpres].
  - apply (In_nth _ _ nan) in Hx. destruct Hx as (k & Hk & Hnth).
    rewrite window_length in Hk by exact Hi.
    rewrite window_nth in Hnth by (exact Hi || exact Hk).
    unfold present_between.
    assert (Hin : In (S i - Nat.min (S i) ROLLING_WINDOW + k)
                     (filter (fun j => (nth j (Series.prep_values l) nan
                                        =? nth j (Series.prep_values l) nan)%float)
                             (seq (S i - ROLLING_WINDOW)
                                  (S i - (S i - ROLLING_WINDOW))))).
    { apply filter_In. split; [apply in_seq; lia |].
      now rewrite !prep_values_nth, prep_value_present, Hnth. }
    destruct (filter _ _); [contradiction | simpl; lia].
Qed.


End RollingFacts.



(** ** The order of binary64 numbers *)

Module FloatOrder.

Ltac rank_cases m1 e1 m2 e2 :=
  change (Pos.compare_cont Eq m1 m2) with (Pos.compare m1 m2);
  destruct (Z.compare_spec e1 e2) as [-> | He | He];
    [destruct (Pos.compare_spec m1 m2) as [-> | Hm | Hm] | |]; simpl;
    (split; [try discriminate; intros _; do 2 eexists; repeat split; simpl; lia
            | intros (a & b & Ha & Hb & H);
              injection Ha as <-; injection Hb as <-; simpl in H;
              try reflexivity; lia]).

Lemma SFleb_rank (X Y : spec_float) :
  SFleb X Y = true <->
  exists a b, rank X = Some a /\ rank Y = Some b /\ rank_le a b.
Proof.
  unfold SFleb.
  destruct X as [s1 | s1 | | s1 m1 e1], Y as [s2 | s2 | | s2 m2 e2]; simpl;
    try destruct s1; try destruct s2; simpl;
    try (split; [intros _; do 2 eexists; repeat split; simpl; lia
                | reflexivity]);
    try (split; [discriminate
                | intros (a & b & Ha & Hb & H); try discriminate;
                  injection Ha as <-; injection Hb as <-; simpl in H; lia]).
  - rank_cases m1 e1 m2 e2.
  - rank_cases m1 e1 m2 e2.
Qed.

Lemma SFltb_rank (X Y : spec_float) :
  SFltb X Y = true <->
  exists a b, rank X = Some a /\ rank Y = Some b /\ rank_lt a b.
Proof.
  unfold SFltb.
  destruct X as [s1 | s1 | | s1 m1 e1], Y as [s2 | s2 | | s2 m2 e2]; simpl;
    try destruct s1; try destruct s2; simpl;
    try (split; [intros _; do 2 eexists; repeat split; simpl; lia
                | reflexivity]);
    try (split; [discriminate
                | intros (a & b & Ha & Hb & H); try discriminate;
                  injection Ha as <-; injection Hb as <-; simpl in H; lia]).
  - rank_cases m1 e1 m2 e2.
  - rank_cases m1 e1 m2 e2.
Qed.

Lemma rank_present (x : float) :
  is_nan x = false -> exists a, rank (Prim2SF x) = Some a.
Proof.
  intros H. apply FloatFacts.is_nan_false in H.
  destruct (Prim2SF x) as [s | s | | s m e]; simpl;
    try destruct s; eauto; congruence.
Qed.

Lemma leb_refl (x : float) : is_nan x = false -> (x <=? x)%float = true.
Proof.
  intros H. rewrite FloatAxioms.leb_spec. apply SFleb_rank.
  destruct (rank_present x H) as [[[a1 a2] a3] Ha].
  exists (a1, a2, a3), (a1, a2, a3). repeat split; auto. simpl. lia.
Qed.

Lemma leb_trans (x y z : float) :
  (x <=? y)%float = true -> (y <=? z)%float = true -> (x <=? z)%float = true.
Proof.
  rewrite !FloatAxioms.leb_spec, !SFleb_rank.
  intros ([[a1 a2] a3] & [[b1 b2] b3] & Ha & Hb & H1)
         ([[b1' b2'] b3'] & [[c1 c2] c3] & Hb' & Hc & H2).
  rewrite Hb in Hb'. injection Hb' as <- <- <-.
  exists (a1, a2, a3), (c1, c2, c3). repeat split; auto. simpl in *. lia.
Qed.

Lemma ltb_leb (x y : float) : (x <? y)%float = true -> (x <=? y)%float = true.
Proof.
  rewrite FloatAxioms.ltb_spec, FloatAxioms.leb_spec, SFltb_rank, SFleb_rank.
  intros ([[a1 a2] a3] & [[b1 b2] b3] & Ha & Hb & H).
  exists (a1, a2, a3), (b1, b2, b3). repeat split; auto. simpl in *. lia.
Qed.

Lemma not_ltb_leb (x y : float) :
  is_nan x = false -> is_nan y = false ->
  (x <? y)%float = false -> (y <=? x)%float = true.
Proof.
  intros Hx Hy H. rewrite FloatAxioms.leb_spec. apply SFleb_rank.
  destruct (rank_present x Hx) as [[[a1 a2] a3] Ha].
  destruct (rank_present y Hy) as [[[b1 b2] b3] Hb].
  exists (b1, b2, b3), (a1, a2, a3). repeat split; auto.
  rewrite FloatAxioms.ltb_spec in H.
  assert (Hn : ~ rank_lt (a1, a2, a3) (b1, b2, b3)).
  { intros Hlt. assert (SFltb (Prim2SF x) (Prim2SF y) = true)
      by (apply SFltb_rank; eauto 6). congruence. }
  simpl in *. lia.
Qed.

End FloatOrder.

(** ** The smallest and the largest value of a series *)

Lemma fold_min_spec (v : list float) (x : float) :
  is_nan x = false -> (forall y, In y v -> is_nan y = false) ->
  let m := fold_left (fun acc y => if (y <? acc)%float then y else acc) v x in
  In m (x :: v) /\ forall y, In y (x :: v) -> (m <=? y)%float = true.
Proof.
  revert x. induction v as [| y0 v IH]; intros x Hx Hv; cbn [fold_left].
  - split; [now left |]. intros y [<- | []]. now apply FloatOrder.leb_refl.
  - assert (Hy0 : is_nan y0 = false) by (apply Hv; now left).
    assert (Hx' : is_nan (if (y0 <? x)%float then y0 else x) = false)
      by now destruct (y0 <? x)%float.
    destruct (IH _ Hx' (fun y Hy => Hv y (or_intror Hy))) as [Hin Hle].
    pose proof (Hle _ (or_introl eq_refl)) as Hm.
    split.
    + destruct Hin as [Hin | Hin]; [| now right; right].
      rewrite <- Hin. destruct (y0 <? x)%float; [right | ]; now left.
    + intros y [<- | [<- | Hy]]; [| | apply Hle; now right].
      * destruct (y0 <? x)%float eqn:E; [| exact Hm].
        eapply FloatOrder.leb_trans; [exact Hm |]. now apply FloatOrder.ltb_leb.
      * destruct (y0 <? x)%float eqn:E; [exact Hm |].
        eapply FloatOrder.leb_trans; [exact Hm |]. now apply FloatOrder.not_ltb_leb.
Qed.

Lemma fold_max_spec (v : list float) (x : float) :
  is_nan x = false -> (forall y, In y v -> is_nan y = false) ->
  let m := fold_left (fun acc y => if (acc <? y)%float then y else acc) v x in
  In m (x :: v) /\ forall y, In y (x :: v) -> (y <=? m)%float = true.
Proof.
  revert x. induction v as [| y0 v IH]; intros x Hx Hv; cbn [fold_left].
  - split; [now left |]. intros y [<- | []]. now apply FloatOrder.leb_refl.
  - assert (Hy0 : is_nan y0 = false) by (apply Hv; now left).
    assert (Hx' : is_nan (if (x <? y0)%float then y0 else x) = false)
      by now destruct (x <? y0)%float.
    destruct (IH _ Hx' (fun y Hy => Hv y (or_intror Hy))) as [Hin Hle].
    pose proof (Hle _ (or_introl eq_refl)) as Hm.
    split.
    + destruct Hin as [Hin | Hin]; [| now right; right].
      rewrite <- Hin. destruct (x <? y0)%float; [right | ]; now left.
    + intros y [<- | [<- | Hy]]; [| | apply Hle; now right].
      * destruct (x <? y0)%float eqn:E; [| exact Hm].
        eapply FloatOrder.leb_trans; [| exact Hm]. now apply FloatOrder.ltb_leb.
      * destruct (x <? y0)%float eqn:E; [exact Hm |].
        eapply FloatOrder.leb_trans; [| exact Hm]. now apply FloatOrder.not_ltb_leb.
Qed.

Lemma dropna_In (l : list float) (x : float) :
  In x (Series.dropna l) <-> In x l /\ is_nan x = false.
Proof.
  unfold Series.dropna, Series.isna. now rewrite filter_In, negb_true_iff.
Qed.

(** The minimum and the maximum of a series with a present value are values
    of the series, and the present values lie between them. *)
Lemma min_max_spec (l : list float) :
  Series.count l <> 0 ->
  In (Series.min l) l /\ In (Series.max l) l
  /\ forall y, In y l -> is_nan y = false ->
       (Series.min l <=? y)%float = true /\ (y <=? Series.max l)%float = true.
Proof.
  unfold Series.count, Series.min, Series.max. intros Hc.
  pose proof (dropna_In l) as Hd.
  destruct (Series.dropna l) as [| x v]; [now elim Hc |].
  assert (Hx : is_nan x = false) by (apply Hd; now left).
  assert (Hv : forall y, In y v -> is_nan y = false)
    by (intros y Hy; apply Hd; now right).
  destruct (fold_min_spec v x Hx Hv) as [Hmin Hlow].
  destruct (fold_max_spec v x Hx Hv) as [Hmax Hup].
  split; [apply Hd, Hmin |]. split; [apply Hd, Hmax |].
  intros y Hy Hn. assert (Hin : In y (x :: v)) by (apply Hd; tauto).
  split; [apply Hlow | apply Hup]; exact Hin.
Qed.

Lemma min_max_none (l : list float) :
  Series.count l = 0 -> Series.min l = nan /\ Series.max l = nan.
Proof.
  unfold Series.count, Series.min, Series.max.
  destruct (Series.dropna l); [split; reflexivity | discriminate].
Qed.

(** ** The season statistics *)

Section StatsFacts.
Context {pandas : Pandas}.
Variable SEASON_MAPPING : list (string * string).
Variable ANOMALY_THRESHOLD : float.
Variable ROLLING_WINDOW : nat.
Variable str_lower : string -> string.

Local Abbreviation analyze :=
  (analyze_city_data SEASON_MAPPING ANOMALY_THRESHOLD ROLLING_WINDOW str_lower).

Lemma stats_seasons (e : list EnrichedObservation) :
  map ss_season (map (with_season_ru SEASON_MAPPING str_lower) (groupby_season_agg e))
  = sort String.leb (Series.unique (map season_of e)).
Proof.
  unfold groupby_season_agg. rewrite !map_map. cbn [ss_season with_season_ru g_season group_row].
  apply map_id.
Qed.

Lemma stats_row (e : list EnrichedObservation) row :
  In row (map (with_season_ru SEASON_MAPPING str_lower) (groupby_season_agg e)) ->
  row = with_season_ru SEASON_MAPPING str_lower (group_row e (ss_season row)).
Proof.
  unfold groupby_season_agg. rewrite map_map, in_map_iff.
  intros (k & <- & _). reflexivity.
Qed.

(** The rows of a season in the sorted series are the observations of that
    season in the input. *)
Lemma season_data_perm (city_df : list Observation) e s a (k : string) :
  analyze city_df = Ok (e, s, a) ->
  Permutation (map obs (season_data e k))
              (filter (fun o => String.eqb (season o) k) city_df).
Proof.
  intros H. apply analyze_perm in H.
  unfold season_data, season_of.
  assert (G : forall l, map obs (filter (fun r => String.eqb (season (obs r)) k) l)
                        = filter (fun o => String.eqb (season o) k) (map obs l)).
  { induction l as [| r l IH]; simpl; [reflexivity |].
    destruct (String.eqb (season (obs r)) k); simpl; now rewrite IH. }
  rewrite G. clear G. induction H; simpl.
  - constructor.
  - destruct (String.eqb (season x) k); [constructor |]; assumption.
  - destruct (String.eqb (season x) k), (String.eqb (season y) k);
      try apply perm_swap; reflexivity.
  - etransitivity; eassumption.
Qed.

Lemma count_no_missing (l : list float) :
  (forall x, In x l -> Series.isna x = false) -> Series.count l = List.length l.
Proof.
  intros H. unfold Series.count, Series.dropna.
  induction l as [| x l IH]; simpl; [reflexivity |].
  rewrite (H x) by now left. simpl. f_equal. apply IH. intros y Hy. apply H. now right.
Qed.

Lemma group_std_few (l : list float) : Series.count l <= 1 -> Series.group_std l = nan.
Proof.
  unfold Series.count, Series.group_std. intros H.
  destruct (Nat.leb_spec (List.length (Series.dropna l)) 1); [reflexivity | lia].
Qed.

Lemma group_mean_none (l : list float) : Series.count l = 0 -> Series.group_mean l = nan.
Proof.
  unfold Series.count, Series.group_mean.
  destruct (Series.dropna l); [reflexivity | discriminate].
Qed.

(** The mean of a group with one present value is that value. *)
Lemma group_mean_single (l : list float) (v : float) :
  Series.dropna l = [v] -> (Series.group_mean l =? v)%float = true.
Proof.
  intros H. unfold Series.group_mean. rewrite H.
  cbn [fold_left Series.kahan_add fst List.length].
  change (Series.of_count 1) with 1%float.
  rewrite FloatFacts.div_one, FloatFacts.sub_zero_r.
  apply FloatFacts.add_zero_l.
  assert (Hin : In v (Series.dropna l)) by (rewrite H; now left).
  apply dropna_In in Hin. tauto.
Qed.

Lemma min_max_single (l : list float) (v : float) :
  Series.dropna l = [v] -> Series.min l = v /\ Series.max l = v.
Proof. unfold Series.min, Series.max. intros ->. split; reflexivity. Qed.

(** What the statistics of a result are. *)
Lemma season_stats_of_a_result (city_df : list Observation) e s a :
  analyze city_df = Ok (e, s, a) ->
  NoDup (map ss_season s)
  /\ (forall k, In k (map ss_season s) <-> exists o, In o city_df /\ season o = k)
  /\ (forall row, In row s ->
        let rows := season_data e (ss_season row) in
        let temps := map temp rows in
        Permutation (map obs rows)
                    (filter (fun o => String.eqb (season o) (ss_season row)) city_df)
        /\ ss_mean row = Series.group_mean temps
        /\ ss_std row = Series.group_std temps
        /\ ss_min row = Series.min temps
        /\ ss_max row = Series.max temps
        /\ ss_count row = Series.count temps
        /\ ((forall x, In x temps -> Series.isna x = false) ->
            ss_count row = List.length rows)
        /\ (List.length rows = 1 -> ss_std row = nan)
        /\ (temps = [-5; -7; -6]%float ->
            ss_mean row = (-6)%float /\ ss_std row = 1%float /\ ss_count row = 3))
  /\ Series.group_mean [-5; -7; -6]%float = (-6)%float
  /\ Series.group_std [-5; -7; -6]%float = 1%float
  /\ Series.count [-5; -7; -6]%float = 3.
Proof.
  intros H. pose proof (analyze_perm _ _ _ _ _ _ _ _ H) as Hperm.
  pose proof (analyze_inv _ _ _ _ _ _ _ _ H) as (_ & _ & Hs & _).
  split; [| split; [| split]].
  - rewrite Hs, stats_seasons.
    apply (Permutation_NoDup (Permutation_sym (sort_perm _ _))), unique_NoDup.
  - intros k. rewrite Hs, stats_seasons.
    transitivity (In k (Series.unique (map season_of e))).
    + split; apply Permutation_in; [| apply Permutation_sym]; apply sort_perm.
    + rewrite unique_In. unfold season_of. rewrite <- (map_map obs season), !in_map_iff.
      split.
      * intros (o & Ho & Hin). exists o. split; [| exact Ho].
        apply (Permutation_in _ Hperm Hin).
      * intros (o & Hin & Ho). exists o. split; [exact Ho |].
        apply (Permutation_in _ (Permutation_sym Hperm) Hin).
  - intros row Hrow rows temps. rewrite Hs in Hrow.
    apply stats_row in Hrow.
    assert (Hm : ss_mean row = Series.group_mean temps) by (rewrite Hrow; reflexivity).
    assert (Hd : ss_std row = Series.group_std temps) by (rewrite Hrow; reflexivity).
    assert (Hc : ss_count row = Series.count temps) by (rewrite Hrow; reflexivity).
    split; [apply (season_data_perm _ _ _ _ _ H) |].
    split; [exact Hm |]. split; [exact Hd |].
    split; [rewrite Hrow; reflexivity |]. split; [rewrite Hrow; reflexivity |].
    split; [exact Hc |]. split; [| split].
    + intros Hna. rewrite Hc, (count_no_missing _ Hna). apply length_map.
    + intros Hone. rewrite Hd. apply group_std_few.
      unfold Series.count, Series.dropna.
      etransitivity; [apply filter_length_le |].
      subst temps. rewrite length_map. lia.
    + intros Ht. rewrite Hm, Hd, Hc, Ht. repeat split; reflexivity.
  - repeat split; reflexivity.
Qed.

(** The temperatures of a season in the returned series are those of the
    season in the input. *)
Lemma season_temps_perm (city_df : list Observation) e s a (k : string) :
  analyze city_df = Ok (e, s, a) ->
  Permutation (map temp (season_data e k)) (season_temperatures city_df k).
Proof.
  intros H. unfold temp, season_temperatures. rewrite <- (map_map obs temperature).
  apply Permutation_map, (season_data_perm _ _ _ _ k H).
Qed.


End StatsFacts.


(** ** The classifier *)

Section ClassifierFacts.
Variable ANOMALY_THRESHOLD : float.
Local Abbreviation K := ANOMALY_THRESHOLD.
Local Abbreviation classify := (check_temperature_normality ANOMALY_THRESHOLD).

Lemma classify_no_row (cur : float) (season : string) (stats : list SeasonStats) :
  matching_rows season stats = [] ->
  classify cur season stats
  = {| is_normal := None; mean_temp := None; std_temp := None;
       nr_lower_bound := None; nr_upper_bound := None;
       nr_deviation := None; deviation_in_std := None;
       no_data := true |}.
Proof.
  unfold matching_rows, check_temperature_normality. now intros ->.
Qed.

Lemma classify_row (cur : float) (season : string) (stats : list SeasonStats) row rest :
  matching_rows season stats = row :: rest ->
  let lower := (ss_mean row - K * ss_std row)%float in
  let upper := (ss_mean row + K * ss_std row)%float in
  let dev := (cur - ss_mean row)%float in
  classify cur season stats
  = {| is_normal := Some ((lower <=? cur)%float && (cur <=? upper)%float);
       mean_temp := Some (ss_mean row); std_temp := Some (ss_std row);
       nr_lower_bound := Some lower; nr_upper_bound := Some upper;
       nr_deviation := Some dev;
       deviation_in_std :=
         Some (if (0 <? ss_std row)%float then (dev / ss_std row)%float else 0%float);
       no_data := false |}.
Proof.
  unfold matching_rows, check_temperature_normality. now intros ->.
Qed.

(** C2, as the program has it.  Without a row for the season the result is
    [no_data] with every other field unset.  With one, [no_data] is false,
    the bounds are [mean - k*std] and [mean + k*std], [is_normal] holds
    exactly when the temperature lies between them, both ends included,
    [deviation] is [temperature - mean], and [deviation_in_std] is
    [deviation / std] when [std > 0] and 0 in every other case: a zero, a
    negative or an undefined [std].  With a finite threshold, [std = 0] and a
    temperature equal to the mean give [deviation_in_std = 0] and
    [is_normal = true]. *)
Theorem classifier_result (cur : float) (season : string) (stats : list SeasonStats) :
  let r := classify cur season stats in
  match matching_rows season stats with
  | [] =>
      no_data r = true /\ is_normal r = None /\ mean_temp r = None
      /\ std_temp r = None /\ nr_lower_bound r = None /\ nr_upper_bound r = None
      /\ nr_deviation r = None /\ deviation_in_std r = None
  | row :: _ =>
      let lower := (ss_mean row - K * ss_std row)%float in
      let upper := (ss_mean row + K * ss_std row)%float in
      let dev := (cur - ss_mean row)%float in
      no_data r = false
      /\ mean_temp r = Some (ss_mean row) /\ std_temp r = Some (ss_std row)
      /\ nr_lower_bound r = Some lower /\ nr_upper_bound r = Some upper
      /\ (exists b, is_normal r = Some b
                    /\ (b = true <->
                        (lower <=? cur)%float = true /\ (cur <=? upper)%float = true))
      /\ nr_deviation r = Some dev
      /\ ((0 <? ss_std row)%float = true ->
          deviation_in_std r = Some (dev / ss_std row)%float)
      /\ ((0 <? ss_std row)%float = false -> deviation_in_std r = Some 0%float)
      /\ ((ss_std row =? 0)%float = true ->
          deviation_in_std r = Some 0%float
          /\ (is_finite K = true -> (cur =? ss_mean row)%float = true ->
              is_normal r = Some true))
  end.
Proof.
  intros r. subst r. destruct (matching_rows season stats) as [| row rest] eqn:E.
  - rewrite (classify_no_row _ _ _ E). cbn. repeat split.
  - rewrite (classify_row _ _ _ _ _ E). cbn.
    repeat match goal with |- _ /\ _ => split end; try reflexivity.
    + eexists. split; [reflexivity |]. apply andb_true_iff.
    + now intros ->.
    + now intros ->.
    + intros H0. split.
      * now rewrite FloatFacts.ltb_zero_of_eqb.
      * intros Hk Hcur. f_equal. now apply FloatFacts.between_collapsed_bounds.
Qed.

(** C7, the classifier: an undefined deviation gives [deviation_in_std = 0]
    and a false normality flag, a zero deviation gives
    [deviation_in_std = 0]; in both cases a result is returned. *)
Lemma classify_degenerate (cur : float) (season : string) (stats : list SeasonStats)
  row rest :
  matching_rows season stats = row :: rest ->
  let r := classify cur season stats in
  no_data r = false
  /\ (ss_std row = nan ->
      deviation_in_std r = Some 0%float /\ is_normal r = Some false)
  /\ ((ss_std row =? 0)%float = true -> deviation_in_std r = Some 0%float).
Proof.
  intros E r. subst r. rewrite (classify_row _ _ _ _ _ E). cbn.
  split; [reflexivity |]. split.
  - intros ->. rewrite FloatFacts.ltb_nan_r.
    rewrite FloatFacts.mul_nan_r, FloatFacts.sub_nan_r, FloatFacts.leb_nan_l.
    split; reflexivity.
  - intros H. now rewrite FloatFacts.ltb_zero_of_eqb.
Qed.

End ClassifierFacts.

Lemma classifier_result_witness :
  let r := check_temperature_normality sample_threshold 0 "winter" sample_stats in
  no_data r = false /\ is_normal r = Some true
  /\ check_temperature_normality sample_threshold 0 "spring" sample_stats
     = {| is_normal := None; mean_temp := None; std_temp := None;
          nr_lower_bound := None; nr_upper_bound := None;
          nr_deviation := None; deviation_in_std := None;
          no_data := true |}.
Proof.
  pose proof (classifier_result sample_threshold 0 "winter" sample_stats) as H.
  cbv zeta in H.
  remember (matching_rows "winter" sample_stats) as rows eqn:E in H.
  vm_compute in E. subst rows.
  destruct H as (Hn & _ & _ & _ & _ & (b & Hb & Hiff) & _).
  split; [exact Hn |]. split; [| reflexivity].
  cbv zeta. rewrite Hb. f_equal. apply Hiff. split; reflexivity.
Defined.

(** C2 as stated fails on an undefined deviation: the statistics of the
    sample city have a single summer day, so the summer deviation is NaN,
    not zero; the classifier answers [deviation_in_std = 0], not
    [deviation / std]. *)
Lemma classifier_undefined_std_counterexample :
  exists row,
    matching_rows "summer" sample_stats = [row]
    /\ (ss_std row =? 0)%float = false
    /\ let r := check_temperature_normality sample_threshold 25 "summer" sample_stats in
       no_data r = false
       /\ deviation_in_std r = Some 0%float
       /\ deviation_in_std r <> Some ((25 - ss_mean row) / ss_std row)%float.
Proof.
  eexists. split; [reflexivity |]. split; [reflexivity |].
  cbv zeta. split; [reflexivity |]. split; [reflexivity |].
  intros H. apply (f_equal (option_map is_nan)) in H. discriminate H.
Qed.

(** ** Degenerate statistics *)

Section DegenerateFacts.
Context {pandas : Pandas}.
Variable SEASON_MAPPING : list (string * string).
Variable ANOMALY_THRESHOLD : float.
Variable ROLLING_WINDOW : nat.
Variable str_lower : string -> string.

Local Abbreviation analyze :=
  (analyze_city_data SEASON_MAPPING ANOMALY_THRESHOLD ROLLING_WINDOW str_lower).
Local Abbreviation K := ANOMALY_THRESHOLD.

(** With an undefined deviation both bounds are NaN and no comparison with
    them holds. *)
Lemma undefined_std_flags_nothing (e : list EnrichedObservation) (k : string) :
  Series.std nanstd (map temp (season_data e k)) = nan -> season_anomalies K e k = [].
Proof.
  intros Hstd. unfold season_anomalies, anomaly_columns, outside.
  rewrite Hstd, FloatFacts.mul_nan_r, FloatFacts.sub_nan_r, FloatFacts.add_nan_r.
  rewrite filter_none; [reflexivity |].
  intros r _. now rewrite FloatFacts.ltb_nan_r, FloatFacts.ltb_nan_l.
Qed.

(** C7. Degenerate statistics raise nothing.  With a window of at least one
    observation the analyser returns, and no observation of a season that
    has a single observation is flagged.  The classifier returns a result
    for an undefined or zero deviation: [deviation_in_std = 0], and a false
    normality flag when the deviation is undefined. *)
Theorem degenerate_statistics_raise_nothing (city_df : list Observation) :
  1 <= ROLLING_WINDOW ->
  (exists e s a,
      analyze city_df = Ok (e, s, a)
      /\ forall k,
          List.length (filter (fun o => String.eqb (season o) k) city_df) = 1 ->
          forall x, In x a -> season_of (a_row x) <> k)
  /\ (forall cur season stats row rest,
        matching_rows season stats = row :: rest ->
        let r := check_temperature_normality K cur season stats in
        no_data r = false
        /\ (ss_std row = nan ->
            deviation_in_std r = Some 0%float /\ is_normal r = Some false)
        /\ ((ss_std row =? 0)%float = true -> deviation_in_std r = Some 0%float)).
Proof.
  intros Hw. split.
  2: { intros cur season stats row rest E.
       exact (classify_degenerate K cur season stats row rest E). }
  destruct (analyze_ok SEASON_MAPPING K ROLLING_WINDOW str_lower city_df Hw)
    as (e & s & a & H).
  exists e, s, a. split; [exact H |].
  intros k Hone x Hx Hk.
  pose proof (season_data_perm _ _ _ _ _ _ _ _ k H) as Hperm.
  apply Permutation_length in Hperm. rewrite length_map, Hone in Hperm.
  apply analyze_inv in H. destruct H as (_ & _ & _ & Ha).
  rewrite Ha in Hx. apply in_flat_map in Hx. destruct Hx as (k' & _ & Hx).
  pose proof (season_anomalies_fields K e k' x Hx) as (_ & Hs & _).
  rewrite Hk in Hs. subst k'.
  rewrite undefined_std_flags_nothing in Hx; [exact Hx |].
  apply std_few. unfold Series.count, Series.dropna.
  etransitivity; [apply filter_length_le |]. rewrite length_map. lia.
Qed.

End DegenerateFacts.

Lemma degenerate_statistics_raise_nothing_witness :
  1 <= sample_window
  /\ (exists e s a,
        sample_analyze sample_city = Ok (e, s, a)
        /\ forall x, In x a -> season_of (a_row x) <> "summer"%string)
  /\ (let r := check_temperature_normality sample_threshold 25 "summer" sample_stats in
      deviation_in_std r = Some 0%float /\ is_normal r = Some false).
Proof.
  assert (Hw : 1 <= sample_window) by (unfold sample_window; lia).
  split; [exact Hw |].
  destruct (degenerate_statistics_raise_nothing
              (pandas := sample_pandas)
              sample_mapping sample_threshold sample_window ascii_str_lower
              sample_city Hw) as ((e & s & a & H & Hflag) & Hclass).
  split.
  - exists e, s, a. split; [exact H |]. apply Hflag. reflexivity.
  - refine (proj1 (proj2 (Hclass 25%float "summer"%string sample_stats _ [] eq_refl)) _).
    reflexivity.
Defined.

(** ** The order of the sort keys *)

Lemma string_compare_trans (s1 s2 s3 : string) :
  String.compare s1 s2 <> Gt -> String.compare s2 s3 <> Gt ->
  String.compare s1 s3 <> Gt.
Proof.
  revert s2 s3. induction s1 as [| c1 s1 IH]; intros [| c2 s2] [| c3 s3]; simpl;
    try congruence.
  unfold Ascii.compare.
  destruct (N.compare_spec (N_of_ascii c1) (N_of_ascii c2)) as [E12 | L12 | G12];
    destruct (N.compare_spec (N_of_ascii c2) (N_of_ascii c3)) as [E23 | L23 | G23];
    destruct (N.compare_spec (N_of_ascii c1) (N_of_ascii c3)) as [E13 | L13 | G13];
    try congruence; try lia.
  apply IH.
Qed.

Lemma string_leb_trans (s1 s2 s3 : string) :
  String.leb s1 s2 = true -> String.leb s2 s3 = true -> String.leb s1 s3 = true.
Proof.
  unfold String.leb. intros H12 H23.
  pose proof (string_compare_trans s1 s2 s3) as H.
  destruct (String.compare s1 s2), (String.compare s2 s3), (String.compare s1 s3);
    try discriminate; try reflexivity; exfalso; apply H; congruence.
Qed.

Lemma text_le_total (a b : option string) : text_le a b = true \/ text_le b a = true.
Proof.
  unfold text_le. destruct a as [x |], b as [y |]; simpl; auto.
  apply String.leb_total.
Qed.

Lemma text_le_trans (a b c : option string) :
  text_le a b = true -> text_le b c = true -> text_le a c = true.
Proof.
  unfold text_le.
  destruct a as [x |], b as [y |], c as [z |]; simpl; intros H1 H2;
    try congruence.
  eapply string_leb_trans; eassumption.
Qed.

Lemma loader_key_le (cities : list (option string)) (times : list (option Z)) (i j : nat) :
  key_le (loader_key cities times i) (loader_key cities times j)
  = if negb (text_le (nth j cities None) (nth i cities None)) then true
    else if negb (text_le (nth i cities None) (nth j cities None)) then false
    else time_le (nth i times None) (nth j times None).
Proof.
  unfold loader_key, sort_key, text_le. cbn [map key_le cell_at].
  destruct (negb (cell_le (CStr (nth j cities None)) (CStr (nth i cities None))));
    [reflexivity |].
  destruct (negb (cell_le (CStr (nth i cities None)) (CStr (nth j cities None))));
    [reflexivity |].
  cbn [cell_le].
  destruct (time_le_total (nth i times None) (nth j times None)) as [H | H];
    rewrite H; simpl; [now destruct (time_le (nth j times None) (nth i times None)) |].
  now destruct (time_le (nth i times None) (nth j times None)).
Qed.

Lemma loader_key_total (cities : list (option string)) (times : list (option Z)) (i j : nat) :
  key_le (loader_key cities times i) (loader_key cities times j) = true
  \/ key_le (loader_key cities times j) (loader_key cities times i) = true.
Proof.
  rewrite !loader_key_le.
  pose proof (text_le_total (nth i cities None) (nth j cities None)) as Ht.
  pose proof (time_le_total (nth i times None) (nth j times None)) as Hm.
  destruct (text_le (nth i cities None) (nth j cities None)),
    (text_le (nth j cities None) (nth i cities None)); simpl; auto.
Qed.

Lemma loader_key_trans (cities : list (option string)) (times : list (option Z))
  (i j k : nat) :
  key_le (loader_key cities times i) (loader_key cities times j) = true ->
  key_le (loader_key cities times j) (loader_key cities times k) = true ->
  key_le (loader_key cities times i) (loader_key cities times k) = true.
Proof.
  rewrite !loader_key_le.
  set (ci := nth i cities None). set (cj := nth j cities None).
  set (ck := nth k cities None).
  pose proof (text_le_trans ci cj ck) as Tijk.
  pose proof (text_le_trans cj ck ci) as Tjki.
  pose proof (text_le_trans ck ci cj) as Tkij.
  pose proof (text_le_trans ck cj ci) as Tkji.
  pose proof (text_le_trans cj ci ck) as Tjik.
  pose proof (text_le_trans ci ck cj) as Tikj.
  pose proof (time_le_trans (nth i times None) (nth j times None) (nth k times None))
    as Tm.
  pose proof (text_le_total ci cj) as Oij.
  pose proof (text_le_total cj ck) as Ojk.
  pose proof (text_le_total ci ck) as Oik.
  destruct (text_le ci cj), (text_le cj ci), (text_le cj ck), (text_le ck cj),
    (text_le ci ck), (text_le ck ci); simpl;
    intros Hij Hjk; try discriminate; try reflexivity; auto;
    exfalso; intuition congruence.
Qed.

(** ** A stable sort of positions *)

Section StablePositions.
Variable le : nat -> nat -> bool.
Hypothesis le_total : forall x y, le x y = true \/ le y x = true.
Hypothesis le_trans : forall x y z, le x y = true -> le y z = true -> le x z = true.

Lemma insert_before (x : nat) (l : list nat) :
  StronglySorted (before le) l -> Forall (fun y => x < y) l ->
  StronglySorted (before le) (insert le x l).
Proof.
  induction 1 as [| y l Hs IH Hy]; intros Hx; simpl.
  - repeat constructor.
  - inversion Hx as [| ? ? Hxy Hxl]; subst.
    destruct (le x y) eqn:E.
    + constructor; [now constructor |].
      constructor; [split; auto |].
      rewrite Forall_forall in *. intros z Hz. split; [| auto].
      destruct (Hy z Hz) as [Hyz _]. eauto.
    + constructor; [auto |].
      rewrite Forall_forall in *. intros z Hz.
      apply (Permutation_in _ (insert_perm le x l)) in Hz.
      destruct Hz as [<- | Hz]; [| auto].
      split; [| congruence].
      destruct (le_total x y); congruence.
Qed.

Lemma sort_before (l : list nat) :
  StronglySorted lt l -> StronglySorted (before le) (sort le l).
Proof.
  induction 1 as [| x l Hs IH Hx]; simpl; [constructor |].
  apply insert_before; [assumption |].
  rewrite Forall_forall in *. intros y Hy. apply Hx.
  apply (Permutation_in _ (sort_perm le l) Hy).
Qed.
End StablePositions.

Lemma seq_increasing (a n : nat) : StronglySorted lt (seq a n).
Proof.
  revert a. induction n as [| n IH]; intros a; simpl; constructor; [apply IH |].
  rewrite Forall_forall. intros y Hy. apply in_seq in Hy. lia.
Qed.

(** ** Frames *)

Lemma lookup_setitem_same (df : DataFrame) (name : string) (c : Column) :
  lookup name (setitem df name c) = Some c.
Proof.
  induction df as [| [n c'] df IH]; simpl.
  - now rewrite String.eqb_refl.
  - destruct (String.eqb n name) eqn:E; simpl; rewrite E; auto.
Qed.

Lemma lookup_setitem_other (df : DataFrame) (name name' : string) (c : Column) :
  name' <> name -> lookup name' (setitem df name c) = lookup name' df.
Proof.
  intros Hne. induction df as [| [n c'] df IH]; simpl.
  - apply String.eqb_neq in Hne. now rewrite String.eqb_sym, Hne.
  - destruct (String.eqb_spec n name) as [-> | Hn]; simpl.
    + apply String.eqb_neq in Hne. now rewrite String.eqb_sym, Hne.
    + now rewrite IH.
Qed.

Lemma lookup_In (df : DataFrame) (name : string) (c : Column) :
  lookup name df = Some c -> In (name, c) df.
Proof.
  induction df as [| [n c'] df IH]; simpl; [discriminate |].
  destruct (String.eqb_spec n name) as [-> | Hn].
  - intros [= ->]. now left.
  - intros H. right. auto.
Qed.

Lemma lookup_None (df : DataFrame) (name : string) :
  lookup name df = None <-> ~ In name (columns df).
Proof.
  induction df as [| [n c'] df IH]; simpl; [tauto |].
  destruct (String.eqb_spec n name) as [-> | Hn].
  - split; [discriminate | intros H; exfalso; auto].
  - rewrite IH. tauto.
Qed.

Lemma columns_setitem (df : DataFrame) (name : string) (c c' : Column) :
  lookup name df = Some c' -> columns (setitem df name c) = columns df.
Proof.
  induction df as [| [n c''] df IH]; simpl; [discriminate |].
  destruct (String.eqb_spec n name) as [-> | Hn]; simpl; [reflexivity |].
  intros H. f_equal. auto.
Qed.

Lemma aligned_setitem (n : nat) (df : DataFrame) (name : string) (c : Column) :
  aligned n df -> col_length c = n -> aligned n (setitem df name c).
Proof.
  unfold aligned. intros Hdf Hc. induction Hdf as [| [m c'] df Hm Hdf IH]; simpl.
  - repeat constructor. assumption.
  - destruct (String.eqb m name); constructor; auto.
Qed.

Lemma aligned_nrows (n : nat) (df : DataFrame) :
  aligned n df -> df <> [] -> nrows df = n.
Proof.
  intros H Hne. destruct H as [| [m c] df Hc _]; [congruence | exact Hc].
Qed.

Lemma setitem_nonempty (df : DataFrame) (name : string) (c : Column) :
  setitem df name c <> [].
Proof.
  destruct df as [| [n c'] df]; simpl; [discriminate |].
  destruct (String.eqb n name); discriminate.
Qed.

Lemma col_length_take (indexer : list nat) (c : Column) :
  col_length (take indexer c) = List.length indexer.
Proof. destruct c; simpl; apply length_map. Qed.

Lemma lookup_take (indexer : list nat) (df : DataFrame) (name : string) :
  lookup name (map (fun nc => (fst nc, take indexer (snd nc))) df)
  = option_map (take indexer) (lookup name df).
Proof.
  induction df as [| [n c] df IH]; simpl; [reflexivity |].
  now destruct (String.eqb n name).
Qed.

Lemma apply_str_ok (f : string -> string) (l : list (option string)) :
  Forall (fun s => s <> None) l -> apply_str f l = Ok (map (option_map f) l).
Proof.
  induction 1 as [| [x |] l Hx Hl IH]; simpl; [reflexivity | | congruence].
  now rewrite IH.
Qed.

(** ** The loader *)

Lemma existsb_columns (name : string) (df : DataFrame) :
  existsb (String.eqb name) (columns df)
  = match lookup name df with Some _ => true | None => false end.
Proof.
  induction df as [| [n c] df IH]; simpl; [reflexivity |].
  rewrite (String.eqb_sym name n). now destruct (String.eqb n name).
Qed.

Lemma messages_differ (m1 m2 : string) :
  (load_error ++ m1)%string <> (missing_error ++ m2)%string.
Proof.
  unfold load_error, missing_error. simpl. discriminate.
Qed.

Lemma missing_columns_In (df : DataFrame) (name : string) :
  In name (missing_columns df) <-> In name required_columns /\ ~ In name (columns df).
Proof.
  unfold missing_columns. rewrite filter_In, existsb_columns, <- lookup_None.
  destruct (lookup name df); simpl; intuition congruence.
Qed.

Section LoaderFacts.
Variable File : Type.
Variable read_csv : File -> exn DataFrame.
Variable to_datetime : Column -> exn (list (option Z)).
Variable SEASON_MAPPING : list (string * string).
Variables str_lower str_strip : string -> string.

Local Abbreviation load :=
  (load_and_validate_data File read_csv to_datetime SEASON_MAPPING str_lower str_strip).
Local Abbreviation body :=
  (load_body File read_csv to_datetime SEASON_MAPPING str_lower str_strip).

(** Either a dataset and no message, or a message and no dataset. *)
Lemma load_body_shape (f : File) r :
  body f = Ok r ->
  (exists df, r = (Some df, None)) \/ (exists msg, r = (None, Some msg)).
Proof.
  unfold load_body, bind. intros H.
  repeat match type of H with
         | context [match ?x with _ => _ end] => destruct x; try discriminate
         end;
    injection H as <-; eauto.
Qed.

Lemma load_shape (f : File) :
  (exists df, load f = (Some df, None)) \/ (exists msg, load f = (None, Some msg)).
Proof.
  unfold load_and_validate_data. destruct (body f) as [r | msg] eqn:E.
  - apply (load_body_shape f r E).
  - right. eauto.
Qed.

Lemma load_read_error (f : File) (msg : string) :
  read_csv f = Raise msg -> load f = (None, Some (load_error ++ msg)%string).
Proof.
  intros H. unfold load_and_validate_data, load_body. now rewrite H.
Qed.

Lemma load_no_timestamp (f : File) (raw : DataFrame) :
  read_csv f = Ok raw -> ~ In "timestamp"%string (columns raw) ->
  load f = (None, Some (load_error ++ "'timestamp'")%string).
Proof.
  intros H Hts. apply lookup_None in Hts.
  unfold load_and_validate_data, load_body. rewrite H. cbn [bind].
  unfold getitem. now rewrite Hts.
Qed.

Lemma load_parse_error (f : File) (raw : DataFrame) (tcol : Column) (msg : string) :
  read_csv f = Ok raw -> lookup "timestamp" raw = Some tcol ->
  to_datetime tcol = Raise msg ->
  load f = (None, Some (load_error ++ msg)%string).
Proof.
  intros H Hts Hp. unfold load_and_validate_data, load_body. rewrite H. cbn [bind].
  unfold getitem. rewrite Hts. cbn [bind]. now rewrite Hp.
Qed.

Lemma missing_columns_setitem (df : DataFrame) (name : string) (c c' : Column) :
  lookup name df = Some c' ->
  missing_columns (setitem df name c) = missing_columns df.
Proof.
  intros H. unfold missing_columns. now rewrite (columns_setitem df name c c' H).
Qed.

Lemma load_missing (f : File) (raw : DataFrame) (tcol : Column) ts :
  read_csv f = Ok raw -> lookup "timestamp" raw = Some tcol ->
  to_datetime tcol = Ok ts ->
  missing_columns raw <> [] ->
  load f = (None,
            Some (missing_error ++ String.concat ", " (missing_columns raw))%string).
Proof.
  intros H Hts Hp Hm. unfold load_and_validate_data, load_body. rewrite H. cbn [bind].
  unfold getitem at 1. rewrite Hts. cbn [bind]. rewrite Hp. cbn [bind].
  rewrite (missing_columns_setitem raw "timestamp" (TimeCol ts) tcol Hts).
  destruct (missing_columns raw); [congruence | reflexivity].
Qed.


End LoaderFacts.

Section LoaderClaims.
Variable File : Type.
Variable read_csv : File -> exn DataFrame.
Variable to_datetime : Column -> exn (list (option Z)).
Variable SEASON_MAPPING : list (string * string).
Variables str_lower str_strip : string -> string.

Local Abbreviation load :=
  (load_and_validate_data File read_csv to_datetime SEASON_MAPPING str_lower str_strip).

(** C3, as the program has it.  The result is either a dataset without a
    message or a message without a dataset.  For a table that has a
    [timestamp] column: when the timestamps do not parse, the message is the
    load-failure text followed by the parser's message; when they parse and
    required columns are missing, the message is the missing-columns text
    followed by exactly the missing required columns, so a table without
    [temperature] gets a message that names [temperature].  The
    temperatures are not looked at. *)
Theorem loader_failures (f : File) :
  ((exists df, load f = (Some df, None)) \/ (exists msg, load f = (None, Some msg)))
  /\ (forall raw tcol,
        read_csv f = Ok raw -> lookup "timestamp" raw = Some tcol ->
        (forall msg, to_datetime tcol = Raise msg ->
                     load f = (None, Some (load_error ++ msg)%string))
        /\ (forall ts, to_datetime tcol = Ok ts -> missing_columns raw <> [] ->
              load f = (None,
                        Some (missing_error
                              ++ String.concat ", " (missing_columns raw))%string)
              /\ forall name,
                  In name (missing_columns raw)
                  <-> In name required_columns /\ ~ In name (columns raw))
        /\ (forall ts, to_datetime tcol = Ok ts ->
              ~ In "temperature"%string (columns raw) ->
              load f = (None,
                        Some (missing_error
                              ++ String.concat ", " (missing_columns raw))%string)
              /\ In "temperature"%string (missing_columns raw))).
Proof.
  split; [apply load_shape |].
  intros raw tcol Hread Hts. split; [| split].
  - intros msg Hp. eapply load_parse_error; eassumption.
  - intros ts Hp Hm. split.
    + eapply load_missing; eassumption.
    + exact (missing_columns_In raw).
  - intros ts Hp Hno.
    assert (Hin : In "temperature"%string (missing_columns raw)).
    { apply missing_columns_In. split; [| exact Hno]. simpl. tauto. }
    split; [| exact Hin].
    eapply load_missing; try eassumption.
    intros E. rewrite E in Hin. exact Hin.
Qed.

(** C10. The loader always returns a pair, a dataset without a message or a
    message without a dataset; a failure of [read_csv] is reported with the
    load-failure text; the timestamps are converted before the columns are
    checked, so a table without a [timestamp] column gets the load-failure
    text followed by the quoted column name, never the missing-columns
    text. *)
Theorem loader_without_timestamp (f : File) :
  ((exists df, load f = (Some df, None)) \/ (exists msg, load f = (None, Some msg)))
  /\ (forall msg, read_csv f = Raise msg ->
                  load f = (None, Some (load_error ++ msg)%string))
  /\ (forall raw,
        read_csv f = Ok raw -> ~ In "timestamp"%string (columns raw) ->
        load f = (None, Some (load_error ++ "'timestamp'")%string)
        /\ forall names,
            load f <> (None, Some (missing_error ++ String.concat ", " names)%string)).
Proof.
  split; [apply load_shape |]. split; [apply load_read_error |].
  intros raw Hread Hts.
  pose proof (load_no_timestamp _ _ to_datetime SEASON_MAPPING str_lower str_strip
                f raw Hread Hts) as H.
  split; [exact H |].
  intros names E. rewrite H in E.
  apply (f_equal (fun p : option DataFrame * option string =>
                    match snd p with Some m => m | None => EmptyString end)) in E.
  exact (messages_differ _ _ E).
Qed.

End LoaderClaims.

Lemma loader_failures_witness :
  sample_load (Ok sample_table_no_temperature)
  = (None, Some "Отсутствуют необходимые колонки: temperature"%string)
  /\ sample_load (Ok sample_table_bad_date)
     = (None,
        Some "Ошибка при загрузке файла: Unknown datetime string format, unable to parse: yesterday"%string).
Proof.
  pose proof (loader_failures (exn DataFrame) sample_read_csv sample_to_datetime
                sample_mapping ascii_str_lower ascii_str_strip) as H.
  split.
  - destruct (H (Ok sample_table_no_temperature)) as [_ Hf].
    destruct (Hf sample_table_no_temperature (StrCol [Some "2020-01-02"%string])
                eq_refl eq_refl) as (_ & _ & Ht).
    assert (Hno : ~ In "temperature"%string (columns sample_table_no_temperature))
      by (simpl; intuition discriminate).
    exact (proj1 (Ht [Some 18263%Z] eq_refl Hno)).
  - destruct (H (Ok sample_table_bad_date)) as [_ Hf].
    destruct (Hf sample_table_bad_date (StrCol [Some "yesterday"%string])
                eq_refl eq_refl) as (Hp & _).
    exact (Hp _ eq_refl).
Defined.

(** C3 as stated fails on a temperature that is not a number: the table is
    accepted and returned with its text in the temperature column. *)
Lemma loader_accepts_text_temperature_counterexample :
  exists df,
    sample_load (Ok sample_table_text_temperature) = (Some df, None)
    /\ lookup "temperature" df = Some (StrCol [Some "cold"%string]).
Proof. eexists. split; reflexivity. Qed.

Lemma loader_without_timestamp_witness :
  sample_load (Ok sample_table_no_timestamp)
  = (None, Some "Ошибка при загрузке файла: 'timestamp'"%string)
  /\ sample_load (Raise "No columns to parse from file")
     = (None, Some "Ошибка при загрузке файла: No columns to parse from file"%string).
Proof.
  pose proof (loader_without_timestamp (exn DataFrame) sample_read_csv
                sample_to_datetime sample_mapping ascii_str_lower ascii_str_strip)
    as H.
  split.
  - destruct (H (Ok sample_table_no_timestamp)) as (_ & _ & Hf).
    assert (Hno : ~ In "timestamp"%string (columns sample_table_no_timestamp))
      by (simpl; intuition discriminate).
    exact (proj1 (Hf sample_table_no_timestamp eq_refl Hno)).
  - destruct (H (Raise "No columns to parse from file"%string)) as (_ & Hr & _).
    exact (Hr _ eq_refl).
Defined.

Lemma nrows_take (indexer : list nat) (df : DataFrame) :
  df <> [] ->
  nrows (map (fun nc => (fst nc, take indexer (snd nc))) df) = List.length indexer.
Proof.
  destruct df as [| [n c] df]; [congruence |]. intros _. simpl. apply col_length_take.
Qed.

Lemma Forall_present_map (f : string -> string) (l : list (option string)) :
  Forall (fun s => s <> None) l -> Forall (fun s => s <> None) (map (option_map f) l).
Proof.
  induction 1 as [| [x |] l Hx Hl IH]; simpl; constructor; auto; discriminate.
Qed.

Lemma cell_at_take (indexer : list nat) (c : Column) (j : nat) :
  j < List.length indexer ->
  cell_at (take indexer c) j = cell_at c (nth j indexer 0).
Proof.
  intros Hj. destruct c as [l | l | l]; simpl; f_equal.
  - rewrite (nth_indep _ None (nth 0 l None)) by now rewrite length_map.
    apply (map_nth (fun i => nth i l None)).
  - rewrite (nth_indep _ nan (nth 0 l nan)) by now rewrite length_map.
    apply (map_nth (fun i => nth i l nan)).
  - rewrite (nth_indep _ None (nth 0 l None)) by now rewrite length_map.
    apply (map_nth (fun i => nth i l None)).
Qed.

Lemma map_nth_seq (l : list nat) :
  map (fun j => nth j l 0) (seq 0 (List.length l)) = l.
Proof.
  induction l as [| x l IH]; [reflexivity |].
  cbn [List.length seq map nth]. f_equal.
  rewrite <- seq_shift, map_map. exact IH.
Qed.

(** The rows of a frame rearranged by an indexer are the rows of the frame
    at the positions of the indexer. *)
Lemma rows_take (indexer : list nat) (df : DataFrame) :
  df <> [] ->
  rows (map (fun nc => (fst nc, take indexer (snd nc))) df)
  = map (row df) indexer.
Proof.
  intros Hne. unfold rows. rewrite (nrows_take indexer df Hne).
  rewrite <- (map_nth_seq indexer) at 2. rewrite map_map.
  apply map_ext_in. intros j Hj. apply in_seq in Hj.
  unfold row. rewrite map_map. apply map_ext. intros [n c]. cbn [snd].
  apply cell_at_take. lia.
Qed.

Section LoaderSorting.
Variable File : Type.
Variable read_csv : File -> exn DataFrame.
Variable to_datetime : Column -> exn (list (option Z)).
Variable SEASON_MAPPING : list (string * string).
Variables str_lower str_strip : string -> string.

Local Abbreviation load :=
  (load_and_validate_data File read_csv to_datetime SEASON_MAPPING str_lower str_strip).


Lemma load_valid (f : File) (raw : DataFrame) cities tcol ts tempcol seasons :
  read_csv f = Ok raw ->
  lookup "city" raw = Some (StrCol cities) ->
  lookup "timestamp" raw = Some tcol ->
  to_datetime tcol = Ok ts ->
  lookup "temperature" raw = Some tempcol ->
  lookup "season" raw = Some (StrCol seasons) ->
  Forall (fun s => s <> None) seasons ->
  load f
  = (Some (map (fun nc => (fst nc,
                           take (loader_indexer
                                   (nrows (prepared SEASON_MAPPING str_lower str_strip
                                             raw ts seasons))
                                   cities ts)
                                (snd nc)))
               (prepared SEASON_MAPPING str_lower str_strip raw ts seasons)),
     None).
Proof.
  intros Hread Hcity Hts Hp Htemp Hseason Hsome.
  unfold load_and_validate_data, load_body. rewrite Hread. cbn [bind].
  unfold getitem at 1. rewrite Hts. cbn [bind]. rewrite Hp. cbn [bind].
  rewrite (missing_columns_setitem raw "timestamp" (TimeCol ts) tcol Hts).
  assert (Hm : missing_columns raw = []).
  { unfold missing_columns, required_columns. cbn [filter].
    now rewrite !existsb_columns, Hcity, Hts, Htemp, Hseason. }
  rewrite Hm.
  unfold getitem at 1. rewrite lookup_setitem_other, Hseason by discriminate.
  cbn [bind str_accessor].
  unfold getitem at 1. rewrite lookup_setitem_same. cbn [bind series_apply].
  rewrite apply_str_ok by (do 2 apply Forall_present_map; exact Hsome).
  cbn [bind]. fold (prepared SEASON_MAPPING str_lower str_strip raw ts seasons).
  unfold sort_values. cbn [getitems bind]. unfold getitem.
  assert (Hc : lookup "city" (prepared SEASON_MAPPING str_lower str_strip raw ts seasons)
               = Some (StrCol cities)).
  { unfold prepared. now rewrite !lookup_setitem_other by discriminate. }
  assert (Ht : lookup "timestamp"
                 (prepared SEASON_MAPPING str_lower str_strip raw ts seasons)
               = Some (TimeCol ts)).
  { unfold prepared. rewrite !lookup_setitem_other by discriminate.
    apply lookup_setitem_same. }
  rewrite Hc, Ht. cbn [bind]. reflexivity.
Qed.

Lemma prepared_nrows (raw : DataFrame) tcol ts seasons :
  aligned (nrows raw) raw ->
  lookup "timestamp" raw = Some tcol ->
  List.length ts = col_length tcol ->
  lookup "season" raw = Some (StrCol seasons) ->
  nrows (prepared SEASON_MAPPING str_lower str_strip raw ts seasons) = nrows raw.
Proof.
  intros Hal Hts Hlen Hseason.
  assert (Hall : forall name c, lookup name raw = Some c -> col_length c = nrows raw).
  { intros name c H. apply lookup_In in H. unfold aligned in Hal.
    rewrite Forall_forall in Hal. apply (Hal _ H). }
  apply aligned_nrows; [| apply setitem_nonempty].
  unfold prepared. repeat apply aligned_setitem; try assumption; simpl.
  - rewrite Hlen. apply (Hall _ _ Hts).
  - rewrite !length_map. apply (Hall _ _ Hseason).
  - rewrite !length_map. apply (Hall _ _ Hseason).
Qed.

(** C4. For a valid table (the four columns present and of equal length,
    cities and seasons text, no season missing, timestamps that parse) the
    loader returns a dataset with as many rows as the table; its rows are
    the rows of the table taken in the order of a permutation of their
    positions; in that order the keys (city, timestamp) ascend, and of two
    rows with equal keys the one that comes first in the table comes
    first. *)
Theorem loader_output_is_sorted_and_stable
  (f : File) (raw : DataFrame) cities tcol ts tempcol seasons :
  read_csv f = Ok raw ->
  aligned (nrows raw) raw ->
  lookup "city" raw = Some (StrCol cities) ->
  lookup "timestamp" raw = Some tcol ->
  to_datetime tcol = Ok ts ->
  List.length ts = col_length tcol ->
  lookup "temperature" raw = Some tempcol ->
  lookup "season" raw = Some (StrCol seasons) ->
  Forall (fun s => s <> None) seasons ->
  let key := loader_key cities ts in
  exists out indexer,
    load f = (Some out, None)
    /\ nrows out = nrows raw
    /\ Permutation indexer (seq 0 (nrows raw))
    /\ rows out
       = map (row (prepared SEASON_MAPPING str_lower str_strip raw ts seasons)) indexer
    /\ lookup "timestamp" out = Some (take indexer (TimeCol ts))
    /\ (forall name c,
          lookup name raw = Some c ->
          name <> "timestamp"%string -> name <> "season"%string ->
          name <> "season_ru"%string ->
          lookup name out = Some (take indexer c))
    /\ (forall a b,
          a < b < nrows raw ->
          key_le (key (nth a indexer 0)) (key (nth b indexer 0)) = true
          /\ (key_le (key (nth b indexer 0)) (key (nth a indexer 0)) = true ->
              nth a indexer 0 < nth b indexer 0)).
Proof.
  intros Hread Hal Hcity Hts Hp Hlen Htemp Hseason Hsome key.
  pose proof (load_valid f raw cities tcol ts tempcol seasons
                Hread Hcity Hts Hp Htemp Hseason Hsome) as Hload.
  rewrite (prepared_nrows raw tcol ts seasons Hal Hts Hlen Hseason) in Hload.
  set (indexer := loader_indexer (nrows raw) cities ts) in *.
  assert (Hidx : List.length indexer = nrows raw).
  { unfold indexer, loader_indexer. now rewrite sort_length, length_seq. }
  eexists. exists indexer. split; [exact Hload |].
  split; [| split; [| split; [| split; [| split]]]].
  - rewrite nrows_take; [exact Hidx | apply setitem_nonempty].
  - apply sort_perm.
  - apply rows_take, setitem_nonempty.
  - rewrite lookup_take. unfold prepared.
    rewrite !lookup_setitem_other by discriminate.
    now rewrite lookup_setitem_same.
  - intros name c Hc H1 H2 H3. rewrite lookup_take. unfold prepared.
    now rewrite !lookup_setitem_other, Hc by assumption.
  - intros a b Hab.
    apply (StronglySorted_nth (before (fun i j => key_le (key i) (key j))));
      [| lia].
    apply sort_before.
    + intros x y. apply loader_key_total.
    + intros x y z. apply loader_key_trans.
    + apply seq_increasing.
Qed.

End LoaderSorting.

Lemma loader_output_is_sorted_and_stable_witness :
  exists out indexer,
    sample_load (Ok sample_table) = (Some out, None)
    /\ nrows out = 4
    /\ Permutation indexer (seq 0 4)
    /\ lookup "temperature" out = Some (take indexer (NumCol [-7; 1; -5; 2]%float)).
Proof.
  destruct (loader_output_is_sorted_and_stable
              (exn DataFrame) sample_read_csv sample_to_datetime
              sample_mapping ascii_str_lower ascii_str_strip
              (Ok sample_table) sample_table
              [Some "Moscow"; Some "Berlin"; Some "Moscow"; Some "Berlin"]%string
              (StrCol [Some "2020-01-02"; Some "2020-01-01";
                       Some "2020-01-01"; Some "2020-01-01"]%string)
              [Some 18263; Some 18262; Some 18262; Some 18262]%Z
              (NumCol [-7; 1; -5; 2]%float)
              [Some " Winter"; Some "winter"; Some "WINTER "; Some "winter"]%string)
    as (out & indexer & Hload & Hn & Hperm & _ & _ & Hcols & _);
    try reflexivity.
  - repeat constructor.
  - repeat constructor; discriminate.
  - exists out, indexer. repeat split; try assumption.
    apply Hcols; [reflexivity | discriminate ..].
Defined.

(** ** The analyser on the store *)

Lemma nth_error_new (h : store) (f : Frame) :
  nth_error (h ++ [f]) (List.length h) = Some f.
Proof. rewrite nth_error_app2, Nat.sub_diag by lia. reflexivity. Qed.

Lemma nth_error_old (h t : store) (r : ref) :
  r < List.length h -> nth_error (h ++ t) r = nth_error h r.
Proof. intros H. now apply nth_error_app1. Qed.

Lemma update_new (h : store) (f g : Frame) :
  update (h ++ [f]) (List.length h) g = h ++ [g].
Proof. induction h as [| x h IH]; simpl; [reflexivity | now rewrite IH]. Qed.

Lemma bind_ok {A B : Type} (c : ST A) (k : A -> ST B) (h h' : store) (a : A) :
  c h = Ok (a, h') -> st_bind c k h = k a h'.
Proof. unfold st_bind. now intros ->. Qed.

Lemma deref_ok (h : store) (r : ref) (f : Frame) :
  nth_error h r = Some f -> deref r h = Ok (f, h).
Proof. unfold deref. now intros ->. Qed.

Lemma df_copy_ok (h : store) (r : ref) (f : Frame) :
  nth_error h r = Some f -> df_copy r h = Ok (List.length h, h ++ [f]).
Proof. intros H. unfold df_copy. now rewrite (bind_ok _ _ _ _ _ (deref_ok _ _ _ H)). Qed.

Lemma df_enriched_ok (h : store) (r : ref) (l : list EnrichedObservation) :
  nth_error h r = Some (FEnriched l) -> df_enriched r h = Ok (l, h).
Proof.
  intros H. unfold df_enriched. now rewrite (bind_ok _ _ _ _ _ (deref_ok _ _ _ H)).
Qed.

Section StoreFacts.
Context {pandas : Pandas}.
Variable SEASON_MAPPING : list (string * string).
Variable ANOMALY_THRESHOLD : float.
Variable ROLLING_WINDOW : nat.
Variable str_lower : string -> string.

Local Abbreviation K := ANOMALY_THRESHOLD.
Local Abbreviation analyze :=
  (analyze_city_data SEASON_MAPPING ANOMALY_THRESHOLD ROLLING_WINDOW str_lower).
Local Abbreviation analyze_st :=
  (analyze_city_data_st SEASON_MAPPING ANOMALY_THRESHOLD ROLLING_WINDOW str_lower).

(** One turn of the loop makes three new frames and touches no other. *)
Lemma df_season_step_ok (h : store) (c : ref) (e : list EnrichedObservation)
  (acc : list ref) (s : string) :
  nth_error h c = Some (FEnriched e) ->
  exists f,
    df_season_step K c acc s h
    = Ok (if Nat.ltb 0 (List.length (season_anomalies K e s))
          then acc ++ [S (S (List.length h))] else acc,
          h ++ [FEnriched (season_data e s)]
            ++ [FEnriched (outside
                             (season_lower_bound K e s) (season_upper_bound K e s)
                             (season_data e s))]
            ++ [f])
    /\ (Nat.ltb 0 (List.length (season_anomalies K e s)) = true ->
        f = FAnomalies (season_anomalies K e s)).
Proof.
  intros Hc. unfold df_season_step.
  set (sd := season_data e s).
  set (lower := season_lower_bound K e s). set (upper := season_upper_bound K e s).
  set (m := outside lower upper sd).
  assert (Hlen : List.length (season_anomalies K e s) = List.length m).
  { unfold season_anomalies, anomaly_columns. now rewrite length_map. }
  unfold df_season_data, df_temperature, df_outside, df_copy, df_len,
    df_set_anomaly_columns, df_enriched, deref, new_frame, assign, st_bind, st_ret.
  rewrite Hc. cbv beta iota.
  change (season_data e s) with sd.
  rewrite nth_error_new. cbv beta iota.
  change (Series.mean nanmean (map temp sd) - K * Series.std nanstd (map temp sd))%float with lower.
  change (Series.mean nanmean (map temp sd) + K * Series.std nanstd (map temp sd))%float with upper.
  rewrite nth_error_new. cbv beta iota. change (outside lower upper sd) with m.
  rewrite nth_error_new. cbv beta iota.
  rewrite nth_error_new. cbv beta iota.
  assert (Href : List.length ((h ++ [FEnriched sd]) ++ [FEnriched m])
                 = S (S (List.length h))).
  { rewrite !length_app. simpl. lia. }
  rewrite Hlen.
  destruct (Nat.ltb 0 (List.length m)) eqn:E.
  - exists (FAnomalies (season_anomalies K e s)). split; [| reflexivity].
    rewrite nth_error_new. cbv beta iota.
    rewrite update_new, Href. rewrite <- !app_assoc. reflexivity.
  - exists (FEnriched m). split; [| discriminate].
    rewrite <- !app_assoc. reflexivity.
Qed.

Lemma denote_grow (h t : store) refs frames :
  denote h refs frames -> denote (h ++ t) refs frames.
Proof.
  unfold denote. induction 1 as [| r l refs frames Hr _ IH]; constructor; auto.
  rewrite nth_error_old; [exact Hr |]. apply nth_error_Some. congruence.
Qed.

Lemma denote_snoc (h : store) refs frames r l :
  denote h refs frames -> nth_error h r = Some (FAnomalies l) ->
  denote h (refs ++ [r]) (frames ++ [l]).
Proof.
  unfold denote. intros H Hr. apply Forall2_app; [exact H |]. now repeat constructor.
Qed.

(** The loop makes new frames only; the references it collects denote the
    flagged rows of the seasons, in the order of the seasons. *)
Lemma df_season_loop_ok (c : ref) (e : list EnrichedObservation) (ks : list string) :
  forall (h : store) (acc : list ref) (frames : list (list Anomaly)),
    nth_error h c = Some (FEnriched e) ->
    denote h acc frames ->
    exists acc' frames' ext,
      df_season_loop K c ks acc h = Ok (acc', h ++ ext)
      /\ denote (h ++ ext) acc' frames'
      /\ List.concat frames'
         = List.concat frames ++ flat_map (season_anomalies K e) ks.
Proof.
  induction ks as [| k ks IH]; intros h acc frames Hc Hacc.
  - exists acc, frames, []. simpl. unfold st_ret. rewrite !app_nil_r. auto.
  - destruct (df_season_step_ok h c e acc k Hc) as (f & Hstep & Hf).
    cbn [df_season_loop]. rewrite (bind_ok _ _ _ _ _ Hstep).
    set (h1 := h ++ [FEnriched (season_data e k)]
                 ++ [FEnriched (outside (season_lower_bound K e k)
                                        (season_upper_bound K e k)
                                        (season_data e k))]
                 ++ [f]) in *.
    assert (Hc1 : nth_error h1 c = Some (FEnriched e)).
    { unfold h1. rewrite nth_error_old; [exact Hc |].
      apply nth_error_Some. congruence. }
    destruct (Nat.ltb 0 (List.length (season_anomalies K e k))) eqn:E.
    + assert (Hnew : nth_error h1 (S (S (List.length h)))
                     = Some (FAnomalies (season_anomalies K e k))).
      { unfold h1. rewrite (Hf eq_refl). rewrite nth_error_app2 by lia.
        replace (S (S (List.length h)) - List.length h) with 2 by lia. reflexivity. }
      destruct (IH h1 (acc ++ [S (S (List.length h))])
                  (frames ++ [season_anomalies K e k]) Hc1)
        as (acc' & frames' & ext & Hloop & Hden & Hcat).
      { apply denote_snoc; [now apply denote_grow | exact Hnew]. }
      exists acc', frames', (skipn (List.length h) h1 ++ ext).
      assert (Hh1 : h ++ skipn (List.length h) h1 ++ ext = h1 ++ ext).
      { unfold h1. rewrite skipn_app, skipn_all, Nat.sub_diag. simpl.
        now rewrite <- !app_assoc. }
      rewrite Hh1. repeat split; try assumption.
      rewrite Hcat, concat_app. simpl. now rewrite app_nil_r, <- app_assoc.
    + destruct (IH h1 acc frames Hc1) as (acc' & frames' & ext & Hloop & Hden & Hcat).
      { now apply denote_grow. }
      exists acc', frames', (skipn (List.length h) h1 ++ ext).
      assert (Hh1 : h ++ skipn (List.length h) h1 ++ ext = h1 ++ ext).
      { unfold h1. rewrite skipn_app, skipn_all, Nat.sub_diag. simpl.
        now rewrite <- !app_assoc. }
      rewrite Hh1. repeat split; try assumption.
      assert (Hnil : season_anomalies K e k = []).
      { apply Nat.ltb_ge in E.
        destruct (season_anomalies K e k); [reflexivity | simpl in E; lia]. }
      rewrite Hcat. cbn [flat_map]. now rewrite Hnil.
Qed.

Lemma pd_concat_ok (h : store) refs frames :
  denote h refs frames ->
  st_map df_anomalies refs h = Ok (frames, h).
Proof.
  unfold denote. induction 1 as [| r l refs frames Hr _ IH]; [reflexivity |].
  cbn [st_map]. unfold df_anomalies at 1.
  rewrite (bind_ok _ _ _ _ _ (bind_ok _ _ _ _ _ (deref_ok _ _ _ Hr))).
  unfold st_ret at 1. rewrite (bind_ok _ _ _ _ _ IH). reflexivity.
Qed.

Lemma df_sort_ok (h : store) (r : ref) (l : list Observation) :
  nth_error h r = Some (FObservations l) ->
  df_sort_by_timestamp r h
  = Ok (List.length h, h ++ [FObservations (sort_by_timestamp l)]).
Proof.
  intros H. unfold df_sort_by_timestamp.
  now rewrite (bind_ok _ _ _ _ _ (deref_ok _ _ _ H)).
Qed.

Lemma df_temperature_ok (h : store) (r : ref) (l : list Observation) :
  nth_error h r = Some (FObservations l) ->
  df_temperature r h = Ok (map temperature l, h).
Proof.
  intros H. unfold df_temperature.
  now rewrite (bind_ok _ _ _ _ _ (deref_ok _ _ _ H)).
Qed.

Lemma df_set_rolling_mean_ok (h : store) (r : ref) (l : list Observation) col :
  nth_error h r = Some (FObservations l) ->
  df_set_rolling_mean r col h
  = Ok (tt, update h r (FEnriched (with_rolling_mean l col))).
Proof.
  intros H. unfold df_set_rolling_mean.
  now rewrite (bind_ok _ _ _ _ _ (deref_ok _ _ _ H)).
Qed.

Lemma df_groupby_ok (h : store) (r : ref) (l : list EnrichedObservation) :
  nth_error h r = Some (FEnriched l) ->
  df_groupby_season_agg r h
  = Ok (List.length h, h ++ [FGroups (groupby_season_agg l)]).
Proof.
  intros H. unfold df_groupby_season_agg.
  now rewrite (bind_ok _ _ _ _ _ (df_enriched_ok _ _ _ H)).
Qed.

Lemma df_set_season_ru_ok (h : store) (r : ref) (l : list GroupStats) :
  nth_error h r = Some (FGroups l) ->
  df_set_season_ru SEASON_MAPPING str_lower r h
  = Ok (tt, update h r (FStats (map (with_season_ru SEASON_MAPPING str_lower) l))).
Proof.
  intros H. unfold df_set_season_ru.
  now rewrite (bind_ok _ _ _ _ _ (deref_ok _ _ _ H)).
Qed.

Lemma df_unique_seasons_ok (h : store) (r : ref) (l : list EnrichedObservation) :
  nth_error h r = Some (FEnriched l) ->
  df_unique_seasons r h = Ok (Series.unique (map season_of l), h).
Proof.
  intros H. unfold df_unique_seasons.
  now rewrite (bind_ok _ _ _ _ _ (df_enriched_ok _ _ _ H)).
Qed.

(** A call of the analyser on the store: what it returns and what it
    leaves. *)
Lemma analyze_st_ok (h : store) (r : ref) (city_df : list Observation) :
  nth_error h r = Some (FObservations city_df) ->
  1 <= ROLLING_WINDOW ->
  exists e s a r1 r2 r3 h',
    analyze city_df = Ok (e, s, a)
    /\ analyze_st r h = Ok ((r1, r2, r3), h')
    /\ (forall l, l < List.length h -> nth_error h' l = nth_error h l)
    /\ nth_error h' r = Some (FObservations city_df)
    /\ List.length h <= r1 /\ List.length h <= r2 /\ List.length h <= r3
    /\ r1 <> r2 /\ r1 <> r3 /\ r2 <> r3
    /\ nth_error h' r1 = Some (FEnriched e)
    /\ nth_error h' r2 = Some (FStats s)
    /\ nth_error h' r3 = Some (FAnomalies a).
Proof.
  intros Hr Hw.
  destruct (analyze_ok SEASON_MAPPING K ROLLING_WINDOW str_lower city_df Hw)
    as (e & s & a & H).
  pose proof (analyze_inv _ _ _ _ _ _ _ _ H) as (_ & He & Hs & Ha).
  cbv zeta in He.
  set (sorted := sort_by_timestamp city_df) in *.
  set (col := Series.roll_mean (Series.prep_values (map temperature sorted))
                               ROLLING_WINDOW 1) in *.
  set (h1 := h ++ [FObservations sorted]).
  set (h2 := h1 ++ [FObservations sorted]).
  set (h2' := h1 ++ [FEnriched e]).
  set (h3 := h2' ++ [FGroups (groupby_season_agg e)]).
  set (h3' := h2' ++ [FStats s]).
  assert (Hc : nth_error h3' (List.length h1) = Some (FEnriched e)).
  { unfold h3'. rewrite nth_error_old by (unfold h2'; rewrite length_app; simpl; lia).
    apply nth_error_new. }
  destruct (df_season_loop_ok (List.length h1) e (Series.unique (map season_of e))
              h3' [] [] Hc) as (acc & frames & ext & Hloop & Hden & Hcat);
    [constructor |].
  simpl in Hcat. rewrite <- Ha in Hcat.
  assert (Hrun : analyze_st r h
                 = Ok ((List.length h1, List.length h2', List.length (h3' ++ ext)),
                       (h3' ++ ext) ++ [FAnomalies a])).
  { assert (N1 : nth_error h1 (List.length h) = Some (FObservations sorted))
      by apply nth_error_new.
    assert (N2 : nth_error h2 (List.length h1) = Some (FObservations sorted))
      by apply nth_error_new.
    assert (N2' : nth_error h2' (List.length h1) = Some (FEnriched e))
      by apply nth_error_new.
    assert (N3 : nth_error h3 (List.length h2')
                 = Some (FGroups (groupby_season_agg e)))
      by apply nth_error_new.
    unfold analyze_city_data_st.
    rewrite (bind_ok _ _ _ _ _ (df_sort_ok _ _ _ Hr)). fold sorted. fold h1.
    rewrite (bind_ok _ _ _ _ _ (df_copy_ok h1 _ _ N1)). fold h2.
    rewrite (bind_ok _ _ _ _ _ (df_temperature_ok h2 _ _ N2)).
    unfold Series.rolling_mean.
    destruct (Nat.ltb_spec ROLLING_WINDOW 1) as [Hlt | _]; [lia |].
    unfold st_lift at 1. unfold st_bind at 1. fold col.
    rewrite (bind_ok _ _ _ _ _ (df_set_rolling_mean_ok h2 _ _ col N2)).
    unfold h2 at 1. rewrite update_new, <- He. fold h2'.
    rewrite (bind_ok _ _ _ _ _ (df_groupby_ok h2' _ _ N2')). fold h3.
    rewrite (bind_ok _ _ _ _ _ (df_set_season_ru_ok h3 _ _ N3)).
    unfold h3 at 1. rewrite update_new, <- Hs. fold h3'.
    rewrite (bind_ok _ _ _ _ _ (df_unique_seasons_ok _ _ _ Hc)).
    rewrite (bind_ok _ _ _ _ _ Hloop).
    assert (Hlast : match acc with
                    | [] => new_frame (FAnomalies [])
                    | _ :: _ => pd_concat acc
                    end (h3' ++ ext)
                    = Ok (List.length (h3' ++ ext), (h3' ++ ext) ++ [FAnomalies a])).
    { destruct acc as [| r0 acc].
      - inversion Hden; subst. unfold new_frame. now rewrite <- Hcat.
      - unfold pd_concat. rewrite (bind_ok _ _ _ _ _ (pd_concat_ok _ _ _ Hden)).
        unfold new_frame. now rewrite Hcat. }
    rewrite (bind_ok _ _ _ _ _ Hlast). reflexivity. }
  assert (L1 : List.length h1 = S (List.length h))
    by (unfold h1; rewrite length_app; simpl; lia).
  assert (L2 : List.length h2' = S (S (List.length h)))
    by (unfold h2'; rewrite length_app; simpl; lia).
  assert (L3 : List.length h3' = S (S (S (List.length h))))
    by (unfold h3'; rewrite length_app; simpl; lia).
  assert (Hold : forall l, l < List.length h ->
                           nth_error ((h3' ++ ext) ++ [FAnomalies a]) l = nth_error h l).
  { intros l Hl. unfold h3', h2', h1. rewrite <- !app_assoc. now apply nth_error_old. }
  exists e, s, a, (List.length h1), (List.length h2'), (List.length (h3' ++ ext)),
    ((h3' ++ ext) ++ [FAnomalies a]).
  split; [exact H |]. split; [exact Hrun |]. split; [exact Hold |].
  split; [rewrite Hold; [exact Hr | apply nth_error_Some; congruence] |].
  rewrite length_app, L1, L2, L3.
  repeat split; try lia.
  - rewrite <- L1, <- app_assoc, nth_error_old by lia. exact Hc.
  - rewrite <- L2, <- app_assoc, nth_error_old by lia.
    unfold h3'. apply nth_error_new.
  - replace (S (S (S (List.length h))) + List.length ext)
      with (List.length (h3' ++ ext)) by (rewrite length_app; lia).
    apply nth_error_new.
Qed.

(** C9. The analyser changes no object that exists when it is called, the
    caller's frame among them; the three frames it returns are objects made
    during the call, distinct from one another, and hold the enriched
    series, the statistics and the anomalies. *)
Theorem analysis_leaves_the_callers_data_unchanged
  (h : store) (r : ref) (city_df : list Observation) :
  nth_error h r = Some (FObservations city_df) ->
  1 <= ROLLING_WINDOW ->
  exists e s a r1 r2 r3 h',
    analyze city_df = Ok (e, s, a)
    /\ analyze_st r h = Ok ((r1, r2, r3), h')
    /\ (forall l, l < List.length h -> nth_error h' l = nth_error h l)
    /\ nth_error h' r = Some (FObservations city_df)
    /\ List.length h <= r1 /\ List.length h <= r2 /\ List.length h <= r3
    /\ r1 <> r2 /\ r1 <> r3 /\ r2 <> r3
    /\ nth_error h' r1 = Some (FEnriched e)
    /\ nth_error h' r2 = Some (FStats s)
    /\ nth_error h' r3 = Some (FAnomalies a).
Proof. exact (analyze_st_ok h r city_df). Qed.


End StoreFacts.

Lemma analysis_leaves_the_callers_data_unchanged_witness :
  nth_error [FObservations sample_city] 0 = Some (FObservations sample_city)
  /\ 1 <= sample_window
  /\ exists r1 r2 r3 h',
      analyze_city_data_st (pandas := sample_pandas) sample_mapping sample_threshold sample_window
        ascii_str_lower 0 [FObservations sample_city]
      = Ok ((r1, r2, r3), h')
      /\ nth_error h' 0 = Some (FObservations sample_city)
      /\ 1 <= r1 /\ 1 <= r2 /\ 1 <= r3.
Proof.
  assert (Hr : nth_error [FObservations sample_city] 0
               = Some (FObservations sample_city)) by reflexivity.
  assert (Hw : 1 <= sample_window) by (unfold sample_window; lia).
  split; [exact Hr |]. split; [exact Hw |].
  destruct (analysis_leaves_the_callers_data_unchanged
              (pandas := sample_pandas)
              sample_mapping sample_threshold sample_window ascii_str_lower
              [FObservations sample_city] 0 sample_city Hr Hw)
    as (e & s & a & r1 & r2 & r3 & h' & _ & Hrun & _ & Hsame & H1 & H2 & H3 & _).
  exists r1, r2, r3, h'. repeat split; assumption.
Defined.


(** * Further properties *)

(** ** The order of the enriched series *)

Section SeriesOrder.
Context {pandas : Pandas}.
Variable SEASON_MAPPING : list (string * string).
Variable ANOMALY_THRESHOLD : float.
Variable ROLLING_WINDOW : nat.
Variable str_lower : string -> string.

Local Abbreviation analyze :=
  (analyze_city_data SEASON_MAPPING ANOMALY_THRESHOLD ROLLING_WINDOW str_lower).

(** X1. The series the analyser returns is in ascending order of timestamp,
    the rows without a timestamp last. *)
Theorem enriched_series_is_in_time_order (city_df : list Observation) :
  1 <= ROLLING_WINDOW ->
  exists e s a,
    analyze city_df = Ok (e, s, a)
    /\ StronglySorted
         (fun r1 r2 => time_le (timestamp (obs r1)) (timestamp (obs r2)) = true) e.
Proof.
  intros Hw.
  destruct (analyze_ok SEASON_MAPPING ANOMALY_THRESHOLD ROLLING_WINDOW str_lower
              city_df Hw) as (e & s & a & H).
  exists e, s, a. split; [exact H |].
  apply (StronglySorted_map obs
           (fun a b => time_le (timestamp a) (timestamp b) = true)).
  rewrite (analyze_obs _ _ _ _ _ _ _ _ H). apply sort_by_timestamp_sorted.
Qed.

(** X2. On a series whose timestamps strictly ascend the sort of the
    analyser changes nothing: the enriched series is the input, row for row,
    with the rolling mean beside it. *)
Theorem sorted_input_keeps_its_order (city_df : list Observation) e s a :
  StronglySorted
    (fun o1 o2 => time_le (timestamp o1) (timestamp o2) = true
                  /\ time_le (timestamp o2) (timestamp o1) = false) city_df ->
  analyze city_df = Ok (e, s, a) ->
  map obs e = city_df.
Proof.
  intros Hs H. rewrite (analyze_obs _ _ _ _ _ _ _ _ H).
  now apply sort_by_timestamp_id.
Qed.

End SeriesOrder.

Lemma enriched_series_is_in_time_order_witness :
  1 <= sample_window
  /\ exists e s a,
       sample_analyze sample_city = Ok (e, s, a)
       /\ StronglySorted
            (fun r1 r2 => time_le (timestamp (obs r1)) (timestamp (obs r2)) = true) e.
Proof.
  assert (Hw : 1 <= sample_window) by (unfold sample_window; lia).
  split; [exact Hw |].
  exact (enriched_series_is_in_time_order
           (pandas := sample_pandas)
            sample_mapping sample_threshold sample_window ascii_str_lower
           sample_city Hw).
Defined.

Lemma sorted_input_keeps_its_order_witness :
  exists e s a,
    sample_analyze sample_winter = Ok (e, s, a) /\ map obs e = sample_winter.
Proof.
  eexists _, _, _. split; [reflexivity |].
  eapply (sorted_input_keeps_its_order
            (pandas := sample_pandas)
            sample_mapping sample_threshold sample_window ascii_str_lower
            sample_winter).
  - repeat constructor.
  - reflexivity.
Defined.

(** ** The window of the rolling mean *)

(** X4. With a window of one observation the rolling mean of a row is its
    temperature when that is a finite number, and NaN when the temperature
    is missing or infinite. *)
Theorem rolling_mean_of_window_one_is_the_temperature {pandas : Pandas}
  (SEASON_MAPPING : list (string * string)) (ANOMALY_THRESHOLD : float)
  (str_lower : string -> string) (city_df : list Observation) :
  exists e s a,
    analyze_city_data SEASON_MAPPING ANOMALY_THRESHOLD 1 str_lower city_df
    = Ok (e, s, a)
    /\ forall r, In r e ->
         (is_finite (temp r) = true -> rolling_mean r = temp r)
         /\ (is_finite (temp r) = false -> rolling_mean r = nan).
Proof.
  destruct (analyze_ok SEASON_MAPPING ANOMALY_THRESHOLD 1 str_lower city_df)
    as (e & s & a & H); [lia |].
  exists e, s, a. split; [exact H |].
  intros r Hr. apply In_nth_error in Hr. destruct Hr as [i Hi].
  rewrite (rolling_entry _ _ _ _ _ _ _ _ _ _ H Hi).
  assert (Hlt : i < List.length (map temp e)).
  { rewrite length_map. apply nth_error_Some. congruence. }
  rewrite (roll_mean_window_one _ _ Hlt).
  apply (map_nth_error temp) in Hi. rewrite (nth_error_nth _ _ nan Hi).
  split; intros ->; reflexivity.
Qed.

(** ** What is flagged *)

Lemma filter_cover {A : Type} (p q : A -> bool) (l : list A) :
  (forall x, In x l -> p x = true \/ q x = true) ->
  List.length l <= List.length (filter p l) + List.length (filter q l).
Proof.
  induction l as [| x l IH]; intros H; simpl; [lia |].
  assert (Hl : List.length l <= List.length (filter p l) + List.length (filter q l)).
  { apply IH. intros y Hy. apply H. now right. }
  destruct (H x (or_introl eq_refl)) as [Hp | Hq].
  - rewrite Hp. destruct (q x); simpl; lia.
  - rewrite Hq. destruct (p x); simpl; lia.
Qed.

Section Flagged.
Context {pandas : Pandas}.
Variable SEASON_MAPPING : list (string * string).
Variable ANOMALY_THRESHOLD : float.
Variable ROLLING_WINDOW : nat.
Variable str_lower : string -> string.

Local Abbreviation analyze :=
  (analyze_city_data SEASON_MAPPING ANOMALY_THRESHOLD ROLLING_WINDOW str_lower).
Local Abbreviation K := ANOMALY_THRESHOLD.

Lemma anomaly_of_result (city_df : list Observation) e s a x :
  analyze city_df = Ok (e, s, a) -> In x a ->
  exists k, In x (season_anomalies K e k).
Proof.
  intros H Hx. apply analyze_inv in H. destruct H as (_ & _ & _ & Ha).
  rewrite Ha in Hx. apply in_flat_map in Hx. destruct Hx as (k & _ & Hx). eauto.
Qed.

(** X5. An observation without a temperature is never flagged. *)
Theorem missing_temperature_is_never_flagged (city_df : list Observation) :
  1 <= ROLLING_WINDOW ->
  exists e s a,
    analyze city_df = Ok (e, s, a)
    /\ forall x, In x a -> Series.isna (temp (a_row x)) = false.
Proof.
  intros Hw.
  destruct (analyze_ok SEASON_MAPPING K ROLLING_WINDOW str_lower city_df Hw)
    as (e & s & a & H).
  exists e, s, a. split; [exact H |].
  intros x Hx. destruct (anomaly_of_result _ _ _ _ _ H Hx) as [k Hk].
  apply season_anomalies_fields in Hk. destruct Hk as (_ & _ & Hout & _).
  unfold Series.isna. destruct (is_nan (temp (a_row x))) eqn:E; [| reflexivity].
  apply FloatFacts.is_nan_iff in E. unfold is_anomalous in Hout.
  rewrite E, FloatFacts.ltb_nan_l, FloatFacts.ltb_nan_r in Hout. discriminate.
Qed.

(** X6. Every anomaly is strictly above the upper bound it carries or
    strictly below the lower bound it carries, so the counter of the high
    anomalies and the counter of the low anomalies of the application
    together cover all the anomalies. *)
Theorem high_and_low_counters_cover_the_anomalies (city_df : list Observation) :
  1 <= ROLLING_WINDOW ->
  exists e s a,
    analyze city_df = Ok (e, s, a)
    /\ (forall x, In x a ->
          (upper_bound x <? temp (a_row x))%float = true
          \/ (temp (a_row x) <? lower_bound x)%float = true)
    /\ List.length a <= high_anomalies a + low_anomalies a.
Proof.
  intros Hw.
  destruct (analyze_ok SEASON_MAPPING K ROLLING_WINDOW str_lower city_df Hw)
    as (e & s & a & H).
  exists e, s, a. split; [exact H |].
  assert (Hall : forall x, In x a ->
                   (upper_bound x <? temp (a_row x))%float = true
                   \/ (temp (a_row x) <? lower_bound x)%float = true).
  { intros x Hx. destruct (anomaly_of_result _ _ _ _ _ H Hx) as [k Hk].
    apply season_anomalies_fields in Hk.
    destruct Hk as (_ & Hs & Hout & Hlo & Hup & _).
    unfold is_anomalous in Hout. rewrite Hs, <- Hlo, <- Hup in Hout.
    apply orb_true_iff in Hout. tauto. }
  split; [exact Hall |].
  unfold high_anomalies, low_anomalies. apply filter_cover, Hall.
Qed.

End Flagged.

Lemma missing_temperature_is_never_flagged_witness :
  1 <= sample_window
  /\ exists e s a,
       sample_analyze sample_city = Ok (e, s, a)
       /\ forall x, In x a -> Series.isna (temp (a_row x)) = false.
Proof.
  assert (Hw : 1 <= sample_window) by (unfold sample_window; lia).
  split; [exact Hw |].
  exact (missing_temperature_is_never_flagged
           (pandas := sample_pandas)
            sample_mapping sample_threshold sample_window ascii_str_lower
           sample_city Hw).
Defined.

Lemma high_and_low_counters_cover_the_anomalies_witness :
  1 <= sample_window
  /\ exists e s a,
       sample_analyze sample_city = Ok (e, s, a)
       /\ List.length a <= high_anomalies a + low_anomalies a.
Proof.
  assert (Hw : 1 <= sample_window) by (unfold sample_window; lia).
  split; [exact Hw |].
  destruct (high_and_low_counters_cover_the_anomalies
              (pandas := sample_pandas)
              sample_mapping sample_threshold sample_window ascii_str_lower
              sample_city Hw) as (e & s & a & H & _ & Hlen).
  exists e, s, a. split; assumption.
Defined.

(** ** The statistics table *)

Lemma map_filter_comm {A B : Type} (f : A -> B) (p : B -> bool) (l : list A) :
  map f (filter (fun x => p (f x)) l) = filter p (map f l).
Proof.
  induction l as [| x l IH]; simpl; [reflexivity |].
  destruct (p (f x)); simpl; now rewrite IH.
Qed.

Lemma list_sum_perm (l l' : list nat) :
  Permutation l l' -> list_sum l = list_sum l'.
Proof. induction 1; simpl; lia. Qed.

Lemma length_flat_map {A B : Type} (g : A -> list B) (l : list A) :
  List.length (flat_map g l) = list_sum (map (fun x => List.length (g x)) l).
Proof.
  induction l as [| x l IH]; simpl; [reflexivity |].
  now rewrite length_app, IH.
Qed.

Lemma count_as_filter {A : Type} (f : A -> float) (l : list A) :
  Series.count (map f l)
  = List.length (filter (fun x => negb (Series.isna (f x))) l).
Proof.
  unfold Series.count, Series.dropna.
  now rewrite <- (map_filter_comm f (fun x => negb (Series.isna x))), length_map.
Qed.

Section StatsTable.
Context {pandas : Pandas}.
Variable SEASON_MAPPING : list (string * string).
Variable ANOMALY_THRESHOLD : float.
Variable ROLLING_WINDOW : nat.
Variable str_lower : string -> string.

Local Abbreviation analyze :=
  (analyze_city_data SEASON_MAPPING ANOMALY_THRESHOLD ROLLING_WINDOW str_lower).
Local Abbreviation K := ANOMALY_THRESHOLD.

(** X7. The minimum and the maximum of a row of the statistics table are
    temperatures of the season of the row, and every present temperature of
    the season lies between them; a season whose count is zero has NaN for
    both. *)
Theorem season_minimum_and_maximum_bound_the_season (city_df : list Observation) :
  1 <= ROLLING_WINDOW ->
  exists e s a,
    analyze city_df = Ok (e, s, a)
    /\ forall row, In row s ->
         let temps := season_temperatures city_df (ss_season row) in
         (ss_count row = 0 -> ss_min row = nan /\ ss_max row = nan)
         /\ (ss_count row <> 0 ->
             In (ss_min row) temps /\ In (ss_max row) temps
             /\ forall y, In y temps -> is_nan y = false ->
                  (ss_min row <=? y)%float = true
                  /\ (y <=? ss_max row)%float = true).
Proof.
  intros Hw.
  destruct (analyze_ok SEASON_MAPPING K ROLLING_WINDOW str_lower city_df Hw)
    as (e & s & a & H).
  exists e, s, a. split; [exact H |].
  intros row Hrow temps.
  pose proof (season_stats_of_a_result _ _ _ _ _ _ _ _ H) as (_ & _ & Hrows & _).
  destruct (Hrows row Hrow) as (_ & _ & _ & Hmin & Hmax & Hcount & _).
  pose proof (season_temps_perm _ _ _ _ _ _ _ _ (ss_season row) H) as Hperm.
  fold temps in Hperm. rewrite Hmin, Hmax, Hcount. split.
  - apply min_max_none.
  - intros Hc. destruct (min_max_spec _ Hc) as (Hlo & Hhi & Hall).
    split; [apply (Permutation_in _ Hperm Hlo) |].
    split; [apply (Permutation_in _ Hperm Hhi) |].
    intros y Hy. apply Hall, (Permutation_in _ (Permutation_sym Hperm) Hy).
Qed.

(** X8. The rows of the statistics table come in ascending order of their
    season key. *)
Theorem season_statistics_are_in_key_order (city_df : list Observation) :
  1 <= ROLLING_WINDOW ->
  exists e s a,
    analyze city_df = Ok (e, s, a)
    /\ StronglySorted
         (fun r1 r2 => String.leb (ss_season r1) (ss_season r2) = true) s.
Proof.
  intros Hw.
  destruct (analyze_ok SEASON_MAPPING K ROLLING_WINDOW str_lower city_df Hw)
    as (e & s & a & H).
  exists e, s, a. split; [exact H |].
  apply (StronglySorted_map ss_season (fun a b => String.leb a b = true)).
  pose proof (analyze_inv _ _ _ _ _ _ _ _ H) as (_ & _ & -> & _).
  rewrite stats_seasons. apply sort_sorted.
  - apply String.leb_total.
  - apply string_leb_trans.
Qed.

(** X9. The counts of the statistics table add up to the number of
    observations of the city that have a temperature: every such
    observation is counted in one row and one only. *)
Theorem season_counts_add_up (city_df : list Observation) :
  1 <= ROLLING_WINDOW ->
  exists e s a,
    analyze city_df = Ok (e, s, a)
    /\ list_sum (map ss_count s) = Series.count (map temperature city_df).
Proof.
  intros Hw.
  destruct (analyze_ok SEASON_MAPPING K ROLLING_WINDOW str_lower city_df Hw)
    as (e & s & a & H).
  exists e, s, a. split; [exact H |].
  pose proof (analyze_perm _ _ _ _ _ _ _ _ H) as Hperm.
  pose proof (analyze_inv _ _ _ _ _ _ _ _ H) as (_ & _ & Hs & _).
  set (present := fun r : EnrichedObservation => negb (Series.isna (temp r))).
  transitivity (List.length (filter present e)).
  - rewrite Hs. unfold groupby_season_agg. rewrite !map_map.
    cbn [ss_count with_season_ru g_count group_row].
    rewrite (list_sum_perm _ _
               (Permutation_map _ (sort_perm String.leb
                                     (Series.unique (map season_of e))))).
    rewrite <- (Permutation_length
                  (groups_perm season_of (Series.unique (map season_of e))
                     (filter present e) (unique_NoDup _)
                     (fun r Hr => proj2 (unique_In _ _)
                                    (in_map season_of _ _
                                       (proj1 (proj1 (filter_In _ _ _) Hr)))))).
    rewrite length_flat_map. f_equal. apply map_ext. intros k.
    rewrite count_as_filter. unfold season_data.
    now rewrite filter_filter_comm.
  - unfold present, temp. rewrite <- (count_as_filter (fun r => temperature (obs r))).
    rewrite <- (map_map obs temperature).
    unfold Series.count, Series.dropna.
    apply filter_perm_length, Permutation_map, Hperm.
Qed.

(** X10. The classifier, given the statistics table of a city and a season,
    answers [no_data] exactly when the city has no observation of that
    season; in the other case it reports the mean and the deviation of the
    one row of the table for the season. *)
Theorem no_data_exactly_for_a_season_without_observations
  (city_df : list Observation) (current_temp : float) (k : string) :
  1 <= ROLLING_WINDOW ->
  exists e s a,
    analyze city_df = Ok (e, s, a)
    /\ let r := check_temperature_normality K current_temp k s in
       (no_data r = true <-> forall o, In o city_df -> season o <> k)
       /\ (no_data r = false ->
           exists row,
             matching_rows k s = [row]
             /\ mean_temp r = Some (ss_mean row)
             /\ std_temp r = Some (ss_std row)).
Proof.
  intros Hw.
  destruct (analyze_ok SEASON_MAPPING K ROLLING_WINDOW str_lower city_df Hw)
    as (e & s & a & H).
  exists e, s, a. split; [exact H |].
  pose proof (season_stats_of_a_result _ _ _ _ _ _ _ _ H) as (Hnd & Hkeys & _).
  assert (Hone : forall row rest, matching_rows k s = row :: rest -> rest = []).
  { clear Hkeys H. unfold matching_rows.
    induction s as [| x s IH]; simpl; [discriminate |].
    inversion Hnd as [| ? ? Hx Hnd']; subst.
    destruct (String.eqb_spec (ss_season x) k) as [Hk | Hk]; [| now apply IH].
    intros row rest Heq. injection Heq as _ <-.
    destruct (filter (fun r => String.eqb (ss_season r) k) s) as [| y t] eqn:E;
      [reflexivity |].
    exfalso. apply Hx.
    assert (Hy : In y (filter (fun r => String.eqb (ss_season r) k) s))
      by (rewrite E; now left).
    apply filter_In in Hy. destruct Hy as [Hy Hyk]. apply String.eqb_eq in Hyk.
    rewrite Hk, <- Hyk. now apply in_map. }
  cbv zeta. destruct (matching_rows k s) as [| row rest] eqn:E.
  - rewrite (classify_no_row _ _ _ _ E). cbn [no_data]. split.
    + split; [intros _ | reflexivity].
      intros o Ho Hk.
      assert (Hin : In k (map ss_season s)) by (apply Hkeys; eauto).
      apply in_map_iff in Hin. destruct Hin as (row & Hrk & Hrow).
      assert (Hm : In row (matching_rows k s)).
      { apply filter_In. split; [exact Hrow |]. now apply String.eqb_eq. }
      rewrite E in Hm. exact Hm.
    + discriminate.
  - rewrite (classify_row _ _ _ _ _ _ E). cbn [no_data mean_temp std_temp]. split.
    + split; [discriminate |]. intros Hnone. exfalso.
      assert (Hm : In row (matching_rows k s)) by (rewrite E; now left).
      apply filter_In in Hm. destruct Hm as [Hrow Hrk]. apply String.eqb_eq in Hrk.
      destruct (proj1 (Hkeys k)) as (o & Ho & Hok).
      { rewrite <- Hrk. now apply in_map. }
      exact (Hnone o Ho Hok).
    + intros _. exists row. rewrite (Hone _ _ eq_refl). repeat split.
Qed.

End StatsTable.

Lemma season_minimum_and_maximum_bound_the_season_witness :
  1 <= sample_window
  /\ exists e s a,
       sample_analyze sample_city = Ok (e, s, a)
       /\ forall row, In row s -> ss_count row <> 0 ->
            In (ss_min row) (season_temperatures sample_city (ss_season row)).
Proof.
  assert (Hw : 1 <= sample_window) by (unfold sample_window; lia).
  split; [exact Hw |].
  destruct (season_minimum_and_maximum_bound_the_season
              (pandas := sample_pandas)
              sample_mapping sample_threshold sample_window ascii_str_lower
              sample_city Hw) as (e & s & a & H & Hall).
  exists e, s, a. split; [exact H |].
  intros row Hrow Hc. apply (Hall row Hrow), Hc.
Defined.

Lemma season_statistics_are_in_key_order_witness :
  1 <= sample_window
  /\ exists e s a,
       sample_analyze sample_city = Ok (e, s, a)
       /\ StronglySorted
            (fun r1 r2 => String.leb (ss_season r1) (ss_season r2) = true) s.
Proof.
  assert (Hw : 1 <= sample_window) by (unfold sample_window; lia).
  split; [exact Hw |].
  exact (season_statistics_are_in_key_order
           (pandas := sample_pandas)
            sample_mapping sample_threshold sample_window ascii_str_lower
           sample_city Hw).
Defined.

Lemma season_counts_add_up_witness :
  1 <= sample_window
  /\ exists e s a,
       sample_analyze sample_city = Ok (e, s, a)
       /\ list_sum (map ss_count s) = Series.count (map temperature sample_city).
Proof.
  assert (Hw : 1 <= sample_window) by (unfold sample_window; lia).
  split; [exact Hw |].
  exact (season_counts_add_up
           (pandas := sample_pandas)
            sample_mapping sample_threshold sample_window ascii_str_lower
           sample_city Hw).
Defined.

Lemma no_data_exactly_for_a_season_without_observations_witness :
  1 <= sample_window
  /\ exists e s a,
       sample_analyze sample_city = Ok (e, s, a)
       /\ (no_data (check_temperature_normality sample_threshold 0 "spring" s) = true
           <-> forall o, In o sample_city -> season o <> "spring").
Proof.
  assert (Hw : 1 <= sample_window) by (unfold sample_window; lia).
  split; [exact Hw |].
  destruct (no_data_exactly_for_a_season_without_observations
              (pandas := sample_pandas)
              sample_mapping sample_threshold sample_window ascii_str_lower
              sample_city 0%float "spring" Hw) as (e & s & a & H & Hiff & _).
  exists e, s, a. split; assumption.
Defined.

(** ** What the loader accepts *)

Lemma apply_str_missing (f : string -> string) (l : list (option string)) :
  ~ Forall (fun s => s <> None) l ->
  apply_str f l = Raise "'float' object has no attribute 'lower'".
Proof.
  induction l as [| [x |] l IH]; intros H; simpl.
  - elim H. constructor.
  - rewrite IH; [reflexivity |]. intros Hl. apply H. constructor; [discriminate | exact Hl].
  - reflexivity.
Qed.

Lemma Forall_present_unmap (f : string -> string) (l : list (option string)) :
  Forall (fun s => s <> None) (map (option_map f) l) -> Forall (fun s => s <> None) l.
Proof.
  induction l as [| [x |] l IH]; simpl; intros H; [constructor | |];
    inversion H; subst; [constructor; [discriminate | auto] | congruence].
Qed.

Lemma present_dec (l : list (option string)) :
  Forall (fun s => s <> None) l \/ ~ Forall (fun s => s <> None) l.
Proof.
  induction l as [| [x |] l [IH | IH]].
  - left. constructor.
  - left. constructor; [discriminate | exact IH].
  - right. intros H. inversion H. contradiction.
  - right. intros H. inversion H. congruence.
  - right. intros H. inversion H. congruence.
Qed.

Lemma missing_columns_nil (df : DataFrame) :
  missing_columns df = [] <-> forall name, In name required_columns -> In name (columns df).
Proof.
  split.
  - intros H name Hin. destruct (in_dec string_dec name (columns df)) as [Hc | Hc];
      [exact Hc |].
    exfalso. assert (Hm : In name (missing_columns df))
      by (apply missing_columns_In; tauto).
    rewrite H in Hm. exact Hm.
  - intros H. destruct (missing_columns df) as [| name l] eqn:E; [reflexivity |].
    exfalso. assert (Hm : In name (missing_columns df)) by (rewrite E; now left).
    apply missing_columns_In in Hm. destruct Hm as [Hr Hc]. exact (Hc (H name Hr)).
Qed.

Lemma lookup_Some_of_column (df : DataFrame) (name : string) :
  In name (columns df) -> exists c, lookup name df = Some c.
Proof.
  intros H. destruct (lookup name df) as [c |] eqn:E; [eauto |].
  apply lookup_None in E. contradiction.
Qed.

Section LoaderAcceptance.
Variable File : Type.
Variable read_csv : File -> exn DataFrame.
Variable to_datetime : Column -> exn (list (option Z)).
Variable SEASON_MAPPING : list (string * string).
Variables str_lower str_strip : string -> string.

Local Abbreviation load :=
  (load_and_validate_data File read_csv to_datetime SEASON_MAPPING str_lower str_strip).

(** What the loader returns on a table whose timestamps parse and that has
    the four columns, by the kind of its season column. *)
Lemma load_by_season (f : File) (raw : DataFrame) tcol ts scol :
  read_csv f = Ok raw ->
  lookup "timestamp" raw = Some tcol ->
  to_datetime tcol = Ok ts ->
  missing_columns raw = [] ->
  lookup "season" raw = Some scol ->
  match scol with
  | StrCol seasons =>
      (Forall (fun s => s <> None) seasons ->
       load f
       = (Some (map (fun nc => (fst nc,
                                take (sort (fun i j =>
                                              key_le
                                                (sort_key
                                                   [match lookup "city" raw with
                                                    | Some c => c
                                                    | None => StrCol []
                                                    end; TimeCol ts] i)
                                                (sort_key
                                                   [match lookup "city" raw with
                                                    | Some c => c
                                                    | None => StrCol []
                                                    end; TimeCol ts] j))
                                           (seq 0 (nrows (prepared SEASON_MAPPING
                                                            str_lower str_strip
                                                            raw ts seasons))))
                                     (snd nc)))
                    (prepared SEASON_MAPPING str_lower str_strip raw ts seasons)),
          None))
      /\ (~ Forall (fun s => s <> None) seasons ->
          load f = (None,
                    Some (load_error ++ "'float' object has no attribute 'lower'")%string))
  | _ =>
      load f = (None,
                Some (load_error
                      ++ "Can only use .str accessor with string values!")%string)
  end.
Proof.
  intros Hread Hts Hp Hm Hseason.
  assert (Hcity : exists ccol, lookup "city" raw = Some ccol).
  { apply lookup_Some_of_column, (proj1 (missing_columns_nil raw) Hm). simpl. tauto. }
  destruct Hcity as [ccol Hcity].
  assert (Hstart :
            load f
            = match (c <- getitem (setitem raw "timestamp" (TimeCol ts)) "season" ;;
                     lowered <- str_accessor str_lower c ;;
                     stripped <- str_accessor str_strip lowered ;;
                     let df := setitem (setitem raw "timestamp" (TimeCol ts))
                                       "season" stripped in
                     c <- getitem df "season" ;;
                     ru <- series_apply (translate_season SEASON_MAPPING str_lower) c ;;
                     let df := setitem df "season_ru" ru in
                     df <- sort_values ["city"; "timestamp"]%string df ;;
                     Ok (Some df, None)) with
              | Ok r => r
              | Raise msg => (None, Some (load_error ++ msg)%string)
              end).
  { unfold load_and_validate_data, load_body. rewrite Hread. cbn [bind].
    unfold getitem at 1. rewrite Hts. cbn [bind]. rewrite Hp. cbn [bind].
    now rewrite (missing_columns_setitem raw "timestamp" (TimeCol ts) tcol Hts), Hm. }
  unfold getitem at 1 in Hstart.
  rewrite lookup_setitem_other, Hseason in Hstart by discriminate.
  cbn [bind] in Hstart.
  destruct scol as [seasons | l | l]; cbn [str_accessor bind] in Hstart;
    [| exact Hstart | exact Hstart].
  unfold getitem at 1 in Hstart. rewrite lookup_setitem_same in Hstart.
  cbn [bind series_apply] in Hstart. rewrite Hstart. clear Hstart.
  split; intros Hsome.
  - rewrite apply_str_ok by (do 2 apply Forall_present_map; exact Hsome).
    cbn [bind]. fold (prepared SEASON_MAPPING str_lower str_strip raw ts seasons).
    unfold sort_values. cbn [getitems bind]. unfold getitem.
    assert (Hc : lookup "city" (prepared SEASON_MAPPING str_lower str_strip raw ts seasons)
                 = Some ccol).
    { unfold prepared. now rewrite !lookup_setitem_other by discriminate. }
    assert (Ht : lookup "timestamp"
                   (prepared SEASON_MAPPING str_lower str_strip raw ts seasons)
                 = Some (TimeCol ts)).
    { unfold prepared. rewrite !lookup_setitem_other by discriminate.
      apply lookup_setitem_same. }
    rewrite Hc, Ht, Hcity. cbn [bind]. reflexivity.
  - rewrite apply_str_missing; [reflexivity |].
    intros H. apply Hsome. now do 2 apply Forall_present_unmap in H.
Qed.

(** X11. The loader returns a dataset exactly for the files that
    [read_csv] reads into a table with the four required columns, whose
    timestamps parse, and whose season column is text without a missing
    value. *)
Theorem loader_accepts_exactly_the_well_formed_tables (f : File) :
  (exists out, load f = (Some out, None))
  <-> exists raw tcol ts seasons,
        read_csv f = Ok raw
        /\ lookup "timestamp" raw = Some tcol
        /\ to_datetime tcol = Ok ts
        /\ (forall name, In name required_columns -> In name (columns raw))
        /\ lookup "season" raw = Some (StrCol seasons)
        /\ Forall (fun s => s <> None) seasons.
Proof.
  split.
  - intros [out Hout].
    destruct (read_csv f) as [raw | msg] eqn:Hread.
    2:{ rewrite (load_read_error _ _ to_datetime SEASON_MAPPING str_lower str_strip
                   f msg Hread) in Hout. discriminate. }
    destruct (lookup "timestamp" raw) as [tcol |] eqn:Hts.
    2:{ apply lookup_None in Hts.
        rewrite (load_no_timestamp _ _ to_datetime SEASON_MAPPING str_lower str_strip
                   f raw Hread Hts) in Hout. discriminate. }
    destruct (to_datetime tcol) as [ts | msg] eqn:Hp.
    2:{ rewrite (load_parse_error _ _ _ SEASON_MAPPING str_lower str_strip
                   f raw tcol msg Hread Hts Hp) in Hout. discriminate. }
    destruct (missing_columns raw) as [| name rest] eqn:Hm.
    2:{ rewrite (load_missing _ _ _ SEASON_MAPPING str_lower str_strip
                   f raw tcol ts Hread Hts Hp) in Hout by (rewrite Hm; discriminate).
        discriminate. }
    pose proof (proj1 (missing_columns_nil raw) Hm) as Hall.
    destruct (lookup_Some_of_column raw "season") as [scol Hseason];
      [apply Hall; simpl; tauto |].
    pose proof (load_by_season f raw tcol ts scol Hread Hts Hp Hm Hseason) as Hby.
    destruct scol as [seasons | l | l];
      [| rewrite Hby in Hout; discriminate | rewrite Hby in Hout; discriminate].
    destruct (present_dec seasons) as [Hsome | Hnone].
    + exists raw, tcol, ts, seasons. repeat split; assumption.
    + rewrite (proj2 Hby Hnone) in Hout. discriminate.
  - intros (raw & tcol & ts & seasons & Hread & Hts & Hp & Hall & Hseason & Hsome).
    apply missing_columns_nil in Hall.
    pose proof (load_by_season f raw tcol ts (StrCol seasons) Hread Hts Hp Hall Hseason)
      as [Hok _].
    eexists. exact (Hok Hsome).
Qed.

(** X12. On a table with the four required columns and timestamps that
    parse, a season without a value makes the loader fail with the
    load-failure text and Python's message on the missing method, and a
    season column that is not text makes it fail with the load-failure
    text. *)
Theorem loader_rejects_missing_seasons (f : File) (raw : DataFrame) tcol ts scol :
  read_csv f = Ok raw ->
  lookup "timestamp" raw = Some tcol ->
  to_datetime tcol = Ok ts ->
  (forall name, In name required_columns -> In name (columns raw)) ->
  lookup "season" raw = Some scol ->
  (forall seasons, scol = StrCol seasons -> In None seasons ->
     load f = (None,
               Some (load_error ++ "'float' object has no attribute 'lower'")%string))
  /\ ((forall seasons, scol <> StrCol seasons) ->
      exists msg, load f = (None, Some (load_error ++ msg)%string)).
Proof.
  intros Hread Hts Hp Hall Hseason. apply missing_columns_nil in Hall.
  pose proof (load_by_season f raw tcol ts scol Hread Hts Hp Hall Hseason) as Hby.
  split.
  - intros seasons -> Hin. apply (proj2 Hby). intros Hsome.
    rewrite Forall_forall in Hsome. now apply (Hsome None Hin).
  - intros Hno. destruct scol as [seasons | l | l]; [now elim (Hno seasons) | |];
      eexists; exact Hby.
Qed.

End LoaderAcceptance.

Lemma loader_rejects_missing_seasons_witness :
  sample_load (Ok sample_table_no_season_value)
  = (None, Some "Ошибка при загрузке файла: 'float' object has no attribute 'lower'"%string).
Proof.
  assert (Hall : forall name,
             In name required_columns ->
             In name (columns sample_table_no_season_value)).
  { simpl. intros name [<- | [<- | [<- | [<- | []]]]]; tauto. }
  exact (proj1 (loader_rejects_missing_seasons
                  (exn DataFrame) sample_read_csv sample_to_datetime
                  sample_mapping ascii_str_lower ascii_str_strip
                  (Ok sample_table_no_season_value) sample_table_no_season_value
                  (StrCol [Some "2020-01-01"; Some "2020-01-02"]%string)
                  [Some 18262; Some 18263]%Z
                  (StrCol [Some "winter"; None]%string)
                  eq_refl eq_refl eq_refl Hall eq_refl)
               [Some "winter"; None]%string eq_refl (or_intror (or_introl eq_refl))).
Defined.

(** ** The dataset the loader returns *)

Lemma map_nth_all {A : Type} (d : A) (l : list A) :
  map (fun i => nth i l d) (seq 0 (List.length l)) = l.
Proof.
  induction l as [| x l IH]; [reflexivity |].
  cbn [List.length seq map nth]. f_equal.
  rewrite <- seq_shift, map_map. exact IH.
Qed.

Lemma take_all (c : Column) : take (seq 0 (col_length c)) c = c.
Proof. destruct c as [l | l | l]; simpl; f_equal; apply map_nth_all. Qed.

Lemma take_all_aligned (n : nat) (df : DataFrame) :
  aligned n df -> map (fun nc => (fst nc, take (seq 0 n) (snd nc))) df = df.
Proof.
  unfold aligned. induction 1 as [| [name c] df Hc Hdf IH]; simpl; [reflexivity |].
  simpl in Hc. subst n. now rewrite take_all, IH.
Qed.

Lemma seq_sorted_by (R : nat -> nat -> Prop) (a n : nat) :
  (forall i j, a <= i -> i < j -> j < a + n -> R i j) -> StronglySorted R (seq a n).
Proof.
  revert a. induction n as [| n IH]; intros a H; simpl; constructor.
  - apply IH. intros i j Hi Hij Hj. apply H; lia.
  - apply Forall_forall. intros j Hj. apply in_seq in Hj. apply H; lia.
Qed.

Section LoaderOutput.
Variable File : Type.
Variable read_csv : File -> exn DataFrame.
Variable to_datetime : Column -> exn (list (option Z)).
Variable SEASON_MAPPING : list (string * string).
Variables str_lower str_strip : string -> string.

Local Abbreviation load :=
  (load_and_validate_data File read_csv to_datetime SEASON_MAPPING str_lower str_strip).
Local Abbreviation translate := (translate_season SEASON_MAPPING str_lower).

Lemma prepared_aligned (raw : DataFrame) tcol ts seasons :
  aligned (nrows raw) raw ->
  lookup "timestamp" raw = Some tcol ->
  List.length ts = col_length tcol ->
  lookup "season" raw = Some (StrCol seasons) ->
  aligned (nrows raw) (prepared SEASON_MAPPING str_lower str_strip raw ts seasons).
Proof.
  intros Hal Hts Hlen Hseason.
  assert (Hall : forall name c, lookup name raw = Some c -> col_length c = nrows raw).
  { intros name c H. apply lookup_In in H. unfold aligned in Hal.
    rewrite Forall_forall in Hal. apply (Hal _ H). }
  unfold prepared. repeat apply aligned_setitem; try assumption; simpl.
  - rewrite Hlen. apply (Hall _ _ Hts).
  - rewrite !length_map. apply (Hall _ _ Hseason).
  - rewrite !length_map. apply (Hall _ _ Hseason).
Qed.

(** X13. In the dataset of a valid table the season of a row is the season
    of the table in lower case and without surrounding blanks, and its
    [season_ru] is the translation of that season; both columns follow the
    order of the rows of the dataset. *)
Theorem loader_normalises_and_translates_the_seasons
  (f : File) (raw : DataFrame) cities tcol ts tempcol seasons :
  read_csv f = Ok raw ->
  aligned (nrows raw) raw ->
  lookup "city" raw = Some (StrCol cities) ->
  lookup "timestamp" raw = Some tcol ->
  to_datetime tcol = Ok ts ->
  List.length ts = col_length tcol ->
  lookup "temperature" raw = Some tempcol ->
  lookup "season" raw = Some (StrCol seasons) ->
  Forall (fun s => s <> None) seasons ->
  let indexer := loader_indexer (nrows raw) cities ts in
  let normal := map (option_map (fun s => str_strip (str_lower s))) seasons in
  exists out,
    load f = (Some out, None)
    /\ lookup "city" out = Some (take indexer (StrCol cities))
    /\ lookup "season" out = Some (take indexer (StrCol normal))
    /\ lookup "season_ru" out
       = Some (take indexer (StrCol (map (option_map translate) normal)))
    /\ forall j, j < nrows raw ->
         exists s,
           nth (nth j indexer 0) seasons None = Some s
           /\ cell_at (take indexer (StrCol normal)) j
              = CStr (Some (str_strip (str_lower s)))
           /\ cell_at (take indexer (StrCol (map (option_map translate) normal))) j
              = CStr (Some (translate (str_strip (str_lower s)))).
Proof.
  intros Hread Hal Hcity Hts Hp Hlen Htemp Hseason Hsome indexer normal.
  pose proof (load_valid _ _ _ SEASON_MAPPING str_lower str_strip
                f raw cities tcol ts tempcol seasons
                Hread Hcity Hts Hp Htemp Hseason Hsome) as Hload.
  rewrite (prepared_nrows SEASON_MAPPING str_lower str_strip
             raw tcol ts seasons Hal Hts Hlen Hseason) in Hload.
  fold indexer in Hload.
  assert (Hnormal : map (option_map str_strip) (map (option_map str_lower) seasons)
                    = normal).
  { unfold normal. rewrite map_map. apply map_ext. now intros [s |]. }
  assert (Hidx : List.length indexer = nrows raw).
  { unfold indexer, loader_indexer. now rewrite sort_length, length_seq. }
  assert (Hrange : forall j, j < nrows raw -> nth j indexer 0 < nrows raw).
  { intros j Hj.
    assert (Hin : In (nth j indexer 0) indexer) by (apply nth_In; lia).
    unfold indexer, loader_indexer in Hin.
    apply (Permutation_in _ (sort_perm _ _)) in Hin. apply in_seq in Hin.
    unfold indexer, loader_indexer. lia. }
  assert (Hslen : List.length seasons = nrows raw).
  { apply lookup_In in Hseason. unfold aligned in Hal. rewrite Forall_forall in Hal.
    apply (Hal _ Hseason). }
  eexists. split; [exact Hload |]. rewrite !lookup_take. unfold prepared.
  rewrite Hnormal. split; [| split; [| split]].
  - now rewrite !lookup_setitem_other, Hcity by discriminate.
  - now rewrite lookup_setitem_other, lookup_setitem_same by discriminate.
  - now rewrite lookup_setitem_same.
  - intros j Hj. specialize (Hrange j Hj).
    destruct (nth (nth j indexer 0) seasons None) as [s |] eqn:E.
    + exists s. split; [reflexivity |].
      rewrite !cell_at_take by lia. unfold normal. cbn [cell_at].
      rewrite map_map.
      pose proof (map_nth (option_map (fun s => str_strip (str_lower s)))
                    seasons None (nth j indexer 0)) as H1.
      pose proof (map_nth (fun x => option_map translate
                                      (option_map (fun s => str_strip (str_lower s)) x))
                    seasons None (nth j indexer 0)) as H2.
      cbn [option_map] in H1, H2. rewrite H1, H2, E. split; reflexivity.
    + exfalso. rewrite Forall_forall in Hsome.
      apply (Hsome None); [| reflexivity].
      rewrite <- E. apply nth_In. lia.
Qed.

(** X14. A valid table whose rows already ascend by (city, timestamp) is
    returned with its rows in the order of the table: the dataset is the
    table with its timestamps parsed, its seasons normalised and the
    translated seasons added. *)
Theorem loader_keeps_the_order_of_a_sorted_table
  (f : File) (raw : DataFrame) cities tcol ts tempcol seasons :
  read_csv f = Ok raw ->
  aligned (nrows raw) raw ->
  lookup "city" raw = Some (StrCol cities) ->
  lookup "timestamp" raw = Some tcol ->
  to_datetime tcol = Ok ts ->
  List.length ts = col_length tcol ->
  lookup "temperature" raw = Some tempcol ->
  lookup "season" raw = Some (StrCol seasons) ->
  Forall (fun s => s <> None) seasons ->
  (forall i j, i < j -> j < nrows raw ->
     key_le (loader_key cities ts i) (loader_key cities ts j) = true) ->
  load f = (Some (prepared SEASON_MAPPING str_lower str_strip raw ts seasons), None).
Proof.
  intros Hread Hal Hcity Hts Hp Hlen Htemp Hseason Hsome Hsorted.
  rewrite (load_valid _ _ _ SEASON_MAPPING str_lower str_strip
             f raw cities tcol ts tempcol seasons
             Hread Hcity Hts Hp Htemp Hseason Hsome).
  rewrite (prepared_nrows SEASON_MAPPING str_lower str_strip
             raw tcol ts seasons Hal Hts Hlen Hseason).
  unfold loader_indexer. rewrite sort_sorted_id.
  - now rewrite (take_all_aligned _ _ (prepared_aligned raw tcol ts seasons
                                         Hal Hts Hlen Hseason)).
  - apply seq_sorted_by. intros i j _ Hij Hj. apply Hsorted; lia.
Qed.

End LoaderOutput.

Lemma loader_normalises_and_translates_the_seasons_witness :
  exists out,
    sample_load (Ok sample_table) = (Some out, None)
    /\ lookup "season" out
       = Some (StrCol [Some "winter"; Some "winter"; Some "winter"; Some "winter"]%string).
Proof.
  destruct (loader_normalises_and_translates_the_seasons
              (exn DataFrame) sample_read_csv sample_to_datetime
              sample_mapping ascii_str_lower ascii_str_strip
              (Ok sample_table) sample_table
              [Some "Moscow"; Some "Berlin"; Some "Moscow"; Some "Berlin"]%string
              (StrCol [Some "2020-01-02"; Some "2020-01-01";
                       Some "2020-01-01"; Some "2020-01-01"]%string)
              [Some 18263; Some 18262; Some 18262; Some 18262]%Z
              (NumCol [-7; 1; -5; 2]%float)
              [Some " Winter"; Some "winter"; Some "WINTER "; Some "winter"]%string)
    as (out & Hload & _ & Hs & _);
    try reflexivity.
  - repeat constructor.
  - repeat constructor; discriminate.
  - exists out. split; [exact Hload |]. rewrite Hs. reflexivity.
Defined.

Lemma loader_keeps_the_order_of_a_sorted_table_witness :
  exists out,
    sample_load (Ok sample_table_sorted) = (Some out, None)
    /\ lookup "temperature" out = Some (NumCol [1; 2; -7]%float).
Proof.
  eexists. split.
  - apply (loader_keeps_the_order_of_a_sorted_table
             (exn DataFrame) sample_read_csv sample_to_datetime
             sample_mapping ascii_str_lower ascii_str_strip
             (Ok sample_table_sorted) sample_table_sorted
             [Some "Berlin"; Some "Berlin"; Some "Moscow"]%string
             (StrCol [Some "2020-01-01"; Some "2020-01-01"; Some "2020-01-02"]%string)
             [Some 18262; Some 18262; Some 18263]%Z
             (NumCol [1; 2; -7]%float)
             [Some "winter"; Some " Winter"; Some "SPRING"]%string);
      try reflexivity.
    + repeat constructor.
    + repeat constructor; discriminate.
    + intros i j Hij Hj. simpl in Hj.
      destruct i as [| [| [| i]]]; destruct j as [| [| [| j]]]; try lia; reflexivity.
  - reflexivity.
Defined.

(** ** The weather client *)

Section WeatherFacts.
Variables Timeout datetime : Type.
Variable OPENWEATHER_BASE_URL : string.
Variable API_TIMEOUT : Timeout.
Variable requests_get :
  string -> list (string * string) -> Timeout -> WeatherApi.outcome WeatherApi.Response.
Variable fromtimestamp : WeatherApi.json -> WeatherApi.outcome datetime.

Local Abbreviation get_current_temperature :=
  (WeatherApi.get_current_temperature Timeout datetime OPENWEATHER_BASE_URL API_TIMEOUT
     requests_get fromtimestamp).
Local Abbreviation request city_name api_key :=
  (requests_get OPENWEATHER_BASE_URL (WeatherApi.params city_name api_key) API_TIMEOUT).
Local Abbreviation Failure := (WeatherApi.Failure datetime).
Local Abbreviation Success := (WeatherApi.Success datetime).

Ltac step :=
  match goal with
  | |- context [WeatherApi.and_then ?c _] =>
      let E := fresh "E" in
      destruct c eqn:E; cbn [WeatherApi.and_then]; try (intros; discriminate)
  end.

(** X15. No exception of the [requests] library leaves the client: a
    request that raises one is answered by a [request_error] result with
    the text of the exception. *)
Theorem request_exceptions_never_leave_the_client (city_name api_key : string) :
  (forall msg, get_current_temperature city_name api_key <> WeatherApi.RaisesRequestException msg)
  /\ (forall msg,
        request city_name api_key = WeatherApi.RaisesRequestException msg ->
        get_current_temperature city_name api_key
        = WeatherApi.Returns (Failure "request_error" (WeatherApi.JString msg))).
Proof.
  unfold WeatherApi.get_current_temperature. split.
  - intros msg. now destruct (WeatherApi.try_body _ _ _ _ _ _ _ _).
  - intros msg H. unfold WeatherApi.try_body. now rewrite H.
Qed.

(** X16. An answer with a status from 400 to 599 other than 401 gives a
    [request_error] result with the text of the HTTP error, whatever the
    answer holds. *)
Theorem http_error_status_is_a_request_error
  (city_name api_key : string) (response : WeatherApi.Response) :
  request city_name api_key = WeatherApi.Returns response ->
  (400 <= WeatherApi.status_code response < 600)%Z ->
  WeatherApi.status_code response <> 401%Z ->
  get_current_temperature city_name api_key
  = WeatherApi.Returns
      (Failure "request_error"
         (WeatherApi.JString (WeatherApi.http_error_msg response))).
Proof.
  intros Hreq Hrange Hne.
  unfold WeatherApi.get_current_temperature, WeatherApi.try_body.
  rewrite Hreq. cbn [WeatherApi.and_then].
  destruct (Z.eqb_spec (WeatherApi.status_code response) 401) as [E | _];
    [contradiction |].
  unfold WeatherApi.raise_for_status.
  destruct (Z.leb_spec 400 (WeatherApi.status_code response)); [| lia].
  destruct (Z.ltb_spec (WeatherApi.status_code response) 600); [| lia].
  reflexivity.
Qed.

(** X17. An answer with status 401 whose body is an object gives an
    [invalid_key] result; its message is the [message] entry of the body,
    or the text "Invalid API key" when the body has none. *)
Theorem rejected_key_is_reported
  (city_name api_key : string) (response : WeatherApi.Response)
  (members : list (string * WeatherApi.json)) :
  request city_name api_key = WeatherApi.Returns response ->
  WeatherApi.status_code response = 401%Z ->
  WeatherApi.json_body response = WeatherApi.Returns (WeatherApi.JObject members) ->
  get_current_temperature city_name api_key
  = WeatherApi.Returns
      (Failure "invalid_key"
         (match WeatherApi.member "message" members with
          | Some message => message
          | None => WeatherApi.JString "Invalid API key"
          end)).
Proof.
  intros Hreq Hstatus Hbody.
  unfold WeatherApi.get_current_temperature, WeatherApi.try_body.
  rewrite Hreq. cbn [WeatherApi.and_then]. rewrite Hstatus. cbn [Z.eqb Pos.eqb].
  rewrite Hbody. reflexivity.
Qed.

(** X18. A success is returned only for an answer whose status is neither
    401 nor from 400 to 599 and whose body has the entries read; the result
    then holds the entries of the body as they are. *)
Theorem success_holds_the_entries_of_the_answer
  (city_name api_key : string) (weather : WeatherApi.Weather datetime) :
  get_current_temperature city_name api_key = WeatherApi.Returns (Success weather) ->
  exists response data main items first wind dt,
    request city_name api_key = WeatherApi.Returns response
    /\ ~ (400 <= WeatherApi.status_code response < 600)%Z
    /\ WeatherApi.json_body response = WeatherApi.Returns data
    /\ WeatherApi.subscript data "main" = WeatherApi.Returns main
    /\ WeatherApi.subscript main "temp"
       = WeatherApi.Returns (WeatherApi.temperature datetime weather)
    /\ WeatherApi.subscript main "feels_like"
       = WeatherApi.Returns (WeatherApi.feels_like datetime weather)
    /\ WeatherApi.subscript main "temp_min"
       = WeatherApi.Returns (WeatherApi.temp_min datetime weather)
    /\ WeatherApi.subscript main "temp_max"
       = WeatherApi.Returns (WeatherApi.temp_max datetime weather)
    /\ WeatherApi.subscript main "pressure"
       = WeatherApi.Returns (WeatherApi.pressure datetime weather)
    /\ WeatherApi.subscript main "humidity"
       = WeatherApi.Returns (WeatherApi.humidity datetime weather)
    /\ WeatherApi.subscript data "weather" = WeatherApi.Returns items
    /\ WeatherApi.first_item items = WeatherApi.Returns first
    /\ WeatherApi.subscript first "description"
       = WeatherApi.Returns (WeatherApi.description datetime weather)
    /\ WeatherApi.subscript data "wind" = WeatherApi.Returns wind
    /\ WeatherApi.subscript wind "speed"
       = WeatherApi.Returns (WeatherApi.wind_speed datetime weather)
    /\ WeatherApi.subscript data "dt" = WeatherApi.Returns dt
    /\ fromtimestamp dt = WeatherApi.Returns (WeatherApi.timestamp datetime weather).
Proof.
  unfold WeatherApi.get_current_temperature, WeatherApi.try_body.
  step.
  destruct (Z.eqb_spec (WeatherApi.status_code a) 401) as [H401 | H401].
  - repeat step.
  - unfold WeatherApi.raise_for_status.
    destruct ((400 <=? WeatherApi.status_code a)%Z
              && (WeatherApi.status_code a <? 600)%Z) eqn:Hrange;
      cbn [WeatherApi.and_then]; [discriminate |].
    repeat step.
    intros H. injection H as <-. cbn.
    do 7 eexists. repeat split; try eassumption.
    intros [H1 H2]. apply andb_false_iff in Hrange.
    destruct Hrange as [Hr | Hr]; [apply Z.leb_gt in Hr | apply Z.ltb_ge in Hr]; lia.
Qed.

(** X19. Exceptions of other classes pass through the client: an answer
    with a status outside 400 to 599 whose body is an object without a
    [main] entry makes the call raise a [KeyError]. *)
Theorem incomplete_answer_raises_a_key_error
  (city_name api_key : string) (response : WeatherApi.Response)
  (members : list (string * WeatherApi.json)) :
  request city_name api_key = WeatherApi.Returns response ->
  ~ (400 <= WeatherApi.status_code response < 600)%Z ->
  WeatherApi.json_body response = WeatherApi.Returns (WeatherApi.JObject members) ->
  WeatherApi.member "main" members = None ->
  get_current_temperature city_name api_key = WeatherApi.RaisesOther "KeyError".
Proof.
  intros Hreq Hrange Hbody Hmain.
  unfold WeatherApi.get_current_temperature, WeatherApi.try_body.
  rewrite Hreq. cbn [WeatherApi.and_then].
  destruct (Z.eqb_spec (WeatherApi.status_code response) 401) as [E | _]; [lia |].
  unfold WeatherApi.raise_for_status.
  destruct ((400 <=? WeatherApi.status_code response)%Z
            && (WeatherApi.status_code response <? 600)%Z) eqn:Hr.
  - exfalso. apply Hrange. apply andb_true_iff in Hr. lia.
  - cbn [WeatherApi.and_then]. rewrite Hbody. cbn [WeatherApi.and_then].
    unfold WeatherApi.subscript. now rewrite Hmain.
Qed.

End WeatherFacts.

Lemma request_exceptions_never_leave_the_client_witness :
  sample_weather "Moscow" "offline"
  = WeatherApi.Returns
      (WeatherApi.Failure Z "request_error" (WeatherApi.JString "Read timed out.")).
Proof.
  exact (proj2 (request_exceptions_never_leave_the_client
                  Z Z "https://api.openweathermap.org/data/2.5/weather" 10%Z
                  sample_requests_get sample_fromtimestamp "Moscow" "offline")
               "Read timed out."%string eq_refl).
Defined.

Lemma http_error_status_is_a_request_error_witness :
  sample_weather "Atlantis" "unknown"
  = WeatherApi.Returns
      (WeatherApi.Failure Z "request_error"
         (WeatherApi.JString "404 Client Error: Not Found")).
Proof.
  eapply (http_error_status_is_a_request_error
            Z Z "https://api.openweathermap.org/data/2.5/weather" 10%Z
            sample_requests_get sample_fromtimestamp "Atlantis" "unknown"
            {| WeatherApi.status_code := 404;
               WeatherApi.json_body :=
                 WeatherApi.Returns
                   (WeatherApi.JObject
                      [("cod", WeatherApi.JString "404");
                       ("message", WeatherApi.JString "city not found")]%string);
               WeatherApi.http_error_msg := "404 Client Error: Not Found" |}).
  - reflexivity.
  - simpl. lia.
  - simpl. lia.
Defined.

Lemma rejected_key_is_reported_witness :
  sample_weather "Moscow" "bad"
  = WeatherApi.Returns
      (WeatherApi.Failure Z "invalid_key" (WeatherApi.JString "Invalid API key.")).
Proof.
  exact (rejected_key_is_reported
           Z Z "https://api.openweathermap.org/data/2.5/weather" 10%Z
           sample_requests_get sample_fromtimestamp "Moscow" "bad"
           {| WeatherApi.status_code := 401;
              WeatherApi.json_body :=
                WeatherApi.Returns
                  (WeatherApi.JObject
                     [("cod", WeatherApi.JInt 401);
                      ("message", WeatherApi.JString "Invalid API key.")]%string);
              WeatherApi.http_error_msg := "401 Client Error: Unauthorized" |}
           [("cod", WeatherApi.JInt 401);
            ("message", WeatherApi.JString "Invalid API key.")]%string
           eq_refl eq_refl eq_refl).
Defined.

Lemma success_holds_the_entries_of_the_answer_witness :
  exists weather response,
    sample_weather "Moscow" "good" = WeatherApi.Returns (WeatherApi.Success Z weather)
    /\ sample_requests_get "https://api.openweathermap.org/data/2.5/weather"
         (WeatherApi.params "Moscow" "good") 10%Z
       = WeatherApi.Returns response
    /\ ~ (400 <= WeatherApi.status_code response < 600)%Z.
Proof.
  eexists.
  destruct (success_holds_the_entries_of_the_answer
              Z Z "https://api.openweathermap.org/data/2.5/weather" 10%Z
              sample_requests_get sample_fromtimestamp "Moscow" "good" _ eq_refl)
    as (response & data & main & items & first & wind & dt & Hreq & Hrange & _).
  exists response. split; [reflexivity |]. split; assumption.
Defined.

Lemma incomplete_answer_raises_a_key_error_witness :
  sample_weather "Moscow" "partial" = WeatherApi.RaisesOther "KeyError".
Proof.
  eapply (incomplete_answer_raises_a_key_error
            Z Z "https://api.openweathermap.org/data/2.5/weather" 10%Z
            sample_requests_get sample_fromtimestamp "Moscow" "partial"
            {| WeatherApi.status_code := 200;
               WeatherApi.json_body :=
                 WeatherApi.Returns
                   (WeatherApi.JObject [("cod"%string, WeatherApi.JInt 200)]);
               WeatherApi.http_error_msg := "" |}
            [("cod"%string, WeatherApi.JInt 200)]).
  - reflexivity.
  - simpl. lia.
  - reflexivity.
  - reflexivity.
Defined.

(** ** The season of the day *)

(** X20. For the twelve months the season of the day follows the calendar:
    winter from December to February, spring from March to May, summer from
    June to August, and autumn, the remaining case of the code, from
    September to November. *)
Theorem current_season_follows_the_calendar (month : Z) :
  (1 <= month <= 12)%Z ->
  (get_current_season month = "winter" <-> (month = 12 \/ month <= 2)%Z)
  /\ (get_current_season month = "spring" <-> (3 <= month <= 5)%Z)
  /\ (get_current_season month = "summer" <-> (6 <= month <= 8)%Z)
  /\ (get_current_season month = "autumn" <-> (9 <= month <= 11)%Z).
Proof.
  intros H.
  assert (Hm : In month [1; 2; 3; 4; 5; 6; 7; 8; 9; 10; 11; 12]%Z) by (simpl; lia).
  simpl in Hm.
  repeat (destruct Hm as [<- | Hm]; [vm_compute; intuition (discriminate || lia) |]).
  contradiction.
Qed.

Lemma current_season_follows_the_calendar_witness :
  get_current_season 10 = "autumn".
Proof.
  apply (current_season_follows_the_calendar 10); lia.
Defined.

(** ** The pages of the application *)

Lemma map_snd_combine {A B : Type} (l : list A) (l' : list B) :
  List.length l = List.length l' -> map snd (combine l l') = l'.
Proof.
  revert l'. induction l as [| x l IH]; intros [| y l'] H; simpl in *;
    try discriminate; [reflexivity |].
  f_equal. apply IH. lia.
Qed.

Lemma map_snd_range_index {A : Type} (l : list A) : map snd (range_index l) = l.
Proof. unfold range_index. apply map_snd_combine, length_seq. Qed.

Lemma In_combine_seq {A : Type} (l : list A) (a i : nat) (x : A) :
  In (i, x) (combine (seq a (List.length l)) l) ->
  a <= i /\ nth_error l (i - a) = Some x.
Proof.
  revert a. induction l as [| y l IH]; intros a H; simpl in H; [contradiction |].
  destruct H as [H | H].
  - injection H as <- <-. rewrite Nat.sub_diag. split; [lia | reflexivity].
  - apply IH in H. destruct H as [Ha Hn]. split; [lia |].
    replace (i - a) with (S (i - S a)) by lia. exact Hn.
Qed.

Lemma In_range_index {A : Type} (l : list A) (i : nat) (x : A) :
  In (i, x) (range_index l) -> nth_error l i = Some x.
Proof.
  intros H. apply In_combine_seq in H. now rewrite Nat.sub_0_r in H.
Qed.

Lemma select_city_rows_snd (df : list Observation) (c : string) :
  map snd (select_city_rows df c) = select_city df c.
Proof.
  unfold select_city_rows, select_city.
  rewrite (map_filter_comm snd (fun o => String.eqb (city o) c)).
  now rewrite map_snd_range_index.
Qed.

Lemma In_combine_labels {A B : Type} (f : B -> A) (L : list (nat * A)) (e : list B)
  (i : nat) (r : B) :
  map f e = map snd L -> In (i, r) (combine (map fst L) e) -> In (i, f r) L.
Proof.
  revert e. induction L as [| [j o] L IH]; intros [| y e] H Hin; simpl in *;
    try contradiction; try discriminate.
  injection H as Hy He. destruct Hin as [Hin | Hin].
  - injection Hin as <- <-. left. now rewrite Hy.
  - right. now apply (IH e).
Qed.

Lemma StronglySorted_filter {A : Type} (R : A -> A -> Prop) (p : A -> bool)
  (l : list A) :
  StronglySorted R l -> StronglySorted R (filter p l).
Proof.
  induction 1 as [| x l Hs IH Hx]; simpl; [constructor |].
  destruct (p x); [| exact IH]. constructor; [exact IH |].
  rewrite Forall_forall in *. intros y Hy. apply Hx. apply filter_In in Hy. tauto.
Qed.

Lemma StronglySorted_weaken {A : Type} (R R' : A -> A -> Prop) (l : list A) :
  (forall x y, In x l -> In y l -> R x y -> R' x y) ->
  StronglySorted R l -> StronglySorted R' l.
Proof.
  intros H Hs. induction Hs as [| x l Hs IH Hx]; constructor.
  - apply IH. intros a b Ha Hb. apply H; now right.
  - rewrite Forall_forall in *. intros y Hy. apply H; [now left | now right | auto].
Qed.

Lemma dataset_key_same_city (o1 o2 : Observation) :
  city o1 = city o2 ->
  dataset_key_le o1 o2 = time_le (timestamp o1) (timestamp o2).
Proof.
  intros Hc. unfold dataset_key_le, dataset_key. cbn [key_le cell_le].
  rewrite Hc.
  assert (Hr : String.leb (city o2) (city o2) = true).
  { destruct (String.leb_total (city o2) (city o2)); assumption. }
  rewrite Hr. cbn [negb].
  destruct (time_le_total (timestamp o1) (timestamp o2)) as [H | H]; rewrite H;
    cbn [negb].
  - now destruct (time_le (timestamp o2) (timestamp o1)).
  - now destruct (time_le (timestamp o1) (timestamp o2)).
Qed.

Section Pages.
Context {pandas : Pandas}.
Variable SEASON_MAPPING : list (string * string).
Variable ANOMALY_THRESHOLD : float.
Variable ROLLING_WINDOW : nat.
Variable str_lower : string -> string.

Local Abbreviation analyze :=
  (analyze_city_data SEASON_MAPPING ANOMALY_THRESHOLD ROLLING_WINDOW str_lower).

(** X22. In a dataset whose keys (city, timestamp) strictly ascend, as the
    loader leaves a table without a repeated key, the rows of a city are in
    the order of their timestamps, and the analyser returns them in the
    order of the dataset. *)
Theorem city_page_keeps_the_order_of_the_dataset
  (df : list Observation) (selected_city : string) e s a :
  StronglySorted
    (fun o1 o2 => dataset_key_le o1 o2 = true /\ dataset_key_le o2 o1 = false) df ->
  analyze (select_city df selected_city) = Ok (e, s, a) ->
  map obs e = select_city df selected_city.
Proof.
  intros Hs H. rewrite (analyze_obs _ _ _ _ _ _ _ _ H).
  apply sort_by_timestamp_id. unfold select_city.
  apply (StronglySorted_weaken
           (fun o1 o2 => dataset_key_le o1 o2 = true /\ dataset_key_le o2 o1 = false)).
  - intros x y Hx Hy [Hle Hgt]. apply filter_In in Hx, Hy.
    destruct Hx as [_ Hx], Hy as [_ Hy]. apply String.eqb_eq in Hx, Hy.
    rewrite <- !dataset_key_same_city; [now split | congruence | congruence].
  - now apply StronglySorted_filter.
Qed.

(** X23. The trace of the normal temperatures is chosen by position: the
    labels of the series are the positions of its rows in the dataset, and
    a row is left out of the trace exactly when its position is below the
    number of anomalies, whether it is an anomaly or not. *)
Theorem normal_trace_is_chosen_by_position
  (df : list Observation) (selected_city : string) e s a :
  analyze (select_city df selected_city) = Ok (e, s, a) ->
  let city_data := with_index (select_city_rows df selected_city) e in
  map snd city_data = e
  /\ (forall i r, In (i, r) city_data -> nth_error df i = Some (obs r))
  /\ (forall p, In p (normal_data city_data a)
                <-> In p city_data /\ List.length a <= fst p).
Proof.
  intros H city_data.
  pose proof (analyze_obs _ _ _ _ _ _ _ _ H) as Hobs.
  rewrite <- select_city_rows_snd, <- sort_rows_snd in Hobs.
  split; [| split].
  - apply map_snd_combine.
    rewrite length_map, <- (length_map snd), <- Hobs. apply length_map.
  - intros i r Hin. apply (In_combine_labels obs _ _ _ _ Hobs) in Hin.
    apply (Permutation_in _ (sort_rows_perm _)) in Hin.
    unfold select_city_rows in Hin. apply filter_In in Hin.
    apply In_range_index, Hin.
  - intros p. unfold normal_data. rewrite filter_In, negb_true_iff.
    assert (Hlt : existsb (Nat.eqb (fst p)) (seq 0 (List.length a)) = false
                  <-> List.length a <= fst p).
    { destruct (existsb (Nat.eqb (fst p)) (seq 0 (List.length a))) eqn:E.
      - apply existsb_exists in E. destruct E as (j & Hj & Hpj).
        apply in_seq in Hj. apply Nat.eqb_eq in Hpj. split; [discriminate | lia].
      - split; [intros _ | reflexivity].
        destruct (Nat.le_gt_cases (List.length a) (fst p)) as [Hle | Hgt]; [exact Hle |].
        exfalso. assert (Ht : existsb (Nat.eqb (fst p)) (seq 0 (List.length a)) = true).
        { apply existsb_exists. exists (fst p). split; [apply in_seq; lia |].
          apply Nat.eqb_refl. }
        congruence. }
    now rewrite Hlt.
Qed.

End Pages.

(** X24. The chart of the time series reads the column [rolling_mean_30]:
    it is drawn for a window of thirty observations and fails on the
    missing column for every other window. *)
Theorem timeseries_chart_needs_a_window_of_thirty
  (ROLLING_WINDOW : nat) (city_data : list (nat * EnrichedObservation))
  (city_anomalies : list Anomaly) :
  ((exists traces,
       create_timeseries ROLLING_WINDOW city_data city_anomalies = Ok traces)
   <-> ROLLING_WINDOW = 30)
  /\ (ROLLING_WINDOW <> 30 ->
      create_timeseries ROLLING_WINDOW city_data city_anomalies
      = Raise "'rolling_mean_30'").
Proof.
  assert (Hname : String.eqb (rolling_column ROLLING_WINDOW) "rolling_mean_30" = true
                  <-> ROLLING_WINDOW = 30).
  { rewrite String.eqb_eq. unfold rolling_column, str. split; [| now intros ->].
    intros Hs. simpl in Hs. injection Hs as Hs.
    apply (f_equal NilEmpty.uint_of_string) in Hs. rewrite NilEmpty.usu in Hs.
    simpl in Hs. injection Hs as Hs. apply (f_equal Nat.of_uint) in Hs.
    now rewrite DecimalNat.Unsigned.of_to in Hs. }
  unfold create_timeseries.
  destruct (String.eqb (rolling_column ROLLING_WINDOW) "rolling_mean_30") eqn:E;
    cbn [bind].
  - split; [| intros Hne; elim Hne; now apply Hname].
    split; [intros _; now apply Hname | intros _; eexists; reflexivity].
  - split; [| reflexivity].
    split; [intros [traces Ht]; discriminate |].
    intros Hw. apply Hname in Hw. discriminate.
Qed.

Lemma city_page_keeps_the_order_of_the_dataset_witness :
  exists e s a,
    sample_analyze (select_city sample_winter "Moscow") = Ok (e, s, a)
    /\ map obs e = select_city sample_winter "Moscow".
Proof.
  eexists _, _, _. split; [reflexivity |].
  eapply (city_page_keeps_the_order_of_the_dataset
            (pandas := sample_pandas)
            sample_mapping sample_threshold sample_window ascii_str_lower
            sample_winter "Moscow").
  - repeat constructor.
  - reflexivity.
Defined.

Lemma normal_trace_is_chosen_by_position_witness :
  exists e s a,
    sample_analyze (select_city sample_city "Moscow") = Ok (e, s, a)
    /\ map snd (with_index (pandas := sample_pandas)
                  (select_city_rows sample_city "Moscow") e) = e.
Proof.
  eexists _, _, _. split; [reflexivity |].
  eapply (normal_trace_is_chosen_by_position
            (pandas := sample_pandas)
            sample_mapping sample_threshold sample_window ascii_str_lower
            sample_city "Moscow").
  reflexivity.
Defined.

Lemma timeseries_chart_needs_a_window_of_thirty_witness :
  create_timeseries 7 [] [] = Raise "'rolling_mean_30'".
Proof.
  apply (timeseries_chart_needs_a_window_of_thirty 7 [] []). lia.
Defined.

(** ** The dates of the extremes *)

Lemma leb_eqb_r (x y z : float) :
  (x <=? y)%float = true -> (z =? y)%float = true -> (x <=? z)%float = true.
Proof.
  rewrite !FloatAxioms.leb_spec, FloatAxioms.eqb_spec. intros Hle Heq.
  apply FloatFacts.SFeqb_cases in Heq.
  destruct Heq as [(s1 & s2 & -> & Hy) | [-> _]]; [| exact Hle].
  rewrite Hy in Hle. apply FloatOrder.SFleb_rank in Hle. apply FloatOrder.SFleb_rank.
  exact Hle.
Qed.

Lemma leb_eqb_l (x y z : float) :
  (y <=? x)%float = true -> (z =? y)%float = true -> (z <=? x)%float = true.
Proof.
  rewrite !FloatAxioms.leb_spec, FloatAxioms.eqb_spec. intros Hle Heq.
  apply FloatFacts.SFeqb_cases in Heq.
  destruct Heq as [(s1 & s2 & -> & Hy) | [-> _]]; [| exact Hle].
  rewrite Hy in Hle. apply FloatOrder.SFleb_rank in Hle. apply FloatOrder.SFleb_rank.
  exact Hle.
Qed.

Lemma min_max_present (l : list float) :
  Series.count l <> 0 ->
  is_nan (Series.min l) = false /\ is_nan (Series.max l) = false.
Proof.
  unfold Series.count, Series.min, Series.max. intros Hc.
  pose proof (dropna_In l) as Hd.
  destruct (Series.dropna l) as [| x v]; [now elim Hc |].
  assert (Hx : is_nan x = false) by (apply Hd; now left).
  assert (Hv : forall y, In y v -> is_nan y = false)
    by (intros y Hy; apply Hd; now right).
  destruct (fold_min_spec v x Hx Hv) as [Hmin _].
  destruct (fold_max_spec v x Hx Hv) as [Hmax _].
  split; [apply (Hd _), Hmin | apply (Hd _), Hmax].
Qed.

Lemma count_none (l : list float) :
  Series.count l = 0 -> forall x, In x l -> is_nan x = true.
Proof.
  unfold Series.count. intros Hc x Hx.
  destruct (is_nan x) eqn:E; [reflexivity |].
  assert (Hin : In x (Series.dropna l)) by (apply dropna_In; tauto).
  destruct (Series.dropna l); [contradiction | discriminate].
Qed.

(** The first row with a given temperature, when the temperature is one of
    the series. *)
Lemma first_with_temperature (e : list EnrichedObservation) (m : float) :
  is_nan m = false -> In m (map temp e) ->
  exists r t, filter (fun r => (temp r =? m)%float) e = r :: t
              /\ In r e /\ (temp r =? m)%float = true.
Proof.
  intros Hm Hin. apply in_map_iff in Hin. destruct Hin as (r0 & Hr0 & Hin).
  assert (Hf : In r0 (filter (fun r => (temp r =? m)%float) e)).
  { apply filter_In. split; [exact Hin |]. rewrite Hr0.
    unfold is_nan in Hm. now apply negb_false_iff in Hm. }
  destruct (filter (fun r => (temp r =? m)%float) e) as [| r t] eqn:E;
    [contradiction |].
  exists r, t. split; [reflexivity |].
  assert (Hr : In r (filter (fun r => (temp r =? m)%float) e)) by (rewrite E; now left).
  apply filter_In in Hr. exact Hr.
Qed.

Lemma none_with_temperature (e : list EnrichedObservation) (m : float) :
  (forall r, In r e -> is_nan (temp r) = true) ->
  filter (fun r => (temp r =? m)%float) e = [].
Proof.
  intros Hall. apply filter_none. intros r Hr.
  apply Hall in Hr. apply FloatFacts.is_nan_iff in Hr. rewrite Hr.
  rewrite FloatAxioms.eqb_spec. change (Prim2SF nan) with S754_nan. reflexivity.
Qed.

Section Extremes.
Context {pandas : Pandas}.
Variable SEASON_MAPPING : list (string * string).
Variable ANOMALY_THRESHOLD : float.
Variable ROLLING_WINDOW : nat.
Variable str_lower : string -> string.

Local Abbreviation analyze :=
  (analyze_city_data SEASON_MAPPING ANOMALY_THRESHOLD ROLLING_WINDOW str_lower).

(** X25. The page of the time series finds the date of the maximum and the
    date of the minimum exactly when the city has a temperature: each is the
    date of a row of the series, no present temperature is above the one or
    below the other, and for a city without any temperature both lookups
    fail. *)
Theorem extreme_dates_need_a_temperature (city_df : list Observation) :
  1 <= ROLLING_WINDOW ->
  exists e s a,
    analyze city_df = Ok (e, s, a)
    /\ (Series.count (map temperature city_df) = 0 ->
        (exists msg, max_date e = Raise msg) /\ (exists msg, min_date e = Raise msg))
    /\ (Series.count (map temperature city_df) <> 0 ->
        exists rmax rmin,
          In rmax e /\ In rmin e
          /\ max_date e = Ok (timestamp (obs rmax))
          /\ min_date e = Ok (timestamp (obs rmin))
          /\ forall r, In r e -> is_nan (temp r) = false ->
               (temp rmin <=? temp r)%float = true
               /\ (temp r <=? temp rmax)%float = true).
Proof.
  intros Hw.
  destruct (analyze_ok SEASON_MAPPING ANOMALY_THRESHOLD ROLLING_WINDOW str_lower
              city_df Hw) as (e & s & a & H).
  exists e, s, a. split; [exact H |].
  pose proof (analyze_perm _ _ _ _ _ _ _ _ H) as Hperm.
  assert (Hcount : Series.count (map temp e) = Series.count (map temperature city_df)).
  { unfold temp. rewrite <- (map_map obs temperature).
    unfold Series.count, Series.dropna.
    apply filter_perm_length, Permutation_map, Hperm. }
  rewrite <- Hcount. split.
  - intros Hc. pose proof (count_none _ Hc) as Hall.
    assert (Hrows : forall r, In r e -> is_nan (temp r) = true)
      by (intros r Hr; apply Hall, in_map, Hr).
    unfold max_date, min_date. rewrite !none_with_temperature by exact Hrows.
    split; eexists; reflexivity.
  - intros Hc.
    destruct (min_max_spec _ Hc) as (Hlo & Hhi & Hall).
    destruct (min_max_present _ Hc) as [Hnlo Hnhi].
    destruct (first_with_temperature e _ Hnhi Hhi) as (rmax & tmax & Emax & Imax & Qmax).
    destruct (first_with_temperature e _ Hnlo Hlo) as (rmin & tmin & Emin & Imin & Qmin).
    exists rmax, rmin. unfold max_date, min_date. rewrite Emax, Emin.
    repeat split; try assumption.
    + eapply leb_eqb_l; [| exact Qmin]. apply Hall; [now apply in_map | assumption].
    + eapply leb_eqb_r; [| exact Qmax]. apply Hall; [now apply in_map | assumption].
Qed.

End Extremes.

Lemma extreme_dates_need_a_temperature_witness :
  1 <= sample_window
  /\ exists e s a,
       sample_analyze sample_winter = Ok (e, s, a)
       /\ max_date e = Ok (Some 1%Z) /\ min_date e = Ok (Some 2%Z).
Proof.
  assert (Hw : 1 <= sample_window) by (unfold sample_window; lia).
  split; [exact Hw |].
  destruct (extreme_dates_need_a_temperature
              (pandas := sample_pandas)
              sample_mapping sample_threshold sample_window ascii_str_lower
              sample_winter Hw) as (e & s & a & H & _ & _).
  exists e, s, a. split; [exact H |].
  injection H as <- _ _. split; reflexivity.
Defined.
